(** * Satellite / Capsule upgrade tasks

    A shallow embedding of [automation_tools/satellite6/upgrade/__init__.py]:
    the three Fabric tasks [satellite6_upgrade], [satellite6_capsule_upgrade]
    and [product_upgrade], written in a small reader/state/error monad that
    records every remote operation the tasks issue. *)

From Stdlib Require Import ZArith.
From stdpp Require Import base strings list gmap.

Local Open Scope string_scope.
Local Open Scope list_scope.

(** ** Python values that reach the remote layer *)

Inductive Val :=
| VNone
| VStr (s : string)
| VBool (b : bool)
| VInt (n : Z).

(** The result of [os.environ.get(k)] or [env.get(k)] is a string or
    [None]; [py] turns it into an argument value, [fmt] is what
    ['{0}'.format(x)] prints for it. *)
Definition py (o : option string) : Val :=
  match o with Some s => VStr s | None => VNone end.

Definition fmt (o : option string) : string :=
  match o with Some s => s | None => "None" end.

(** Python truth value of a string-or-None. *)
Definition truthy (o : option string) : bool :=
  match o with
  | Some (String _ _) => true
  | _ => false
  end.

(** [x in l] for a string-or-None [x] and a list of strings. *)
Definition py_in (o : option string) (l : list string) : bool :=
  match o with
  | Some s => existsb (String.eqb s) l
  | None => false
  end.

(** [x is None]. *)
Definition is_none (o : option string) : bool :=
  match o with None => true | Some _ => false end.

(** [x == s] for a string-or-None [x]. *)
Definition py_eq (o : option string) (s : string) : bool :=
  match o with
  | Some s' => String.eqb s' s
  | None => false
  end.

Definition LF : string := String (Ascii.ascii_of_nat 10) EmptyString.

(** ** Remote operations *)

(** Where an operation runs: on the host the enclosing task was started
    for ([Ambient]), or on the host given to [execute(..., host=h)]. *)
Inductive Target :=
| Ambient
| OnHost (h : option string).

(** The helpers imported from the rest of the package.  Their bodies are
    not part of this module: a call is recorded with its arguments. *)
Inductive Helper :=
| create_rhevm_instance
| delete_rhevm_instance
| sync_capsule_tools_repos_to_upgrade
| copy_ssh_key
| host_pings
| reboot
| foreman_debug
| set_yum_debug_level
| subscribe
| enable_repos
| disable_repos
| generate_capsule_certs
| distro_info
| update_packages.

Inductive Op :=
| Run (tgt : Target) (cmd : string) (warn_only : bool)
| Put (tgt : Target) (content : string) (remote_path : string)
| Call (tgt : Target) (fn : Helper) (args : list Val)
       (kwargs : list (string * Val)).

(** Only [run(..., warn_only=True)] tolerates a failing command. *)
Definition tolerant (op : Op) : bool :=
  match op with
  | Run _ _ warn_only => warn_only
  | _ => false
  end.

(** ** The world a task runs in *)

Record World := {
  environ : gmap string string;        (* os.environ *)
  fails : list Op → Op → bool;         (* does this operation fail, after that history *)
  distro_major : Target → string;      (* distro_info()[1], formatted *)
  ctime : nat → string                 (* time.ctime(), by operations issued so far *)
}.

Record State := {
  ops : list Op;                       (* remote operations issued, oldest first *)
  out : list string;                   (* lines printed, oldest first *)
  fenv : gmap string (option string)   (* fabric.api.env: the shared dict *)
}.

Definition initial : State := {| ops := []; out := []; fenv := ∅ |}.

(** How a task can stop early: [sys.exit(code)], Fabric aborting on a
    failed operation, the use of a local variable that was never assigned,
    or an [AttributeError]. *)
Inductive Failure :=
| SysExit (code : Z)
| Aborted (op : Op)
| UnboundLocal (name : string)
| AttributeError (msg : string).

Inductive Result (A : Type) :=
| Ok (a : A)
| Fail (e : Failure).
Arguments Ok {A} a.
Arguments Fail {A} e.

Definition M (A : Type) : Type := World → State → Result A * State.

Global Instance M_ret : MRet M := λ A a _ s, (Ok a, s).

Global Instance M_bind : MBind M := λ A B f m w s,
  match m w s with
  | (Ok a, s') => f a w s'
  | (Fail e, s') => (Fail e, s')
  end.

(** ** Primitives *)

Definition getenv (k : string) : M (option string) :=
  λ w s, (Ok (environ w !! k), s).

Definition env_get (k : string) : M (option string) :=
  λ _ s, (Ok (mjoin (fenv s !! k)), s).

Definition env_set (k : string) (v : option string) : M unit :=
  λ _ s, (Ok tt, {| ops := ops s; out := out s; fenv := <[k := v]> (fenv s) |}).

Definition print (line : string) : M unit :=
  λ _ s, (Ok tt, {| ops := ops s; out := out s ++ [line]; fenv := fenv s |}).

Definition time_ctime : M string :=
  λ w s, (Ok (ctime w (length (ops s))), s).

Definition sys_exit {A} (code : Z) : M A :=
  λ _ s, (Fail (SysExit code), s).

Definition unbound {A} (name : string) : M A :=
  λ _ s, (Fail (UnboundLocal name), s).

Definition raise_attribute_error {A} (msg : string) : M A :=
  λ _ s, (Fail (AttributeError msg), s).

(** Issue one remote operation.  It is recorded whatever happens; when it
    fails, a tolerant one lets the task go on and any other aborts it. *)
Definition exec (op : Op) : M unit :=
  λ w s,
    let s' := {| ops := ops s ++ [op]; out := out s; fenv := fenv s |} in
    if fails w (ops s) op
    then if tolerant op then (Ok tt, s') else (Fail (Aborted op), s')
    else (Ok tt, s').

Definition run (tgt : Target) (cmd : string) (warn_only : bool) : M unit :=
  exec (Run tgt cmd warn_only).

Definition put (tgt : Target) (content remote_path : string) : M unit :=
  exec (Put tgt content remote_path).

Definition call (tgt : Target) (fn : Helper) (args : list Val)
    (kwargs : list (string * Val)) : M unit :=
  exec (Call tgt fn args kwargs).

(** [distro_info()[1]]. *)
Definition reported_major (tgt : Target) : M string :=
  λ w s, (Ok (distro_major w tgt), s).

Definition distro_info_major (tgt : Target) : M string :=
  call tgt distro_info [] [];; reported_major tgt.

(** [execute(task, ..., host=h)] and [execute(task, ...)].  Before it
    calls the task, Fabric strips the host strings it was given; for
    [host=None] this is [None.strip()], which raises. *)
Definition none_has_no_strip : string :=
  "'NoneType' object has no attribute 'strip'".

Definition execute {A} (task : Target → M A) (host : option string) : M A :=
  match host with
  | Some _ => task (OnHost host)
  | None => raise_attribute_error none_has_no_strip
  end.

Definition execute_ambient {A} (task : Target → M A) : M A :=
  task Ambient.

(** [if c: body] with nothing after it in the branch. *)
Definition when (c : bool) (body : M unit) : M unit :=
  if c then body else mret tt.

(** A local variable that may not have been assigned yet. *)
Inductive Local (A : Type) :=
| Unassigned
| Assigned (a : A).
Arguments Unassigned {A}.
Arguments Assigned {A} a.

Definition read_local {A} (name : string) (v : Local A) : M A :=
  match v with
  | Assigned a => mret a
  | Unassigned => unbound name
  end.

(** ** satellite6_upgrade *)

Definition stop_for_loop : string :=
  "for i in qpidd pulp_workers pulp_celerybeat " +:+
  "pulp_resource_manager httpd; do service $i stop; done".

Definition sat6_repo (base_url : string) : string :=
  "[sat6]" +:+ LF +:+
  "name=satellite 6" +:+ LF +:+
  "baseurl=" +:+ base_url +:+ LF +:+
  "enabled=1" +:+ LF +:+
  "gpgcheck=0" +:+ LF.

Definition satellite6_upgrade (admin_password : option string)
    (tgt : Target) : M unit :=
  to_version ← getenv "TO_VERSION";
  when (negb (py_in to_version ["6.1"; "6.2"]))
    (print ("Wrong Satellite Version Provided to upgrade to. " +:+
            "Provide one of 6.1, 6.2");;
     sys_exit 1);;
  admin_password ←
    match admin_password with
    | None => p ← getenv "ADMIN_PASSWORD"; mret (default "changeme" p)
    | Some p => mret p
    end;
  call tgt set_yum_debug_level [] [];;
  run tgt "rm -rf /etc/yum.repos.d/rhel-{optional,released}.repo" false;;
  print "Wait till Packages update ... ";;
  call tgt update_packages [] [("quiet", VBool true)];;
  rhev ← getenv "RHEV_SATELLITE";
  when (truthy rhev) (call tgt reboot [VInt 120] []);;
  major_ver ← distro_info_major tgt;
  base_url ← getenv "BASE_URL";
  call tgt disable_repos [VStr "*"] [("silent", VBool true)];;
  call tgt enable_repos [VStr ("rhel-" +:+ major_ver +:+ "-server-rpms")] [];;
  call tgt enable_repos
    [VStr ("rhel-server-rhscl-" +:+ major_ver +:+ "-rpms")] [];;
  match base_url with
  | None =>
      call tgt enable_repos
        [VStr ("rhel-" +:+ major_ver +:+ "-server-satellite-" +:+
               fmt to_version +:+ "-rpms")] []
  | Some base_url =>
      put tgt (sat6_repo base_url) "/etc/yum.repos.d/sat6.repo"
  end;;
  run tgt "katello-service stop" false;;
  when (py_eq to_version "6.1") (run tgt "service-wait mongod start" false);;
  run tgt "yum clean all" true;;
  print "Wait till packages update ... ";;
  t ← time_ctime; print ("YUM UPDATE started at: " +:+ t);;
  call tgt update_packages [] [("quiet", VBool false)];;
  t ← time_ctime; print ("YUM UPDATE finished at: " +:+ t);;
  rhev ← getenv "RHEV_SATELLITE";
  when (truthy rhev) (call tgt reboot [VInt 120] []);;
  run tgt "katello-service stop" false;;
  when (py_eq to_version "6.1") (run tgt "service-wait mongod start" false);;
  t ← time_ctime; print ("SATELLITE UPGRADE started at: " +:+ t);;
  (if py_eq to_version "6.1"
   then run tgt "katello-installer --upgrade" false
   else run tgt "satellite-installer --scenario satellite --upgrade" false);;
  t ← time_ctime; print ("SATELLITE UPGRADE finished at: " +:+ t);;
  run tgt ("hammer -u admin -p " +:+ admin_password +:+ " ping") true;;
  run tgt "katello-service status" true.

(** ** satellite6_capsule_upgrade *)

Definition satellite6_capsule_upgrade (admin_password : option string)
    (tgt : Target) : M unit :=
  sat_host ← env_get "satellite_host";
  cap_host ← env_get "capsule_host";
  from_version ← getenv "FROM_VERSION";
  when (negb (py_in from_version ["6.1"; "6.0"]))
    (print "Wrong Capsule Version Provided. Provide one of 6.1, 6.0.";;
     sys_exit 1);;
  to_version ← getenv "TO_VERSION";
  when (negb (py_in to_version ["6.1"; "6.2"]))
    (print ("Wrong Capsule Version Provided to upgrade to. " +:+
            "Provide one of 6.1, 6.2");;
     sys_exit 1);;
  admin_password ←
    match admin_password with
    | None => p ← getenv "ADMIN_PASSWORD"; mret (default "changeme" p)
    | Some p => mret p
    end;
  major_ver ← distro_info_major tgt;
  capsule_url ← getenv "CAPSULE_URL";
  when (is_none capsule_url)
    (call tgt enable_repos
       [VStr ("rhel-" +:+ major_ver +:+ "-server-satellite-capsule-" +:+
              fmt to_version +:+ "-rpms")] []);;
  call tgt disable_repos
    [VStr ("rhel-" +:+ major_ver +:+ "-server-satellite-capsule-" +:+
           fmt from_version +:+ "-rpms")] [];;
  run tgt stop_for_loop false;;
  run tgt "yum clean all" true;;
  print "Wait till packages update ... ";;
  t ← time_ctime; print ("YUM UPDATE started at: " +:+ t);;
  call tgt update_packages [] [("quiet", VBool false)];;
  t ← time_ctime; print ("YUM UPDATE finished at: " +:+ t);;
  when (py_eq from_version "6.0")
    (run tgt "yum install -y capsule-installer" true;;
     run tgt ("cp /etc/katello-installer/answers.capsule-installer.yaml.rpmsave " +:+
              "/etc/capsule-installer/answers.capsule-installer.yaml") true);;
  execute (λ t, call t generate_capsule_certs [py cap_host; VBool true] [])
    sat_host;;
  execute (λ t, run t ("scp -o 'StrictHostKeyChecking no' " +:+ fmt cap_host +:+
                       "-certs.tar " +:+ "root@" +:+ fmt cap_host +:+ ":/home/")
                  false)
    sat_host;;
  rhev ← getenv "RHEV_CAPSULE";
  when (truthy rhev) (call tgt reboot [VInt 120] []);;
  run tgt stop_for_loop false;;
  t ← time_ctime; print ("CAPSULE UPGRADE started at: " +:+ t);;
  (if py_eq to_version "6.1"
   then run tgt ("capsule-installer --upgrade --certs-tar " +:+
                 "/home/" +:+ fmt cap_host +:+ "-certs.tar") false
   else run tgt ("satellite-installer --scenario capsule --upgrade --certs-tar " +:+
                 "/home/" +:+ fmt cap_host +:+ "-certs.tar") false);;
  t ← time_ctime; print ("CAPSULE UPGRADE finished at: " +:+ t);;
  run tgt "katello-service status" true.

(** ** product_upgrade *)

Definition product_upgrade (product : string)
    (sat_image cap_image : option string) : M unit :=
  let products := ["satellite"; "capsule"] in
  when (negb (existsb (String.eqb product) products))
    (print "Product name should be one of satellite, capsule";;
     sys_exit 1);;
  satellite_hostname ← getenv "SATELLITE_HOSTNAME";
  '(sat_host, version) ←
    (if negb (truthy satellite_hostname) then
       rhev_satellite ← getenv "RHEV_SATELLITE";
       when (negb (truthy sat_image) && negb (truthy rhev_satellite))
         (print ("Please provide either Satellite RHEVM template name or " +:+
                 "Satellite HostName to perform upgrade!");;
          sys_exit 1);;
       version ← getenv "OS";
       when (negb (truthy version))
         (print "Please provide OS version as rhel7 or rhel6, And retry !";;
          sys_exit 1);;
       let sat_instance := "upgrade_satellite_auto_" +:+ fmt version in
       execute_ambient
         (λ t, call t delete_rhevm_instance [VStr sat_instance] []);;
       print "Turning on Satellite Instance ....";;
       execute_ambient
         (λ t, call t create_rhevm_instance
                 [VStr sat_instance; py sat_image] []);;
       sat_host ← getenv "RHEV_SATELLITE";
       call Ambient host_pings [py sat_host] [];;
       execute (λ t, call t subscribe [] []) sat_host;;
       mret (sat_host, Assigned version)
     else
       sat_host ← getenv "SATELLITE_HOSTNAME";
       env_set "satellite_host" sat_host;;
       mret (sat_host, Unassigned));
  execute (λ t, run t "katello-service restart" false) sat_host;;
  cap_host ←
    (if String.eqb product "capsule" then
       capsule_hostname ← getenv "CAPSULE_HOSTNAME";
       cap_host ←
         (if negb (truthy capsule_hostname) then
            rhev_capsule ← getenv "RHEV_CAPSULE";
            when (negb (truthy cap_image) && negb (truthy rhev_capsule))
              (print ("Please provide either Capsule RHEVM template name or " +:+
                      "Capsule HostName to perform upgrade!");;
               sys_exit 1);;
            version ← read_local "version" version;
            let cap_instance := "upgrade_capsule_auto_" +:+ fmt version in
            execute_ambient
              (λ t, call t delete_rhevm_instance [VStr cap_instance] []);;
            print "Turning on Capsule Instance ....";;
            execute_ambient
              (λ t, call t create_rhevm_instance
                      [VStr cap_instance; py cap_image] []);;
            getenv "RHEV_CAPSULE"
          else
            cap_host ← getenv "CAPSULE_HOSTNAME";
            env_set "capsule_host" cap_host;;
            mret cap_host);
       call Ambient copy_ssh_key [py sat_host; py cap_host] [];;
       capsule_url ← getenv "CAPSULE_URL";
       when (negb (is_none capsule_url))
         (execute (λ t, call t sync_capsule_tools_repos_to_upgrade [] [])
            sat_host);;
       mret (Assigned cap_host)
     else mret Unassigned);
  execute (satellite6_upgrade None) sat_host;;
  execute (λ t, call t foreman_debug [VStr "satellite"] []) sat_host;;
  when (String.eqb product "capsule")
    (print (LF +:+ "Running Capsule Upgrade ..........");;
     host ← read_local "cap_host" cap_host;
     execute (satellite6_capsule_upgrade None) host;;
     host ← read_local "cap_host" cap_host;
     execute (λ t, call t foreman_debug [VStr "capsule"] []) host).

(** * Vocabulary of the properties *)

(** ** Worlds and runs *)

(** The same world with a remote layer that never fails. *)
Definition quiet (w : World) : World := {|
  environ := environ w;
  fails := λ _ _, false;
  distro_major := distro_major w;
  ctime := ctime w
|}.

(** A world in which no operation fails. *)
Definition unhindered (w : World) : Prop := ∀ o op, fails w o op = false.

(** An operation that stops the task: it failed and was not tolerant. *)
Definition halts (w : World) (pre : list Op) (op : Op) : bool :=
  fails w pre op && negb (tolerant op).

(** None of the operations [new], issued after [pre], stopped the task. *)
Definition unhalted (w : World) (pre new : list Op) : Prop :=
  ∀ k op, new !! k = Some op → halts w (pre ++ take k new) op = false.

(** What every task built from the primitives satisfies: operations are
    only ever appended; a run is aborted exactly by its last operation,
    which failed without being tolerant, and then the operations issued are
    an initial segment of those of the run in which nothing fails; any
    other run coincides with that run. *)
Definition lawful {A} (m : M A) : Prop :=
  ∀ w s,
    match m w s with
    | (Fail (Aborted op), s') =>
        ∃ done rest,
          ops s' = ops s ++ done ++ [op] ∧
          ops (m (quiet w) s).2 = ops s ++ done ++ [op] ++ rest ∧
          unhalted w (ops s) done ∧
          halts w (ops s ++ done) op = true
    | (r, s') =>
        m (quiet w) s = (r, s') ∧
        ∃ new, ops s' = ops s ++ new ∧ unhalted w (ops s) new
    end.

(** A state in which nothing has been issued or printed yet. *)
Definition fresh (e : gmap string (option string)) : State :=
  {| ops := []; out := []; fenv := e |}.

(** The status the process ends with, by the way the task stopped: the
    code given to [sys.exit]; 1 for an aborted operation (Fabric's [abort]
    is [sys.exit(1)]) and for an uncaught exception. *)
Definition status (e : Failure) : Z :=
  match e with
  | SysExit code => code
  | _ => 1%Z
  end.

(** The state after one more operation. *)
Definition with_op (s : State) (op : Op) : State :=
  {| ops := ops s ++ [op]; out := out s; fenv := fenv s |}.

(** [yields m w o l e a new lines e']: started with operations [o], output
    [l] and shared dict [e], the task [m] returns [a], having appended the
    operations [new] and the lines [lines], and leaves the dict [e']. *)
Definition yields {A} (m : M A) (w : World) (o : list Op) (l : list string)
    (e : gmap string (option string)) (a : A) (new : list Op)
    (lines : list string) (e' : gmap string (option string)) : Prop :=
  m w {| ops := o; out := l; fenv := e |} =
  (Ok a, {| ops := o ++ new; out := l ++ lines; fenv := e' |}).

(** [stops m w o l e err new lines e']: started with operations [o], output
    [l] and shared dict [e], the task [m] stops with [err], having appended
    the operations [new] and the lines [lines], and leaves the dict [e']. *)
Definition stops {A} (m : M A) (w : World) (o : list Op) (l : list string)
    (e : gmap string (option string)) (err : Failure) (new : list Op)
    (lines : list string) (e' : gmap string (option string)) : Prop :=
  m w {| ops := o; out := l; fenv := e |} =
  (Fail err, {| ops := o ++ new; out := l ++ lines; fenv := e' |}).

(** [hoare w P m Q E]: from a state satisfying [P], the task [m] ends in a
    state satisfying [Q] when it returns and [E] when it stops. *)
Definition hoare (w : World) (P : State → Prop) {A} (m : M A)
    (Q E : State → Prop) : Prop :=
  ∀ s, P s →
    match m w s with
    | (Ok _, s') => Q s'
    | (Fail _, s') => E s'
    end.

(** The state invariants used below: [K] of the shared dict and [X] of
    every operation issued so far. *)
Definition inv (K : gmap string (option string) → Prop) (X : Op → Prop)
    (s : State) : Prop :=
  K (fenv s) ∧ Forall X (ops s).

(** ** The phases of each workflow *)

(** The operations a satellite upgrade issues, in order, when none of them
    stops it. *)
Definition hub_phases (tgt : Target) (major_ver : string)
    (to_version base_url rhev : option string) (password : string) : list Op :=
  [ Call tgt set_yum_debug_level [] [];
    Run tgt "rm -rf /etc/yum.repos.d/rhel-{optional,released}.repo" false;
    Call tgt update_packages [] [("quiet", VBool true)] ] ++
  (if truthy rhev then [Call tgt reboot [VInt 120] []] else []) ++
  [ Call tgt distro_info [] [];
    Call tgt disable_repos [VStr "*"] [("silent", VBool true)];
    Call tgt enable_repos [VStr ("rhel-" +:+ major_ver +:+ "-server-rpms")] [];
    Call tgt enable_repos
      [VStr ("rhel-server-rhscl-" +:+ major_ver +:+ "-rpms")] [];
    match base_url with
    | None =>
        Call tgt enable_repos
          [VStr ("rhel-" +:+ major_ver +:+ "-server-satellite-" +:+
                 fmt to_version +:+ "-rpms")] []
    | Some url => Put tgt (sat6_repo url) "/etc/yum.repos.d/sat6.repo"
    end;
    Run tgt "katello-service stop" false ] ++
  (if py_eq to_version "6.1"
   then [Run tgt "service-wait mongod start" false] else []) ++
  [ Run tgt "yum clean all" true;
    Call tgt update_packages [] [("quiet", VBool false)] ] ++
  (if truthy rhev then [Call tgt reboot [VInt 120] []] else []) ++
  [ Run tgt "katello-service stop" false ] ++
  (if py_eq to_version "6.1"
   then [Run tgt "service-wait mongod start" false] else []) ++
  [ (if py_eq to_version "6.1"
     then Run tgt "katello-installer --upgrade" false
     else Run tgt "satellite-installer --scenario satellite --upgrade" false);
    Run tgt ("hammer -u admin -p " +:+ password +:+ " ping") true;
    Run tgt "katello-service status" true ].

(** The admin password the task ends up with. *)
Definition password_of (w : World) (admin_password : option string) : string :=
  match admin_password with
  | None => default "changeme" (environ w !! "ADMIN_PASSWORD")
  | Some p => p
  end.

(** [hub_phases] for the inputs the task reads from the world. *)
Definition hub_plan (w : World) (admin_password : option string)
    (tgt : Target) : list Op :=
  hub_phases tgt (distro_major w tgt) (environ w !! "TO_VERSION")
    (environ w !! "BASE_URL") (environ w !! "RHEV_SATELLITE")
    (password_of w admin_password).

(** The operations a capsule upgrade issues, in order, when none of them
    stops it. *)
Definition capsule_phases (tgt : Target) (major_ver : string)
    (from_version to_version capsule_url rhev sat_host cap_host : option string)
    : list Op :=
  [ Call tgt distro_info [] [] ] ++
  (if is_none capsule_url
   then [Call tgt enable_repos
           [VStr ("rhel-" +:+ major_ver +:+ "-server-satellite-capsule-" +:+
                  fmt to_version +:+ "-rpms")] []]
   else []) ++
  [ Call tgt disable_repos
      [VStr ("rhel-" +:+ major_ver +:+ "-server-satellite-capsule-" +:+
             fmt from_version +:+ "-rpms")] [];
    Run tgt stop_for_loop false;
    Run tgt "yum clean all" true;
    Call tgt update_packages [] [("quiet", VBool false)] ] ++
  (if py_eq from_version "6.0"
   then [ Run tgt "yum install -y capsule-installer" true;
          Run tgt ("cp /etc/katello-installer/answers.capsule-installer.yaml.rpmsave " +:+
                   "/etc/capsule-installer/answers.capsule-installer.yaml") true ]
   else []) ++
  [ Call (OnHost sat_host) generate_capsule_certs [py cap_host; VBool true] [];
    Run (OnHost sat_host)
      ("scp -o 'StrictHostKeyChecking no' " +:+ fmt cap_host +:+
       "-certs.tar " +:+ "root@" +:+ fmt cap_host +:+ ":/home/") false ] ++
  (if truthy rhev then [Call tgt reboot [VInt 120] []] else []) ++
  [ Run tgt stop_for_loop false;
    (if py_eq to_version "6.1"
     then Run tgt ("capsule-installer --upgrade --certs-tar " +:+
                   "/home/" +:+ fmt cap_host +:+ "-certs.tar") false
     else Run tgt ("satellite-installer --scenario capsule --upgrade --certs-tar " +:+
                   "/home/" +:+ fmt cap_host +:+ "-certs.tar") false);
    Run tgt "katello-service status" true ].

(** [capsule_phases] for the inputs the task reads from the world. *)
Definition capsule_plan (w : World) (tgt : Target)
    (sat_host cap_host : option string) : list Op :=
  capsule_phases tgt (distro_major w tgt) (environ w !! "FROM_VERSION")
    (environ w !! "TO_VERSION") (environ w !! "CAPSULE_URL")
    (environ w !! "RHEV_CAPSULE") sat_host cap_host.

(** The two workflows, by role. *)
Inductive Role := Hub | Subordinate.

Definition workflow (role : Role) : option string → Target → M unit :=
  match role with
  | Hub => satellite6_upgrade
  | Subordinate => satellite6_capsule_upgrade
  end.

(** Whether the versions in the environment pass the checks of the role. *)
Definition accepted (role : Role) (w : World) : bool :=
  match role with
  | Hub => py_in (environ w !! "TO_VERSION") ["6.1"; "6.2"]
  | Subordinate =>
      py_in (environ w !! "FROM_VERSION") ["6.1"; "6.0"] &&
      py_in (environ w !! "TO_VERSION") ["6.1"; "6.2"]
  end.

(** The plan of a workflow started in state [s]. *)
Definition plan (role : Role) (w : World) (pw : option string) (tgt : Target)
    (s : State) : list Op :=
  match role with
  | Hub => hub_plan w pw tgt
  | Subordinate =>
      capsule_plan w tgt (mjoin (fenv s !! "satellite_host"))
        (mjoin (fenv s !! "capsule_host"))
  end.

(** The operations of a capsule upgrade that come before its certificate
    steps. *)
Definition capsule_opening (w : World) (tgt : Target) : list Op :=
  [ Call tgt distro_info [] [] ] ++
  (if is_none (environ w !! "CAPSULE_URL")
   then [Call tgt enable_repos
           [VStr ("rhel-" +:+ distro_major w tgt +:+
                  "-server-satellite-capsule-" +:+
                  fmt (environ w !! "TO_VERSION") +:+ "-rpms")] []]
   else []) ++
  [ Call tgt disable_repos
      [VStr ("rhel-" +:+ distro_major w tgt +:+
             "-server-satellite-capsule-" +:+
             fmt (environ w !! "FROM_VERSION") +:+ "-rpms")] [];
    Run tgt stop_for_loop false;
    Run tgt "yum clean all" true;
    Call tgt update_packages [] [("quiet", VBool false)] ] ++
  (if py_eq (environ w !! "FROM_VERSION") "6.0"
   then [ Run tgt "yum install -y capsule-installer" true;
          Run tgt ("cp /etc/katello-installer/answers.capsule-installer.yaml.rpmsave " +:+
                   "/etc/capsule-installer/answers.capsule-installer.yaml") true ]
   else []).

(** A workflow that cannot get through: the capsule workflow started with
    no satellite host in the shared dict, whose first certificate step is
    then given [None] for a host. *)
Definition stranded (role : Role) (s : State) : bool :=
  match role with
  | Hub => false
  | Subordinate => is_none (mjoin (fenv s !! "satellite_host"))
  end.

(** What a workflow started in state [s] issues when no operation stops
    it, and how it then ends. *)
Definition script (role : Role) (w : World) (pw : option string)
    (tgt : Target) (s : State) : list Op :=
  if stranded role s then capsule_opening w tgt else plan role w pw tgt s.

Definition ending (role : Role) (s : State) : Result unit :=
  if stranded role s then Fail (AttributeError none_has_no_strip) else Ok tt.

(** ** Kinds of operations *)

(** A run of one of the three installer binaries. *)
Definition is_installer_run (op : Op) : bool :=
  match op with
  | Run _ cmd _ =>
      String.prefix "katello-installer" cmd ||
      String.prefix "capsule-installer" cmd ||
      String.prefix "satellite-installer" cmd
  | _ => false
  end.

(** The installer command lines, by role. *)
Definition legacy_installer (role : Role) (cap_host : option string) : string :=
  match role with
  | Hub => "katello-installer --upgrade"
  | Subordinate =>
      "capsule-installer --upgrade --certs-tar /home/" +:+ fmt cap_host +:+
      "-certs.tar"
  end.

Definition unified_installer (role : Role) (cap_host : option string) : string :=
  match role with
  | Hub => "satellite-installer --scenario satellite --upgrade"
  | Subordinate =>
      "satellite-installer --scenario capsule --upgrade --certs-tar /home/" +:+
      fmt cap_host +:+ "-certs.tar"
  end.

(** The two certificate steps of the capsule workflow. *)
Definition issue_certs (sat_host cap_host : option string) : Op :=
  Call (OnHost sat_host) generate_capsule_certs [py cap_host; VBool true] [].

Definition copy_certs (sat_host cap_host : option string) : Op :=
  Run (OnHost sat_host)
    ("scp -o 'StrictHostKeyChecking no' " +:+ fmt cap_host +:+
     "-certs.tar " +:+ "root@" +:+ fmt cap_host +:+ ":/home/") false.

(** An operation that generates or copies certificates. *)
Definition is_cert_op (op : Op) : bool :=
  match op with
  | Call _ generate_capsule_certs _ _ => true
  | Run _ cmd _ => String.prefix "scp " cmd
  | _ => false
  end.

(** An operation that configures repositories. *)
Definition is_repo_op (op : Op) : bool :=
  match op with
  | Call _ enable_repos _ _ | Call _ disable_repos _ _ => true
  | Put _ _ _ => true
  | _ => false
  end.

Definition disable_all (tgt : Target) : Op :=
  Call tgt disable_repos [VStr "*"] [("silent", VBool true)].

Definition enable_base (tgt : Target) (major_ver : string) : Op :=
  Call tgt enable_repos [VStr ("rhel-" +:+ major_ver +:+ "-server-rpms")] [].

Definition enable_rhscl (tgt : Target) (major_ver : string) : Op :=
  Call tgt enable_repos
    [VStr ("rhel-server-rhscl-" +:+ major_ver +:+ "-rpms")] [].

(** The name of the vendor-hosted repository of a component. *)
Definition vendor_repo (component major_ver : string)
    (version : option string) : string :=
  "rhel-" +:+ major_ver +:+ "-server-" +:+ component +:+ "-" +:+
  fmt version +:+ "-rpms".

(** The repository operations of a run start from a clean slate. *)
Definition clean_slate_first (tgt : Target) (major_ver : string)
    (l : list Op) : Prop :=
  ∃ rest,
    List.filter is_repo_op l =
    disable_all tgt :: enable_base tgt major_ver ::
    enable_rhscl tgt major_ver :: rest.

(** The repository operations of each workflow. *)
Definition hub_repo_ops (w : World) (tgt : Target) : list Op :=
  [ disable_all tgt;
    enable_base tgt (distro_major w tgt);
    enable_rhscl tgt (distro_major w tgt);
    match environ w !! "BASE_URL" with
    | None =>
        Call tgt enable_repos
          [VStr (vendor_repo "satellite" (distro_major w tgt)
                   (environ w !! "TO_VERSION"))] []
    | Some url => Put tgt (sat6_repo url) "/etc/yum.repos.d/sat6.repo"
    end ].

Definition capsule_repo_ops (w : World) (tgt : Target) : list Op :=
  (if is_none (environ w !! "CAPSULE_URL")
   then [Call tgt enable_repos
           [VStr (vendor_repo "satellite-capsule" (distro_major w tgt)
                    (environ w !! "TO_VERSION"))] []]
   else []) ++
  [ Call tgt disable_repos
      [VStr (vendor_repo "satellite-capsule" (distro_major w tgt)
               (environ w !! "FROM_VERSION"))] [] ].

(** The two commands of the legacy installer migration. *)
Definition install_legacy (tgt : Target) : Op :=
  Run tgt "yum install -y capsule-installer" true.

Definition copy_answers (tgt : Target) : Op :=
  Run tgt ("cp /etc/katello-installer/answers.capsule-installer.yaml.rpmsave " +:+
           "/etc/capsule-installer/answers.capsule-installer.yaml") true.

(** An operation deleting or creating the instance of a role. *)
Definition provisions (role : string) (op : Op) : bool :=
  match op with
  | Call _ delete_rhevm_instance (VStr name :: _) _
  | Call _ create_rhevm_instance (VStr name :: _) _ =>
      String.prefix ("upgrade_" +:+ role +:+ "_auto_") name
  | _ => false
  end.

(** The messages asking for a host. *)
Definition no_satellite_message : string :=
  "Please provide either Satellite RHEVM template name or " +:+
  "Satellite HostName to perform upgrade!".

Definition no_capsule_message : string :=
  "Please provide either Capsule RHEVM template name or " +:+
  "Capsule HostName to perform upgrade!".

(** What the satellite workflow prints for a wrong target version. *)
Definition wrong_target_message : string :=
  "Wrong Satellite Version Provided to upgrade to. Provide one of 6.1, 6.2".

(** The same world with another source version. *)
Definition with_source (v : string) (w : World) : World := {|
  environ := <["FROM_VERSION" := v]> (environ w);
  fails := fails w;
  distro_major := distro_major w;
  ctime := ctime w
|}.

(** ** Concrete worlds *)

(** Whether an operation runs the command [c]. *)
Definition cmd_is (c : string) (op : Op) : bool :=
  match op with
  | Run _ cmd _ => String.eqb cmd c
  | _ => false
  end.

(** A world in which only [yum clean all] fails. *)
Definition flaky_cache : World := {|
  environ := {[ "TO_VERSION" := "6.2" ]};
  fails := λ _ op, cmd_is "yum clean all" op;
  distro_major := λ _, "7";
  ctime := λ _, "Thu Jan  1 00:00:00 1970"
|}.

(** A satellite upgrade to 6.2 from the vendor repositories. *)
Definition to_62 : World := {|
  environ := {[ "TO_VERSION" := "6.2" ]};
  fails := λ _ _, false;
  distro_major := λ _, "7";
  ctime := λ _, "Thu Jan  1 00:00:00 1970"
|}.

(** A satellite upgrade to 6.2 from a compose repository. *)
Definition custom_base_url : World := {|
  environ := {[ "TO_VERSION" := "6.2";
                "BASE_URL" := "http://compose.example.com/sat" ]};
  fails := λ _ _, false;
  distro_major := λ _, "7";
  ctime := λ _, "Thu Jan  1 00:00:00 1970"
|}.

(** A capsule upgrade from 6.0 to 6.1. *)
Definition capsule_60_61 : World := {|
  environ := {[ "FROM_VERSION" := "6.0"; "TO_VERSION" := "6.1" ]};
  fails := λ _ _, false;
  distro_major := λ _, "7";
  ctime := λ _, "Thu Jan  1 00:00:00 1970"
|}.

(** A capsule upgrade from 6.1 to 6.2 with a custom capsule repository. *)
Definition capsule_custom_url : World := {|
  environ := {[ "FROM_VERSION" := "6.1"; "TO_VERSION" := "6.2";
                "CAPSULE_URL" := "http://compose.example.com/capsule" ]};
  fails := λ _ _, false;
  distro_major := λ _, "7";
  ctime := λ _, "Thu Jan  1 00:00:00 1970"
|}.

(** The shared dict when both hosts were named explicitly. *)
Definition named_hosts : gmap string (option string) :=
  {[ "satellite_host" := Some "sat.example.com";
     "capsule_host" := Some "cap.example.com" ]}.

(** The satellite is named, nothing is said about the capsule. *)
Definition explicit_satellite : World := {|
  environ := {[ "SATELLITE_HOSTNAME" := "sat.example.com";
                "OS" := "rhel7"; "TO_VERSION" := "6.2";
                "FROM_VERSION" := "6.1" ]};
  fails := λ _ _, false;
  distro_major := λ _, "7";
  ctime := λ _, "Thu Jan  1 00:00:00 1970"
|}.

(** No host is named and nothing is said about instances. *)
Definition nothing_specified : World := {|
  environ := {[ "FROM_VERSION" := "6.0"; "TO_VERSION" := "6.1" ]};
  fails := λ _ _, false;
  distro_major := λ _, "7";
  ctime := λ _, "Thu Jan  1 00:00:00 1970"
|}.

(** A provisioned satellite and the unsupported target version 7.0. *)
Definition provisioned_70 : World := {|
  environ := {[ "RHEV_SATELLITE" := "sat.rhev.example.com";
                "OS" := "rhel7"; "TO_VERSION" := "7.0" ]};
  fails := λ _ _, false;
  distro_major := λ _, "7";
  ctime := λ _, "Thu Jan  1 00:00:00 1970"
|}.

(** Both hosts are provisioned on RHEV. *)
Definition both_provisioned : World := {|
  environ := {[ "RHEV_SATELLITE" := "sat.rhev.example.com";
                "RHEV_CAPSULE" := "cap.rhev.example.com";
                "OS" := "rhel7";
                "FROM_VERSION" := "6.1"; "TO_VERSION" := "6.2" ]};
  fails := λ _ _, false;
  distro_major := λ _, "7";
  ctime := λ _, "Thu Jan  1 00:00:00 1970"
|}.

(** ** Replaying a plan *)

(** Issue the operations [l] in order after the history [pre], stopping
    with the first one that fails without being tolerant. *)
Fixpoint replay (w : World) (pre l : list Op) : Result unit * list Op :=
  match l with
  | [] => (Ok tt, [])
  | op :: l' =>
      if halts w pre op then (Fail (Aborted op), [op])
      else let '(r, t) := replay w (pre ++ [op]) l' in (r, op :: t)
  end.

(** Replay [l] from an empty history and, when nothing stopped it, end
    as [r]. *)
Definition replay_to (w : World) (l : list Op) (r : Result unit)
    : Result unit * list Op :=
  match replay w [] l with
  | (Ok _, t) => (r, t)
  | stopped => stopped
  end.

(** [issues m w o e a new e']: started with operations [o] and shared dict
    [e], whatever was printed before, the task [m] returns [a], having
    appended the operations [new], and leaves the dict [e']. *)
Definition issues {A} (m : M A) (w : World) (o : list Op)
    (e : gmap string (option string)) (a : A) (new : list Op)
    (e' : gmap string (option string)) : Prop :=
  ∀ l, ∃ lines, yields m w o l e a new lines e'.

(** [strands m w o e err new e']: started with operations [o] and shared
    dict [e], whatever was printed before, the task [m] stops with [err],
    having appended the operations [new], and leaves the dict [e']. *)
Definition strands {A} (m : M A) (w : World) (o : list Op)
    (e : gmap string (option string)) (err : Failure) (new : list Op)
    (e' : gmap string (option string)) : Prop :=
  ∀ l, ∃ lines, stops m w o l e err new lines e'.

(** ** The plan of a product upgrade *)

(** The address of each host: the configured hostname, else the RHEV one. *)
Definition satellite_address (w : World) : option string :=
  if truthy (environ w !! "SATELLITE_HOSTNAME")
  then environ w !! "SATELLITE_HOSTNAME" else environ w !! "RHEV_SATELLITE".

Definition capsule_address (w : World) : option string :=
  if truthy (environ w !! "CAPSULE_HOSTNAME")
  then environ w !! "CAPSULE_HOSTNAME" else environ w !! "RHEV_CAPSULE".

(** What [product_upgrade] stores in the shared dict for a host, starting
    from an empty dict: the configured hostname, and nothing for a
    provisioned host. *)
Definition recorded (w : World) (hostname : string) : option string :=
  if truthy (environ w !! hostname) then environ w !! hostname else None.

(** The operations that resolve each host. *)
Definition satellite_resolution (w : World) (sat_image : option string)
    : list Op :=
  if truthy (environ w !! "SATELLITE_HOSTNAME") then []
  else
    let sat_instance :=
      "upgrade_satellite_auto_" +:+ fmt (environ w !! "OS") in
    [ Call Ambient delete_rhevm_instance [VStr sat_instance] [];
      Call Ambient create_rhevm_instance [VStr sat_instance; py sat_image] [];
      Call Ambient host_pings [py (environ w !! "RHEV_SATELLITE")] [];
      Call (OnHost (environ w !! "RHEV_SATELLITE")) subscribe [] [] ].

Definition capsule_resolution (w : World) (cap_image : option string)
    : list Op :=
  (if truthy (environ w !! "CAPSULE_HOSTNAME") then []
   else
     let cap_instance :=
       "upgrade_capsule_auto_" +:+ fmt (environ w !! "OS") in
     [ Call Ambient delete_rhevm_instance [VStr cap_instance] [];
       Call Ambient create_rhevm_instance [VStr cap_instance; py cap_image]
         [] ]) ++
  [ Call Ambient copy_ssh_key
      [py (satellite_address w); py (capsule_address w)] [] ] ++
  (if is_none (environ w !! "CAPSULE_URL") then []
   else [Call (OnHost (satellite_address w))
           sync_capsule_tools_repos_to_upgrade [] []]).

(** The operations of a whole product upgrade, in order, when every host
    has an address and none of them stops it. *)
Definition product_plan (w : World) (product : string)
    (sat_image cap_image : option string) : list Op :=
  satellite_resolution w sat_image ++
  [ Run (OnHost (satellite_address w)) "katello-service restart" false ] ++
  (if String.eqb product "capsule"
   then capsule_resolution w cap_image else []) ++
  hub_plan w None (OnHost (satellite_address w)) ++
  [ Call (OnHost (satellite_address w)) foreman_debug [VStr "satellite"] [] ] ++
  (if String.eqb product "capsule"
   then capsule_plan w (OnHost (capsule_address w))
          (recorded w "SATELLITE_HOSTNAME") (recorded w "CAPSULE_HOSTNAME") ++
        [ Call (OnHost (capsule_address w)) foreman_debug [VStr "capsule"]
            [] ]
   else []).

(** What precedes the upgrade of the satellite. *)
Definition preparation (w : World) (product : string)
    (sat_image cap_image : option string) : list Op :=
  satellite_resolution w sat_image ++
  [ Run (OnHost (satellite_address w)) "katello-service restart" false ] ++
  (if String.eqb product "capsule"
   then capsule_resolution w cap_image else []).

(** The satellite passes the checks of [product_upgrade] and has an
    address: it is named, or it is provisioned with an OS version and a
    RHEV hostname. *)
Definition hub_resolved (w : World) (sat_image : option string) : bool :=
  truthy (environ w !! "SATELLITE_HOSTNAME") ||
  ((truthy sat_image || truthy (environ w !! "RHEV_SATELLITE")) &&
   truthy (environ w !! "OS") &&
   negb (is_none (environ w !! "RHEV_SATELLITE"))).

(** Both hosts are resolved: the product is known, the satellite is
    resolved and, for the capsule product, the capsule is named or is
    provisioned after a provisioned satellite. *)
Definition resolved (w : World) (product : string)
    (sat_image cap_image : option string) : bool :=
  existsb (String.eqb product) ["satellite"; "capsule"] &&
  hub_resolved w sat_image &&
  (negb (String.eqb product "capsule") ||
   truthy (environ w !! "CAPSULE_HOSTNAME") ||
   ((truthy cap_image || truthy (environ w !! "RHEV_CAPSULE")) &&
    negb (truthy (environ w !! "SATELLITE_HOSTNAME")))).

(** The requests that pass every check of [product_upgrade] and of the
    workflows: a known product, each host named or provisionable (which
    for the capsule needs the satellite provisioned too, as the OS version
    is read only then), and accepted versions. *)
Definition configured (w : World) (product : string)
    (sat_image cap_image : option string) : bool :=
  existsb (String.eqb product) ["satellite"; "capsule"] &&
  (truthy (environ w !! "SATELLITE_HOSTNAME") ||
   (negb (negb (truthy sat_image) &&
          negb (truthy (environ w !! "RHEV_SATELLITE"))) &&
    truthy (environ w !! "OS"))) &&
  accepted Hub w &&
  (negb (String.eqb product "capsule") ||
   ((truthy (environ w !! "CAPSULE_HOSTNAME") ||
     (negb (negb (truthy cap_image) &&
            negb (truthy (environ w !! "RHEV_CAPSULE"))) &&
      negb (truthy (environ w !! "SATELLITE_HOSTNAME")))) &&
    accepted Subordinate w)).

(** The requests [product_upgrade] can complete: those that pass every
    check, with an address for the satellite and, for the capsule product,
    with both hosts named. *)
Definition feasible (w : World) (product : string)
    (sat_image cap_image : option string) : bool :=
  configured w product sat_image cap_image &&
  (truthy (environ w !! "SATELLITE_HOSTNAME") ||
   negb (is_none (environ w !! "RHEV_SATELLITE"))) &&
  (negb (String.eqb product "capsule") ||
   truthy (environ w !! "SATELLITE_HOSTNAME")).

(** What a request that passes every check issues when no operation stops
    it.  A satellite provisioned without a RHEV hostname gets as far as
    the reachability wait; a capsule upgrade after a provisioned satellite
    gets as far as the certificate steps of the capsule, or not even to
    the capsule workflow if the capsule has no address. *)
Definition product_script (w : World) (product : string)
    (sat_image cap_image : option string) : list Op :=
  if truthy (environ w !! "SATELLITE_HOSTNAME")
  then product_plan w product sat_image cap_image
  else if is_none (environ w !! "RHEV_SATELLITE")
  then take 3 (satellite_resolution w sat_image)
  else if String.eqb product "capsule"
  then preparation w product sat_image cap_image ++
       hub_plan w None (OnHost (satellite_address w)) ++
       [ Call (OnHost (satellite_address w)) foreman_debug
           [VStr "satellite"] [] ] ++
       (if is_none (capsule_address w) then []
        else capsule_opening w (OnHost (capsule_address w)))
  else product_plan w product sat_image cap_image.

(** How such a run ends: well, or with [execute] given [None] for a
    host. *)
Definition product_ending (w : World) (product : string)
    (sat_image cap_image : option string) : Result unit :=
  if feasible w product sat_image cap_image
  then Ok tt else Fail (AttributeError none_has_no_strip).

(** ** Further kinds of operations *)

(** A [hammer] command. *)
Definition is_api_ping (op : Op) : bool :=
  match op with
  | Run _ cmd _ => String.prefix "hammer " cmd
  | _ => false
  end.

(** A reboot of the host. *)
Definition is_reboot (op : Op) : bool :=
  match op with
  | Call _ reboot _ _ => true
  | _ => false
  end.

(** Stopping the services, and waiting for mongod. *)
Definition is_service_step (op : Op) : bool :=
  cmd_is "katello-service stop" op || cmd_is "service-wait mongod start" op.

(** The host an operation is issued on. *)
Definition target (op : Op) : Target :=
  match op with
  | Run tgt _ _ | Put tgt _ _ | Call tgt _ _ _ => tgt
  end.

(** An operation that concerns the capsule. *)
Definition concerns_capsule (op : Op) : bool :=
  provisions "capsule" op ||
  match op with
  | Call _ copy_ssh_key _ _
  | Call _ sync_capsule_tools_repos_to_upgrade _ _
  | Call _ generate_capsule_certs _ _ => true
  | Call _ foreman_debug (VStr what :: _) _ => String.eqb what "capsule"
  | _ => false
  end.

(** The collection of a debug report. *)
Definition is_debug_report (op : Op) : bool :=
  match op with
  | Call _ foreman_debug _ _ => true
  | _ => false
  end.

(** ** Lines printed and ways to stop *)

(** What the capsule workflow prints for a wrong target version. *)
Definition capsule_target_complaint : string :=
  "Wrong Capsule Version Provided to upgrade to. Provide one of 6.1, 6.2".

(** The line has not been printed. *)
Definition silent_on (line : string) (s : State) : Prop := line ∉ out s.

(** [ends w K m Q F]: started with a shared dict satisfying [K], the task
    [m] either returns a value and leaves a dict that satisfy [Q], or
    stops with a failure satisfying [F]. *)
Definition ends {A} (w : World) (K : gmap string (option string) → Prop)
    (m : M A) (Q : A → gmap string (option string) → Prop)
    (F : Failure → Prop) : Prop :=
  ∀ s, K (fenv s) →
    match m w s with
    | (Ok a, s') => Q a (fenv s')
    | (Fail e, _) => F e
    end.

(** The ways [product_upgrade] may stop: exit status 1; an operation that
    is not tolerant; the unassigned [version] of a capsule upgrade with a
    named satellite and no named capsule; [None] given for a host, which
    takes a provisioned satellite that either has no RHEV hostname or is
    followed by a capsule upgrade. *)
Definition expected_stop (w : World) (product : string) (e : Failure) : bool :=
  match e with
  | SysExit code => (code =? 1)%Z
  | Aborted op => negb (tolerant op)
  | UnboundLocal name =>
      String.eqb name "version" && String.eqb product "capsule" &&
      truthy (environ w !! "SATELLITE_HOSTNAME") &&
      negb (truthy (environ w !! "CAPSULE_HOSTNAME"))
  | AttributeError msg =>
      String.eqb msg none_has_no_strip &&
      negb (truthy (environ w !! "SATELLITE_HOSTNAME")) &&
      (is_none (environ w !! "RHEV_SATELLITE") || String.eqb product "capsule")
  end.

(** The ways a workflow started in state [s] may stop: exit status 1 when
    its versions are not accepted; otherwise an operation that is not
    tolerant, or [None] given for the satellite host. *)
Definition workflow_stop (role : Role) (w : World) (s : State)
    (e : Failure) : bool :=
  match e with
  | SysExit code => (code =? 1)%Z && negb (accepted role w)
  | Aborted op => negb (tolerant op) && accepted role w
  | UnboundLocal _ => false
  | AttributeError msg =>
      String.eqb msg none_has_no_strip && stranded role s && accepted role w
  end.

(** ** Further concrete worlds *)

(** An image is given for the satellite, but no OS version. *)
Definition image_without_os : World := {|
  environ := {[ "TO_VERSION" := "6.2" ]};
  fails := λ _ _, false;
  distro_major := λ _, "7";
  ctime := λ _, "Thu Jan  1 00:00:00 1970"
|}.

(** The admin password is set to the empty string. *)
Definition empty_password : World := {|
  environ := {[ "TO_VERSION" := "6.2"; "ADMIN_PASSWORD" := "" ]};
  fails := λ _ _, false;
  distro_major := λ _, "7";
  ctime := λ _, "Thu Jan  1 00:00:00 1970"
|}.

(** A capsule on RHEV, upgraded from 6.1 to 6.2. *)
Definition rhev_capsule : World := {|
  environ := {[ "FROM_VERSION" := "6.1"; "TO_VERSION" := "6.2";
                "RHEV_CAPSULE" := "cap.rhev.example.com" ]};
  fails := λ _ _, false;
  distro_major := λ _, "7";
  ctime := λ _, "Thu Jan  1 00:00:00 1970"
|}.

(** An upgrade of the satellite to 6.1. *)
Definition to_61 : World := {|
  environ := {[ "TO_VERSION" := "6.1" ]};
  fails := λ _ _, false;
  distro_major := λ _, "7";
  ctime := λ _, "Thu Jan  1 00:00:00 1970"
|}.

(** A capsule whose source and target versions are both 6.1. *)
Definition capsule_61_61 : World := {|
  environ := {[ "FROM_VERSION" := "6.1"; "TO_VERSION" := "6.1" ]};
  fails := λ _ _, false;
  distro_major := λ _, "7";
  ctime := λ _, "Thu Jan  1 00:00:00 1970"
|}.

(** Both hosts are named. *)
Definition both_named : World := {|
  environ := {[ "SATELLITE_HOSTNAME" := "sat.example.com";
                "CAPSULE_HOSTNAME" := "cap.example.com";
                "FROM_VERSION" := "6.1"; "TO_VERSION" := "6.2" ]};
  fails := λ _ _, false;
  distro_major := λ _, "7";
  ctime := λ _, "Thu Jan  1 00:00:00 1970"
|}.

(** Neither host is named and no RHEV hostname is set. *)
Definition image_only : World := {|
  environ := {[ "OS" := "rhel7"; "TO_VERSION" := "6.2" ]};
  fails := λ _ _, false;
  distro_major := λ _, "7";
  ctime := λ _, "Thu Jan  1 00:00:00 1970"
|}.

(** * Reasoning about runs *)

Section Lawful.

Lemma unhalted_nil w pre : unhalted w pre [].
Proof. intros k op H. by rewrite lookup_nil in H. Qed.

Lemma unhalted_one w pre op :
  halts w pre op = false → unhalted w pre [op].
Proof.
  intros H [|k] op' Hk; simpl in Hk.
  - injection Hk as <-. by rewrite app_nil_r.
  - by rewrite lookup_nil in Hk.
Qed.

Lemma unhalted_app w pre a b :
  unhalted w pre a → unhalted w (pre ++ a) b → unhalted w pre (a ++ b).
Proof.
  intros Ha Hb k op Hk.
  destruct (decide (k < length a)) as [Hlt|Hge].
  - rewrite lookup_app_l in Hk by done.
    rewrite take_app_le by lia. by apply Ha.
  - rewrite lookup_app_r in Hk by lia.
    rewrite take_app_ge by lia. rewrite app_assoc. by apply Hb.
Qed.

Lemma lawful_grows {A} (m : M A) :
  lawful m → ∀ w s, ∃ new, ops (m w s).2 = ops s ++ new.
Proof.
  intros Hm w s. specialize (Hm w s).
  destruct (m w s) as [[a|[c|op|x|msg]] s']; simpl.
  - destruct Hm as (_ & new & -> & _). eauto.
  - destruct Hm as (_ & new & -> & _). eauto.
  - destruct Hm as (done & rest & -> & _). eauto.
  - destruct Hm as (_ & new & -> & _). eauto.
  - destruct Hm as (_ & new & -> & _). eauto.
Qed.

Lemma lawful_ret {A} (a : A) : lawful (mret a).
Proof.
  intros w s. simpl. split; [done|].
  exists []. split; [by rewrite app_nil_r | apply unhalted_nil].
Qed.

Lemma lawful_pure {A} (m : M A) :
  (∀ w s, ∃ r, m w s = (r, s) ∧ m (quiet w) s = (r, s) ∧
               ∀ op, r ≠ Fail (Aborted op)) →
  lawful m.
Proof.
  intros H w s. destruct (H w s) as (r & -> & Hq & Hr).
  assert (∃ new, ops s = ops s ++ new ∧ unhalted w (ops s) new) as Hnew.
  { exists []. split; [by rewrite app_nil_r | apply unhalted_nil]. }
  destruct r as [a|[c|op|x|msg]]; try done. by destruct (Hr op).
Qed.

Lemma lawful_getenv k : lawful (getenv k).
Proof. apply lawful_pure. intros w s. eexists. by repeat split. Qed.

Lemma lawful_env_get k : lawful (env_get k).
Proof. apply lawful_pure. intros w s. eexists. by repeat split. Qed.

Lemma lawful_time_ctime : lawful time_ctime.
Proof. apply lawful_pure. intros w s. eexists. by repeat split. Qed.

Lemma lawful_reported_major tgt : lawful (reported_major tgt).
Proof. apply lawful_pure. intros w s. eexists. by repeat split. Qed.

Lemma lawful_sys_exit {A} c : lawful (@sys_exit A c).
Proof. apply lawful_pure. intros w s. eexists. by repeat split. Qed.

Lemma lawful_unbound {A} x : lawful (@unbound A x).
Proof. apply lawful_pure. intros w s. eexists. by repeat split. Qed.

Lemma lawful_raise_attribute_error {A} msg :
  lawful (@raise_attribute_error A msg).
Proof. apply lawful_pure. intros w s. eexists. by repeat split. Qed.

Lemma lawful_env_set k v : lawful (env_set k v).
Proof.
  intros w s. simpl. split; [done|].
  exists []. split; [by rewrite app_nil_r | apply unhalted_nil].
Qed.

Lemma lawful_print line : lawful (print line).
Proof.
  intros w s. simpl. split; [done|].
  exists []. split; [by rewrite app_nil_r | apply unhalted_nil].
Qed.

Lemma lawful_exec op : lawful (exec op).
Proof.
  intros w s. unfold exec, halts. simpl.
  destruct (fails w (ops s) op) eqn:Hf; [destruct (tolerant op) eqn:Ht|]; simpl.
  - split; [done|]. exists [op]. split; [done|].
    apply unhalted_one. unfold halts. by rewrite Hf, Ht.
  - exists [], []. rewrite app_nil_r. split; [done|]. split; [done|].
    split; [apply unhalted_nil|]. unfold halts. by rewrite Hf, Ht.
  - split; [done|]. exists [op]. split; [done|].
    apply unhalted_one. unfold halts. by rewrite Hf.
Qed.

Lemma lawful_bind {A B} (m : M A) (f : A → M B) :
  lawful m → (∀ a, lawful (f a)) → lawful (m ≫= f).
Proof.
  intros Hm Hf w s. unfold mbind, M_bind.
  pose proof (Hm w s) as H1.
  destruct (m w s) as [[a|[c|op|x|msg]] s1].
  - destruct H1 as (-> & new1 & E1 & U1).
    pose proof (Hf a w s1) as H2.
    destruct (f a w s1) as [[b|[c|op|x|msg]] s2].
    + destruct H2 as (-> & new2 & E2 & U2). split; [done|].
      exists (new1 ++ new2). rewrite E2, E1, app_assoc. split; [done|].
      apply unhalted_app; [done | by rewrite <- E1].
    + destruct H2 as (-> & new2 & E2 & U2). split; [done|].
      exists (new1 ++ new2). rewrite E2, E1, app_assoc. split; [done|].
      apply unhalted_app; [done | by rewrite <- E1].
    + destruct H2 as (done & rest & E2 & Q2 & U2 & H2).
      exists (new1 ++ done), rest.
      rewrite E2, Q2, E1, <- !app_assoc. split; [done|]. split; [done|].
      split; [apply unhalted_app; [done | by rewrite <- E1]|].
      by rewrite app_assoc, <- E1.
    + destruct H2 as (-> & new2 & E2 & U2). split; [done|].
      exists (new1 ++ new2). rewrite E2, E1, app_assoc. split; [done|].
      apply unhalted_app; [done | by rewrite <- E1].
    + destruct H2 as (-> & new2 & E2 & U2). split; [done|].
      exists (new1 ++ new2). rewrite E2, E1, app_assoc. split; [done|].
      apply unhalted_app; [done | by rewrite <- E1].
  - by destruct H1 as (-> & H1).
  - destruct H1 as (done & rest & E1 & Q1 & U1 & H1).
    destruct (m (quiet w) s) as [[a|e] s0]; simpl in *.
    + destruct (lawful_grows _ (Hf a) (quiet w) s0) as (more & ->).
      exists done, (rest ++ more).
      rewrite Q1, <- !app_assoc. by split_and!.
    + exists done, rest. by split_and!.
  - by destruct H1 as (-> & H1).
  - by destruct H1 as (-> & H1).
Qed.

Lemma lawful_when c body : lawful body → lawful (when c body).
Proof. intros H. destruct c; [done | apply lawful_ret]. Qed.

Lemma lawful_read_local {A} x (v : Local A) : lawful (read_local x v).
Proof. destruct v; [apply lawful_unbound | apply lawful_ret]. Qed.

End Lawful.

Ltac lawful_step :=
  lazymatch goal with
  | |- lawful (_ ≫= _) => apply lawful_bind; [|intros ?]
  | |- lawful (mret _) => apply lawful_ret
  | |- lawful (when _ _) => apply lawful_when
  | |- lawful (getenv _) => apply lawful_getenv
  | |- lawful (env_get _) => apply lawful_env_get
  | |- lawful (env_set _ _) => apply lawful_env_set
  | |- lawful (print _) => apply lawful_print
  | |- lawful time_ctime => apply lawful_time_ctime
  | |- lawful (sys_exit _) => apply lawful_sys_exit
  | |- lawful (raise_attribute_error _) => apply lawful_raise_attribute_error
  | |- lawful (read_local _ _) => apply lawful_read_local
  | |- lawful (reported_major _) => apply lawful_reported_major
  | |- lawful (exec _) => apply lawful_exec
  | |- lawful (run _ _ _) => apply lawful_exec
  | |- lawful (put _ _ _) => apply lawful_exec
  | |- lawful (call _ _ _ _) => apply lawful_exec
  | |- lawful (distro_info_major _) => unfold distro_info_major
  | |- lawful (execute _ _) => unfold execute
  | |- lawful (execute_ambient _) => unfold execute_ambient
  | |- lawful (if ?c then _ else _) => destruct c
  | |- lawful (match ?x with _ => _ end) => destruct x
  | |- lawful (let _ := _ in _) => cbv zeta
  end.

Ltac lawful_tac := repeat lawful_step.

Lemma satellite6_upgrade_lawful pw tgt : lawful (satellite6_upgrade pw tgt).
Proof. unfold satellite6_upgrade. lawful_tac. Qed.

Lemma satellite6_capsule_upgrade_lawful pw tgt :
  lawful (satellite6_capsule_upgrade pw tgt).
Proof. unfold satellite6_capsule_upgrade. lawful_tac. Qed.

Lemma product_upgrade_lawful product sat_image cap_image :
  lawful (product_upgrade product sat_image cap_image).
Proof.
  unfold product_upgrade. lawful_tac;
    first [apply satellite6_upgrade_lawful
          | apply satellite6_capsule_upgrade_lawful].
Qed.

(** * Runs in which nothing stops the task *)

Section Yields.
Context (w : World) (o : list Op) (l : list string)
        (e : gmap string (option string)).

Lemma yields_bind {A B} (m : M A) (f : A → M B) a n1 l1 e1 b n2 l2 e2 :
  yields m w o l e a n1 l1 e1 →
  yields (f a) w (o ++ n1) (l ++ l1) e1 b n2 l2 e2 →
  yields (m ≫= f) w o l e b (n1 ++ n2) (l1 ++ l2) e2.
Proof.
  unfold yields, mbind, M_bind. intros -> ->. by rewrite !app_assoc.
Qed.

Lemma yields_ret {A} (a : A) : yields (mret a) w o l e a [] [] e.
Proof. unfold yields. by rewrite !app_nil_r. Qed.

Lemma yields_getenv k v :
  environ w !! k = v → yields (getenv k) w o l e v [] [] e.
Proof. intros <-. unfold yields, getenv. by rewrite !app_nil_r. Qed.

Lemma yields_env_get k :
  yields (env_get k) w o l e (mjoin (e !! k)) [] [] e.
Proof. unfold yields, env_get. by rewrite !app_nil_r. Qed.

Lemma yields_env_set k v :
  yields (env_set k v) w o l e tt [] [] (<[k := v]> e).
Proof. unfold yields, env_set. simpl. by rewrite !app_nil_r. Qed.

Lemma yields_print line : yields (print line) w o l e tt [] [line] e.
Proof. unfold yields, print. simpl. by rewrite !app_nil_r. Qed.

Lemma yields_time_ctime :
  yields time_ctime w o l e (ctime w (length o)) [] [] e.
Proof. unfold yields, time_ctime. simpl. by rewrite !app_nil_r. Qed.

Lemma yields_reported_major tgt :
  yields (reported_major tgt) w o l e (distro_major w tgt) [] [] e.
Proof. unfold yields, reported_major. by rewrite !app_nil_r. Qed.

Lemma yields_exec op :
  fails w o op = false → yields (exec op) w o l e tt [op] [] e.
Proof. intros H. unfold yields, exec. simpl. by rewrite H, !app_nil_r. Qed.

Lemma yields_when_true c body new lines e' :
  c = true → yields body w o l e tt new lines e' →
  yields (when c body) w o l e tt new lines e'.
Proof. by intros ->. Qed.

Lemma yields_when_false c body :
  c = false → yields (when c body) w o l e tt [] [] e.
Proof. intros ->. apply yields_ret. Qed.

Lemma yields_read_local {A} x (a : A) :
  yields (read_local x (Assigned a)) w o l e a [] [] e.
Proof. apply yields_ret. Qed.

End Yields.

(** [execute] with and without a host. *)
Lemma execute_on {A} (task : Target → M A) host :
  is_Some host → execute task host = task (OnHost host).
Proof. by intros [h ->]. Qed.

Lemma truthy_is_Some o : truthy o = true → is_Some o.
Proof. destruct o; [by eexists | done]. Qed.

Lemma not_none_is_Some (o : option string) : is_none o = false → is_Some o.
Proof. destruct o; [by eexists | done]. Qed.

Lemma is_none_None (o : option string) : is_none o = true → o = None.
Proof. by destruct o. Qed.

Lemma truthy_not_none o : truthy o = true → is_none o = false.
Proof. by destruct o. Qed.

(** The host given to [execute] is known not to be [None]. *)
Ltac host_known :=
  solve [ eassumption
        | apply truthy_is_Some; eassumption
        | apply not_none_is_Some; eassumption
        | eexists; eassumption
        | eexists; reflexivity ].

Ltac yields_cond :=
  first [ eassumption
        | match goal with H : _ = _ |- _ => rewrite H; reflexivity end
        | vm_compute; reflexivity ].

(** Settle the condition [c] of a conditional: by a hypothesis about it
    or about a part of it, or by computation when it is closed. *)
Ltac decide_cond c :=
  first
    [ match goal with
      | H : c = _ |- _ => rewrite H
      | H : ?x = _ |- _ =>
          match c with context [x] => rewrite H end
      end
    | let b := eval vm_compute in c in
      match b with
      | true => change c with true
      | false => change c with false
      end ].

Ltac yields_step :=
  cbv beta iota;
  lazymatch goal with
  | |- yields (_ ≫= _) _ _ _ _ _ _ _ _ => eapply yields_bind
  | |- yields (mret _) _ _ _ _ _ _ _ _ => apply yields_ret
  | |- yields (getenv _) _ _ _ _ _ _ _ _ =>
      apply yields_getenv; first [eassumption | reflexivity]
  | |- yields (env_get _) _ _ _ _ _ _ _ _ => apply yields_env_get
  | |- yields (env_set _ _) _ _ _ _ _ _ _ _ => apply yields_env_set
  | |- yields (print _) _ _ _ _ _ _ _ _ => apply yields_print
  | |- yields time_ctime _ _ _ _ _ _ _ _ => apply yields_time_ctime
  | |- yields (reported_major _) _ _ _ _ _ _ _ _ => apply yields_reported_major
  | |- yields (read_local _ (Assigned _)) _ _ _ _ _ _ _ _ =>
      apply yields_read_local
  | |- yields (exec _) _ _ _ _ _ _ _ _ =>
      apply yields_exec; first [solve [auto] | rewrite ?app_nil_r; eassumption]
  | |- yields (run _ _ _) _ _ _ _ _ _ _ _ => unfold run
  | |- yields (put _ _ _) _ _ _ _ _ _ _ _ => unfold put
  | |- yields (call _ _ _ _) _ _ _ _ _ _ _ _ => unfold call
  | |- yields (distro_info_major _) _ _ _ _ _ _ _ _ => unfold distro_info_major
  | |- yields (execute ?t ?h) _ _ _ _ _ _ _ _ =>
      rewrite (execute_on t h) by host_known
  | |- yields (execute_ambient _) _ _ _ _ _ _ _ _ => unfold execute_ambient
  | |- yields (when ?c _) _ _ _ _ _ _ _ _ =>
      first [ apply yields_when_false; yields_cond
            | eapply yields_when_true; [yields_cond|] ]
  | |- yields (if ?c then _ else _) _ _ _ _ _ _ _ _ => decide_cond c
  end.

Lemma accepted_target v :
  py_in v ["6.1"; "6.2"] = true → v = Some "6.1" ∨ v = Some "6.2".
Proof.
  destruct v as [v|]; [simpl|done].
  destruct (String.eqb_spec v "6.1") as [->|]; [by left|].
  destruct (String.eqb_spec v "6.2") as [->|]; [by right|done].
Qed.

Lemma satellite6_upgrade_unhindered w pw tgt s :
  unhindered w →
  py_in (environ w !! "TO_VERSION") ["6.1"; "6.2"] = true →
  ∃ lines,
    satellite6_upgrade pw tgt w s =
    (Ok tt, {| ops := ops s ++ hub_plan w pw tgt;
               out := out s ++ lines;
               fenv := fenv s |}).
Proof.
  intros Hw Hv. destruct s as [o l e]. cbn [ops out fenv].
  cut (∃ new lines,
         yields (satellite6_upgrade pw tgt) w o l e tt new lines e ∧
         new = hub_plan w pw tgt).
  { intros (new & lines & H & ->). by exists lines. }
  unfold hub_plan, hub_phases, password_of.
  apply accepted_target in Hv.
  destruct (environ w !! "BASE_URL") as [url|] eqn:Eu;
  destruct (truthy (environ w !! "RHEV_SATELLITE")) eqn:Er;
  destruct pw as [p|];
  destruct Hv as [Ev | Ev]; rewrite Ev;
  (eexists _, _; split;
   [unfold satellite6_upgrade; repeat yields_step
   | cbn [app]; reflexivity]).
Qed.

Lemma satellite6_upgrade_rejects w pw tgt s :
  py_in (environ w !! "TO_VERSION") ["6.1"; "6.2"] = false →
  satellite6_upgrade pw tgt w s =
  (Fail (SysExit 1),
   {| ops := ops s;
      out := out s ++ ["Wrong Satellite Version Provided to upgrade to. " +:+
                       "Provide one of 6.1, 6.2"];
      fenv := fenv s |}).
Proof.
  intros Hv. unfold satellite6_upgrade, mbind, M_bind, getenv.
  by rewrite Hv.
Qed.

Lemma accepted_source v :
  py_in v ["6.1"; "6.0"] = true → v = Some "6.1" ∨ v = Some "6.0".
Proof.
  destruct v as [v|]; [simpl|done].
  destruct (String.eqb_spec v "6.1") as [->|]; [by left|].
  destruct (String.eqb_spec v "6.0") as [->|]; [by right|done].
Qed.

Lemma satellite6_capsule_upgrade_unhindered w pw tgt s :
  unhindered w →
  py_in (environ w !! "FROM_VERSION") ["6.1"; "6.0"] = true →
  py_in (environ w !! "TO_VERSION") ["6.1"; "6.2"] = true →
  is_Some (mjoin (fenv s !! "satellite_host")) →
  ∃ lines,
    satellite6_capsule_upgrade pw tgt w s =
    (Ok tt, {| ops := ops s ++
                      capsule_plan w tgt (mjoin (fenv s !! "satellite_host"))
                        (mjoin (fenv s !! "capsule_host"));
               out := out s ++ lines;
               fenv := fenv s |}).
Proof.
  intros Hw Hf Hv Hs. destruct s as [o l e]. cbn [ops out fenv] in *.
  cut (∃ new lines,
         yields (satellite6_capsule_upgrade pw tgt) w o l e tt new lines e ∧
         new = capsule_plan w tgt (mjoin (e !! "satellite_host"))
                 (mjoin (e !! "capsule_host"))).
  { intros (new & lines & H & ->). by exists lines. }
  unfold capsule_plan, capsule_phases.
  apply accepted_source in Hf. apply accepted_target in Hv.
  destruct (environ w !! "CAPSULE_URL") as [url|] eqn:Eu;
  destruct (truthy (environ w !! "RHEV_CAPSULE")) eqn:Er;
  destruct pw as [p|];
  destruct Hf as [Ef | Ef]; rewrite Ef;
  destruct Hv as [Ev | Ev]; rewrite Ev;
  (eexists _, _; split;
   [unfold satellite6_capsule_upgrade; repeat yields_step
   | cbn [app]; reflexivity]).
Qed.

Lemma satellite6_capsule_upgrade_rejects w pw tgt s :
  py_in (environ w !! "FROM_VERSION") ["6.1"; "6.0"] &&
  py_in (environ w !! "TO_VERSION") ["6.1"; "6.2"] = false →
  ∃ line,
    satellite6_capsule_upgrade pw tgt w s =
    (Fail (SysExit 1),
     {| ops := ops s; out := out s ++ [line]; fenv := fenv s |}).
Proof.
  intros Hv. unfold satellite6_capsule_upgrade, mbind, M_bind, getenv, env_get.
  destruct (py_in (environ w !! "FROM_VERSION") _); simpl in Hv.
  - rewrite Hv. simpl. eauto.
  - simpl. eauto.
Qed.

(** * Runs that stop *)

Section Stops.
Context (w : World) (o : list Op) (l : list string)
        (e : gmap string (option string)).

Lemma stops_bind_l {A B} (m : M A) (f : A → M B) err new lines e' :
  stops m w o l e err new lines e' →
  stops (m ≫= f) w o l e err new lines e'.
Proof. unfold stops, mbind, M_bind. by intros ->. Qed.

Lemma stops_bind_r {A B} (m : M A) (f : A → M B) a n1 l1 e1 err n2 l2 e2 :
  yields m w o l e a n1 l1 e1 →
  stops (f a) w (o ++ n1) (l ++ l1) e1 err n2 l2 e2 →
  stops (m ≫= f) w o l e err (n1 ++ n2) (l1 ++ l2) e2.
Proof.
  unfold yields, stops, mbind, M_bind. intros -> ->. by rewrite !app_assoc.
Qed.

Lemma stops_sys_exit {A} c : stops (@sys_exit A c) w o l e (SysExit c) [] [] e.
Proof. unfold stops, sys_exit. by rewrite !app_nil_r. Qed.

Lemma stops_execute_none {A} (task : Target → M A) host :
  host = None →
  stops (execute task host) w o l e (AttributeError none_has_no_strip)
    [] [] e.
Proof.
  intros ->. unfold stops, execute, raise_attribute_error.
  by rewrite !app_nil_r.
Qed.

Lemma stops_read_local {A} x :
  stops (read_local x (@Unassigned A)) w o l e (UnboundLocal x) [] [] e.
Proof. unfold stops, read_local, unbound. by rewrite !app_nil_r. Qed.

Lemma stops_exec op :
  fails w o op = true → tolerant op = false →
  stops (exec op) w o l e (Aborted op) [op] [] e.
Proof.
  intros Hf Ht. unfold stops, exec. simpl. by rewrite Hf, Ht, app_nil_r.
Qed.

Lemma stops_when c body err new lines e' :
  c = true → stops body w o l e err new lines e' →
  stops (when c body) w o l e err new lines e'.
Proof. by intros ->. Qed.

End Stops.

Lemma stops_satellite6_upgrade w o l e pw tgt :
  py_in (environ w !! "TO_VERSION") ["6.1"; "6.2"] = false →
  stops (satellite6_upgrade pw tgt) w o l e (SysExit 1) []
    ["Wrong Satellite Version Provided to upgrade to. " +:+
     "Provide one of 6.1, 6.2"] e.
Proof.
  intros Hv. unfold stops. rewrite satellite6_upgrade_rejects by done.
  simpl. by rewrite app_nil_r.
Qed.

Ltac stops_step :=
  cbv beta iota;
  lazymatch goal with
  | |- stops (_ ≫= _) _ _ _ _ _ _ _ _ =>
      first [ eapply stops_bind_r; [solve [repeat yields_step]|]
            | eapply stops_bind_l ]
  | |- stops (sys_exit _) _ _ _ _ _ _ _ _ => apply stops_sys_exit
  | |- stops (read_local _ Unassigned) _ _ _ _ _ _ _ _ =>
      apply stops_read_local
  | |- stops (exec _) _ _ _ _ _ _ _ _ =>
      apply stops_exec; [rewrite ?app_nil_r; eassumption | reflexivity]
  | |- stops (satellite6_upgrade _ _) _ _ _ _ _ _ _ _ =>
      apply stops_satellite6_upgrade; eassumption
  | |- stops (run _ _ _) _ _ _ _ _ _ _ _ => unfold run
  | |- stops (put _ _ _) _ _ _ _ _ _ _ _ => unfold put
  | |- stops (call _ _ _ _) _ _ _ _ _ _ _ _ => unfold call
  | |- stops (execute ?t ?h) _ _ _ _ _ _ _ _ =>
      first [ rewrite (execute_on t h) by host_known
            | apply stops_execute_none;
              first [ eassumption | reflexivity
                    | apply is_none_None; eassumption ] ]
  | |- stops (execute_ambient _) _ _ _ _ _ _ _ _ => unfold execute_ambient
  | |- stops (when ?c _) _ _ _ _ _ _ _ _ =>
      eapply stops_when; [yields_cond|]
  | |- stops (if ?c then _ else _) _ _ _ _ _ _ _ _ => decide_cond c
  end.

Lemma satellite6_capsule_upgrade_strands w pw tgt s :
  unhindered w →
  py_in (environ w !! "FROM_VERSION") ["6.1"; "6.0"] = true →
  py_in (environ w !! "TO_VERSION") ["6.1"; "6.2"] = true →
  mjoin (fenv s !! "satellite_host") = None →
  ∃ lines,
    satellite6_capsule_upgrade pw tgt w s =
    (Fail (AttributeError none_has_no_strip),
     {| ops := ops s ++ capsule_opening w tgt;
        out := out s ++ lines;
        fenv := fenv s |}).
Proof.
  intros Hw Hf Hv Hs. destruct s as [o l e]. cbn [ops out fenv] in *.
  cut (∃ new lines,
         stops (satellite6_capsule_upgrade pw tgt) w o l e
           (AttributeError none_has_no_strip) new lines e ∧
         new = capsule_opening w tgt).
  { intros (new & lines & H & ->). by exists lines. }
  unfold capsule_opening.
  apply accepted_source in Hf. apply accepted_target in Hv.
  destruct (environ w !! "CAPSULE_URL") as [url|] eqn:Eu;
  destruct pw as [p|];
  destruct Hf as [Ef | Ef]; rewrite Ef;
  destruct Hv as [Ev | Ev]; rewrite Ev;
  (eexists _, _; split;
   [unfold satellite6_capsule_upgrade; repeat stops_step
   | cbn [app]; rewrite ?app_nil_r; reflexivity]).
Qed.

(** * Any run against the run in which nothing fails *)

(** A lawful task whose unfailing run issues the operations [plan] and
    ends as [r] either does the same, or is aborted by the first operation
    of [plan] that fails without being tolerant. *)
Lemma lawful_against_plan {A} (m : M A) w s r q plan :
  lawful m →
  m (quiet w) s = (r, q) → ops q = ops s ++ plan →
  match m w s with
  | (Fail (Aborted op), s') =>
      ∃ done rest,
        ops s' = ops s ++ done ++ [op] ∧ plan = done ++ [op] ++ rest ∧
        unhalted w (ops s) done ∧ halts w (ops s ++ done) op = true
  | (r', s') => (r', s') = (r, q) ∧ unhalted w (ops s) plan
  end.
Proof.
  intros Hm Hq Hp. pose proof (Hm w s) as H.
  destruct (m w s) as [[a'|[c|op|x|msg]] s'].
  - destruct H as (H & new & E & U). rewrite Hq in H. injection H as <- <-.
    split; [done|]. rewrite Hp in E. by apply app_inv_head in E as <-.
  - destruct H as (H & new & E & U). rewrite Hq in H. injection H as <- <-.
    split; [done|]. rewrite Hp in E. by apply app_inv_head in E as <-.
  - destruct H as (done & rest & E & Q & U & H).
    exists done, rest. rewrite Hq in Q. simpl in Q. rewrite Hp in Q.
    by apply app_inv_head in Q as ->.
  - destruct H as (H & new & E & U). rewrite Hq in H. injection H as <- <-.
    split; [done|]. rewrite Hp in E. by apply app_inv_head in E as <-.
  - destruct H as (H & new & E & U). rewrite Hq in H. injection H as <- <-.
    split; [done|]. rewrite Hp in E. by apply app_inv_head in E as <-.
Qed.

(** The operations of any run form an initial segment of the plan; a run
    that is not aborted ends as the unfailing run does. *)
Lemma lawful_within_plan {A} (m : M A) w s r q plan :
  lawful m →
  m (quiet w) s = (r, q) → ops q = ops s ++ plan →
  ∃ new rest,
    ops (m w s).2 = ops s ++ new ∧ plan = new ++ rest ∧
    ((∀ op, (m w s).1 ≠ Fail (Aborted op)) → (m w s).1 = r ∧ rest = []) ∧
    (∀ op, (m w s).1 = Fail (Aborted op) → last new = Some op).
Proof.
  intros Hm Hq Hp. pose proof (lawful_against_plan m w s r q plan Hm Hq Hp) as H.
  destruct (m w s) as [[a'|[c|op|x|msg]] s']; simpl.
  1,2,4,5: destruct H as ([= <- <-] & _);
    exists plan, []; rewrite app_nil_r; by split_and!.
  destruct H as (done & rest & E & -> & _).
  exists (done ++ [op]), rest. rewrite <- !app_assoc. split_and!; try done.
  - intros Hn. by destruct (Hn op).
  - intros op' [= <-]. by rewrite last_snoc.
Qed.

(** When none of the operations of the plan stops the task, the run is the
    unfailing one. *)
Lemma lawful_unhalted {A} (m : M A) w s r q plan :
  lawful m →
  m (quiet w) s = (r, q) → ops q = ops s ++ plan →
  unhalted w (ops s) plan → m w s = (r, q).
Proof.
  intros Hm Hq Hp U. pose proof (lawful_against_plan m w s r q plan Hm Hq Hp) as H.
  destruct (m w s) as [[a'|[c|op|x|msg]] s']; try by destruct H.
  destruct H as (done & rest & E & -> & _ & Hh).
  specialize (U (length done) op). rewrite take_app_length in U.
  rewrite U in Hh; [done|]. by apply list_lookup_middle.
Qed.

Lemma quiet_unhindered w : unhindered (quiet w).
Proof. by intros o op. Qed.

(** ** The two workflows, by role *)

Lemma workflow_lawful role pw tgt : lawful (workflow role pw tgt).
Proof.
  destruct role;
    [apply satellite6_upgrade_lawful | apply satellite6_capsule_upgrade_lawful].
Qed.

Lemma stranded_is_Some s :
  stranded Subordinate s = false →
  is_Some (mjoin (fenv s !! "satellite_host")).
Proof. apply not_none_is_Some. Qed.

Lemma stranded_None s :
  stranded Subordinate s = true → mjoin (fenv s !! "satellite_host") = None.
Proof. simpl. by destruct (mjoin _). Qed.

(** What a workflow does when no operation fails. *)
Lemma workflow_unhindered role w pw tgt s :
  unhindered w → accepted role w = true →
  ∃ lines,
    workflow role pw tgt w s =
    (ending role s, {| ops := ops s ++ script role w pw tgt s;
                       out := out s ++ lines;
                       fenv := fenv s |}).
Proof.
  unfold ending, script. destruct role; cbn [workflow accepted]; intros Hw Hv.
  - by apply satellite6_upgrade_unhindered.
  - apply andb_prop in Hv as [Hf Hv].
    destruct (stranded Subordinate s) eqn:Hs.
    + by apply satellite6_capsule_upgrade_strands, stranded_None.
    + by apply satellite6_capsule_upgrade_unhindered, stranded_is_Some.
Qed.

Lemma workflow_script role w pw tgt s :
  accepted role w = true →
  ∃ q, workflow role pw tgt (quiet w) s = (ending role s, q) ∧
       ops q = ops s ++ script role w pw tgt s.
Proof.
  intros Hv.
  destruct (workflow_unhindered role (quiet w) pw tgt s
              (quiet_unhindered w) Hv) as (lines & ->).
  eexists. split; [done|]. simpl.
  unfold script. by destruct role.
Qed.

Lemma capsule_plan_opening w tgt sat_host cap_host :
  ∃ rest,
    capsule_plan w tgt sat_host cap_host =
    capsule_opening w tgt ++
    issue_certs sat_host cap_host :: copy_certs sat_host cap_host :: rest.
Proof.
  unfold capsule_plan, capsule_phases, capsule_opening.
  eexists. rewrite <- !app_assoc. reflexivity.
Qed.

Lemma script_prefix role w pw tgt s :
  script role w pw tgt s `prefix_of` plan role w pw tgt s.
Proof.
  unfold script. destruct (stranded role s) eqn:Hs; [|done].
  destruct role; [done|]. simpl.
  destruct (capsule_plan_opening w tgt (mjoin (fenv s !! "satellite_host"))
              (mjoin (fenv s !! "capsule_host"))) as (rest & ->).
  by eexists.
Qed.

Lemma workflow_rejects role w pw tgt s :
  accepted role w = false →
  ∃ line,
    workflow role pw tgt w s =
    (Fail (SysExit 1),
     {| ops := ops s; out := out s ++ [line]; fenv := fenv s |}).
Proof.
  destruct role; simpl; intros Hv.
  - eexists. by apply satellite6_upgrade_rejects.
  - by apply satellite6_capsule_upgrade_rejects.
Qed.

(** * Failure policy of the phases *)

(** A workflow that stops for another reason than an aborted operation
    does so in its version checks, before its first operation, or at the
    first certificate step of a stranded capsule upgrade. *)
Lemma workflow_outcome role w pw tgt s :
  match (workflow role pw tgt w s).1 with
  | Ok _ | Fail (Aborted _) => True
  | Fail (AttributeError msg) =>
      msg = none_has_no_strip ∧ stranded role s = true ∧
      accepted role w = true
  | Fail (SysExit c) =>
      c = 1%Z ∧ accepted role w = false ∧
      ops (workflow role pw tgt w s).2 = ops s
  | Fail (UnboundLocal _) => False
  end.
Proof.
  destruct (accepted role w) eqn:Hv.
  - destruct (workflow_script role w pw tgt s Hv) as (q & Hq & Hp).
    pose proof (lawful_against_plan _ w s _ q _
                  (workflow_lawful role pw tgt) Hq Hp) as H.
    unfold ending in H.
    destruct (workflow role pw tgt w s) as [[a|[c|op|x|msg]] s'];
      simpl; try done; destruct H as [H _];
      destruct (stranded role s); by inversion H.
  - by destruct (workflow_rejects role w pw tgt s Hv) as (line & ->).
Qed.

(** How a failing operation bears on the rest of the run. *)
Lemma workflow_policy role w pw tgt e k op :
  let R := workflow role pw tgt w (fresh e) in
  let Q := workflow role pw tgt (quiet w) (fresh e) in
  ops R.2 !! k = Some op →
  fails w (take k (ops R.2)) op = true →
  if tolerant op
  then (∀ next, ops Q.2 !! S k = Some next → ops R.2 !! S k = Some next) ∧
       (R.1 = Ok tt ∨
        (∃ j op', k < j ∧ ops R.2 !! j = Some op' ∧ tolerant op' = false ∧
                  R.1 = Fail (Aborted op')) ∨
        (stranded role (fresh e) = true ∧
         R.1 = Fail (AttributeError none_has_no_strip)))
  else R.1 = Fail (Aborted op) ∧ length (ops R.2) = S k.
Proof.
  intros R Q Hk Hf.
  pose proof (workflow_lawful role pw tgt w (fresh e)) as H.
  pose proof (workflow_outcome role w pw tgt (fresh e)) as Hout.
  fold R in H, Hout. subst Q.
  destruct R as [[[]|[c|op'|x|msg]] s']; simpl in *.
  - destruct H as (-> & new & E & U). simpl in E. rewrite E in Hk, Hf.
    specialize (U k op Hk). unfold halts in U. simpl in U. rewrite Hf in U.
    destruct (tolerant op); [|done]. split; [done | by left].
  - destruct Hout as (_ & _ & Hout). rewrite Hout in Hk.
    by rewrite lookup_nil in Hk.
  - destruct H as (done & rest & E & HQ & U & Hh). simpl in E, HQ, U, Hh.
    rewrite E in *. clear E.
    destruct (decide (k < length done)) as [Hlt|Hge].
    + rewrite lookup_app_l in Hk by done.
      rewrite take_app_le in Hf by lia.
      specialize (U k op Hk). unfold halts in U. simpl in U. rewrite Hf in U.
      destruct (tolerant op); [|done]. split.
      * intros next. rewrite HQ, cons_middle, app_assoc.
        rewrite (lookup_app_l (done ++ [op'])); [done|].
        rewrite length_app. simpl. lia.
      * right. left. exists (length done), op'. split_and!; try done.
        -- by rewrite list_lookup_middle.
        -- unfold halts in Hh. by destruct (tolerant op'), (fails w done op').
    + apply lookup_lt_Some in Hk as Hlen. rewrite length_app in Hlen.
      simpl in Hlen. assert (k = length done) as -> by lia.
      rewrite list_lookup_middle in Hk by done. injection Hk as ->.
      unfold halts in Hh. rewrite take_app_length in Hf. rewrite Hf in Hh.
      destruct (tolerant op); [done|]. split; [done|].
      rewrite length_app. simpl. lia.
  - done.
  - destruct Hout as (-> & Hs & _).
    destruct H as (-> & new & E & U). simpl in E. rewrite E in Hk, Hf.
    specialize (U k op Hk). unfold halts in U. simpl in U. rewrite Hf in U.
    destruct (tolerant op); [|done]. split; [done|]. right. by right.
Qed.

(** C2: in both workflows, an operation that fails without being tolerant
    is the last one issued and aborts the run, and one that fails while
    tolerant is followed by the next operation of the plan (if there is one)
    and never stops the run itself: the run ends well unless a later,
    non-tolerant operation aborts it or, in a capsule upgrade started with
    no satellite host in the shared dict, the first certificate step is
    given [None] for a host. *)
Theorem failure_policy role w pw tgt e k op :
  let R := workflow role pw tgt w (fresh e) in
  let Q := workflow role pw tgt (quiet w) (fresh e) in
  ops R.2 !! k = Some op →
  fails w (take k (ops R.2)) op = true →
  if tolerant op
  then (∀ next, ops Q.2 !! S k = Some next → ops R.2 !! S k = Some next) ∧
       (R.1 = Ok tt ∨
        (∃ j op', k < j ∧ ops R.2 !! j = Some op' ∧ tolerant op' = false ∧
                  R.1 = Fail (Aborted op')) ∨
        (stranded role (fresh e) = true ∧
         R.1 = Fail (AttributeError none_has_no_strip)))
  else R.1 = Fail (Aborted op) ∧ length (ops R.2) = S k.
Proof. apply workflow_policy. Qed.

Lemma failure_policy_witness :
  let R := workflow Hub None Ambient flaky_cache (fresh ∅) in
  let Q := workflow Hub None Ambient (quiet flaky_cache) (fresh ∅) in
  (∀ next, ops Q.2 !! 10 = Some next → ops R.2 !! 10 = Some next) ∧
  (R.1 = Ok tt ∨
   (∃ j op', 9 < j ∧ ops R.2 !! j = Some op' ∧ tolerant op' = false ∧
             R.1 = Fail (Aborted op')) ∨
   (stranded Hub (fresh ∅) = true ∧
    R.1 = Fail (AttributeError none_has_no_strip))).
Proof.
  apply (failure_policy Hub flaky_cache None Ambient ∅ 9
           (Run Ambient "yum clean all" true));
    vm_compute; reflexivity.
Defined.

(** * What a workflow issues, read off its plan *)

Section RunAndPlan.
Context (role : Role) (w : World) (pw : option string) (tgt : Target)
        (e : gmap string (option string)).

Let R := workflow role pw tgt w (fresh e).

Lemma run_within_script :
  ops R.2 `prefix_of` script role w pw tgt (fresh e) ∧
  ((∀ op, R.1 ≠ Fail (Aborted op)) → accepted role w = true →
   R.1 = ending role (fresh e) ∧ ops R.2 = script role w pw tgt (fresh e)).
Proof.
  subst R. destruct (accepted role w) eqn:Hv.
  - destruct (workflow_script role w pw tgt (fresh e) Hv) as (q & Hq & Hp).
    destruct (lawful_within_plan _ w (fresh e) _ q _
                (workflow_lawful role pw tgt) Hq Hp)
      as (new & rest & E & Hs & Hok & _).
    rewrite E, Hs. split; [by exists rest|].
    intros Hn _. destruct (Hok Hn) as [-> ->]. by rewrite app_nil_r.
  - destruct (workflow_rejects role w pw tgt (fresh e) Hv) as (line & ->).
    split; [apply prefix_nil | done].
Qed.

Lemma run_prefix : ops R.2 `prefix_of` plan role w pw tgt (fresh e).
Proof.
  etransitivity; [apply run_within_script | apply script_prefix].
Qed.

Lemma run_completed : R.1 = Ok tt → ops R.2 = plan role w pw tgt (fresh e).
Proof.
  intros HR.
  pose proof (workflow_outcome role w pw tgt (fresh e)) as Hout.
  destruct run_within_script as [_ H]. fold R in Hout.
  assert (accepted role w = true) as Hv.
  { destruct (accepted role w) eqn:Hv; [done|].
    destruct (workflow_rejects role w pw tgt (fresh e) Hv) as (line & Hl).
    subst R. by rewrite Hl in HR. }
  destruct H as [He ->]; [by rewrite HR | done |].
  rewrite HR in He. unfold ending, script in *.
  by destruct (stranded role (fresh e)).
Qed.

Lemma run_every (P : Op → Prop) :
  Forall P (plan role w pw tgt (fresh e)) → Forall P (ops R.2).
Proof.
  destruct run_prefix as (rest & ->). by intros [H _]%Forall_app.
Qed.

Lemma run_filter (f : Op → bool) :
  List.filter f (ops R.2) `prefix_of`
  List.filter f (plan role w pw tgt (fresh e)).
Proof.
  destruct run_prefix as (rest & ->). rewrite List.filter_app.
  by eexists.
Qed.

End RunAndPlan.

(** Establish [Forall P] over a plan by going through its phases. *)
Ltac each_phase :=
  repeat first
    [ apply Forall_nil_2
    | apply Forall_app_2
    | apply Forall_cons_2
    | match goal with
      | |- Forall _ (if ?c then _ else _) => destruct c
      | |- Forall _ (match ?c with _ => _ end) => destruct c
      end ].

(** Find an operation in a plan. *)
Ltac find_phase :=
  solve
    [ apply list_elem_of_here
    | apply list_elem_of_further; find_phase
    | apply elem_of_app; right; find_phase
    | apply elem_of_app; left; find_phase ].

(** ** The upgrade installer *)

Lemma plan_installer role w pw tgt e :
  let cap_host := mjoin (e !! "capsule_host") in
  let chosen :=
    if py_eq (environ w !! "TO_VERSION") "6.1"
    then legacy_installer role cap_host else unified_installer role cap_host in
  Forall (λ op, is_installer_run op = true → op = Run tgt chosen false)
    (plan role w pw tgt (fresh e)) ∧
  Run tgt chosen false ∈ plan role w pw tgt (fresh e).
Proof.
  destruct role; simpl; split.
  - unfold hub_plan, hub_phases.
    destruct (py_eq _ "6.1"); each_phase;
      first [ by intros [=] | done | idtac ].
    all: destruct (environ w !! "BASE_URL"); by intros [=].
  - unfold hub_plan, hub_phases.
    destruct (py_eq _ "6.1"); find_phase.
  - unfold capsule_plan, capsule_phases.
    destruct (py_eq (environ w !! "TO_VERSION") "6.1"); each_phase;
      first [ by intros [=] | done ].
  - unfold capsule_plan, capsule_phases.
    destruct (py_eq (environ w !! "TO_VERSION") "6.1"); find_phase.
Qed.

(** C4: in both workflows the upgrade installer is chosen by the target
    version alone.  With [TO_VERSION] 6.1 the only installer run is the
    legacy binary ([katello-installer --upgrade] for the satellite,
    [capsule-installer] for the capsule); with 6.2 it is
    [satellite-installer] with its [--scenario] flag; a completed run
    contains it. *)
Theorem installer_choice role w pw tgt e chosen :
  let R := workflow role pw tgt w (fresh e) in
  let cap_host := mjoin (e !! "capsule_host") in
  (environ w !! "TO_VERSION" = Some "6.1" ∧
   chosen = legacy_installer role cap_host) ∨
  (environ w !! "TO_VERSION" = Some "6.2" ∧
   chosen = unified_installer role cap_host) →
  (∀ op, op ∈ ops R.2 → is_installer_run op = true →
         op = Run tgt chosen false) ∧
  (R.1 = Ok tt → Run tgt chosen false ∈ ops R.2).
Proof.
  intros R cap_host Hv.
  destruct (plan_installer role w pw tgt e) as [Hall Hin].
  assert ((if py_eq (environ w !! "TO_VERSION") "6.1"
           then legacy_installer role cap_host
           else unified_installer role cap_host) = chosen) as Hc.
  { by destruct Hv as [[-> ->] | [-> ->]]. }
  fold cap_host in Hall, Hin. rewrite Hc in Hall, Hin. split.
  - intros op Hop. apply (run_every role w pw tgt e) in Hall.
    by apply (proj1 (Forall_forall _ _) Hall).
  - intros HR. subst R. by rewrite run_completed.
Qed.

Lemma installer_choice_witness :
  let R := workflow Hub None Ambient to_62 (fresh ∅) in
  (∀ op, op ∈ ops R.2 → is_installer_run op = true →
         op = Run Ambient "satellite-installer --scenario satellite --upgrade"
                false) ∧
  (R.1 = Ok tt →
   Run Ambient "satellite-installer --scenario satellite --upgrade" false
     ∈ ops R.2).
Proof.
  apply (installer_choice Hub to_62 None Ambient ∅).
  right. split; reflexivity.
Defined.

(** ** Certificates before the capsule installer *)

(** In a list [A ++ [a; b] ++ B], whatever satisfies [P] while nothing in
    [A], nor [a], nor [b] does, comes after [a] and [b]. *)
Lemma found_after {X} (P : X → Prop) (A B : list X) a b k x :
  Forall (λ y, ¬ P y) A → ¬ P a → ¬ P b →
  (A ++ [a; b] ++ B) !! k = Some x → P x →
  length A + 1 < k.
Proof.
  intros HA Ha Hb Hk Hx.
  destruct (decide (k < length A)) as [Hlt|Hge].
  - rewrite lookup_app_l in Hk by done.
    apply list_elem_of_lookup_2 in Hk.
    by destruct (proj1 (Forall_forall _ _) HA x Hk).
  - rewrite lookup_app_r in Hk by lia.
    destruct (k - length A) as [|[|n]] eqn:E; simpl in Hk.
    + injection Hk as <-. done.
    + injection Hk as <-. done.
    + lia.
Qed.

Lemma app_assoc4 {X} (a b c d t : list X) :
  a ++ b ++ c ++ d ++ t = (a ++ b ++ c ++ d) ++ t.
Proof. by rewrite <- !app_assoc. Qed.

Lemma capsule_plan_handoff w tgt sat_host cap_host :
  ∃ A B,
    capsule_plan w tgt sat_host cap_host =
    A ++ [issue_certs sat_host cap_host; copy_certs sat_host cap_host] ++ B ∧
    Forall (λ op, ¬ is_installer_run op = true) A.
Proof.
  unfold capsule_plan, capsule_phases.
  eexists _, _. split.
  - apply app_assoc4.
  - each_phase; done.
Qed.

(** C3: in the capsule workflow, whenever the upgrade installer runs it is
    one of the two installers reading [/home/<capsule>-certs.tar], and
    before it the certificates were generated on the satellite for the
    capsule and then copied by [scp] from the satellite to [/home/] on the
    capsule; neither step is tolerant, and both had succeeded. *)
Theorem certificate_handoff w pw tgt e sat cap k op :
  e !! "satellite_host" = Some (Some sat) →
  e !! "capsule_host" = Some (Some cap) →
  let R := satellite6_capsule_upgrade pw tgt w (fresh e) in
  let issue :=
    Call (OnHost (Some sat)) generate_capsule_certs [VStr cap; VBool true] [] in
  let copy :=
    Run (OnHost (Some sat))
      ("scp -o 'StrictHostKeyChecking no' " +:+ cap +:+ "-certs.tar root@" +:+
       cap +:+ ":/home/") false in
  ops R.2 !! k = Some op → is_installer_run op = true →
  (op = Run tgt ("capsule-installer --upgrade --certs-tar /home/" +:+ cap +:+
                 "-certs.tar") false ∨
   op = Run tgt ("satellite-installer --scenario capsule --upgrade " +:+
                 "--certs-tar /home/" +:+ cap +:+ "-certs.tar") false) ∧
  tolerant issue = false ∧ tolerant copy = false ∧
  ∃ i j, i < j ∧ j < k ∧
    ops R.2 !! i = Some issue ∧ fails w (take i (ops R.2)) issue = false ∧
    ops R.2 !! j = Some copy ∧ fails w (take j (ops R.2)) copy = false.
Proof.
  intros Hs Hc R issue copy Hk Hop.
  pose proof (run_prefix Subordinate w pw tgt e) as (rest & Hplan).
  pose proof (plan_installer Subordinate w pw tgt e) as [Hall _].
  simpl in Hplan, Hall. rewrite Hs, Hc in Hplan. rewrite Hs, Hc in Hall.
  simpl in Hplan, Hall. fold R in Hplan.
  assert (capsule_plan w tgt (Some sat) (Some cap) !! k = Some op) as Hk'.
  { rewrite Hplan. by apply lookup_app_l_Some. }
  split.
  { apply list_elem_of_lookup_2 in Hk'.
    pose proof (proj1 (Forall_forall _ _) Hall op Hk' Hop) as ->.
    destruct (py_eq _ _); [by left | by right]. }
  split; [done|]. split; [done|].
  destruct (capsule_plan_handoff w tgt (Some sat) (Some cap))
    as (A & B & E & HA).
  change (issue_certs (Some sat) (Some cap)) with issue in E.
  change (copy_certs (Some sat) (Some cap)) with copy in E.
  rewrite E in Hk'.
  pose proof (found_after (λ op, is_installer_run op = true) A B issue copy
                k op HA ltac:(done) ltac:(done) Hk' Hop) as Hlt.
  apply lookup_lt_Some in Hk as Hlen.
  assert (ops R.2 !! length A = Some issue) as Hi.
  { pose proof (lookup_app_l (ops R.2) rest (length A) ltac:(lia)) as H.
    rewrite <- Hplan, E in H. rewrite <- H. by apply list_lookup_middle. }
  assert (ops R.2 !! (length A + 1) = Some copy) as Hj.
  { pose proof (lookup_app_l (ops R.2) rest (length A + 1) ltac:(lia)) as H.
    rewrite <- Hplan, E in H. rewrite <- H.
    rewrite lookup_app_r by lia.
    by replace (length A + 1 - length A) with 1 by lia. }
  exists (length A), (length A + 1). split_and!; try done; try lia.
  - destruct (fails w (take (length A) (ops R.2)) issue) eqn:Hf; [|done].
    pose proof (workflow_policy Subordinate w pw tgt e _ _ Hi Hf) as [_ H].
    cbn [workflow] in H. fold R in H. lia.
  - destruct (fails w (take (length A + 1) (ops R.2)) copy) eqn:Hf; [|done].
    pose proof (workflow_policy Subordinate w pw tgt e _ _ Hj Hf) as [_ H].
    cbn [workflow] in H. fold R in H. lia.
Qed.

Lemma certificate_handoff_witness :
  let R := satellite6_capsule_upgrade None Ambient capsule_60_61
             (fresh named_hosts) in
  let issue :=
    Call (OnHost (Some "sat.example.com")) generate_capsule_certs
      [VStr "cap.example.com"; VBool true] [] in
  let copy :=
    Run (OnHost (Some "sat.example.com"))
      "scp -o 'StrictHostKeyChecking no' cap.example.com-certs.tar root@cap.example.com:/home/"
      false in
  let op :=
    Run Ambient
      "capsule-installer --upgrade --certs-tar /home/cap.example.com-certs.tar"
      false in
  ops R.2 !! 11 = Some op ∧
  ∃ i j, i < j ∧ j < 11 ∧
    ops R.2 !! i = Some issue ∧
    fails capsule_60_61 (take i (ops R.2)) issue = false ∧
    ops R.2 !! j = Some copy ∧
    fails capsule_60_61 (take j (ops R.2)) copy = false.
Proof.
  intros R issue copy op.
  assert (ops R.2 !! 11 = Some op) as Hk by (vm_compute; reflexivity).
  split; [exact Hk|].
  apply (certificate_handoff capsule_60_61 None Ambient named_hosts
           "sat.example.com" "cap.example.com" 11 op
           ltac:(vm_compute; reflexivity) ltac:(vm_compute; reflexivity)
           Hk ltac:(vm_compute; reflexivity)).
Defined.

(** ** Repository configuration *)

Lemma hub_plan_repo_ops w pw tgt :
  List.filter is_repo_op (hub_plan w pw tgt) = hub_repo_ops w tgt.
Proof.
  unfold hub_plan, hub_phases, hub_repo_ops.
  destruct (truthy _), (py_eq _ _), (environ w !! "BASE_URL"); reflexivity.
Qed.

Lemma capsule_plan_repo_ops w tgt sat_host cap_host :
  List.filter is_repo_op (capsule_plan w tgt sat_host cap_host) =
  capsule_repo_ops w tgt.
Proof.
  unfold capsule_plan, capsule_phases, capsule_repo_ops.
  destruct (is_none _), (py_eq (environ w !! "FROM_VERSION") _), (truthy _),
    (py_eq (environ w !! "TO_VERSION") _); reflexivity.
Qed.

Lemma hub_run_repo_ops w pw tgt e :
  let R := satellite6_upgrade pw tgt w (fresh e) in
  List.filter is_repo_op (ops R.2) `prefix_of` hub_repo_ops w tgt ∧
  (R.1 = Ok tt → List.filter is_repo_op (ops R.2) = hub_repo_ops w tgt).
Proof.
  split.
  - rewrite <- (hub_plan_repo_ops w pw tgt).
    apply (run_filter Hub w pw tgt e).
  - intros HR.
    change (satellite6_upgrade pw tgt) with (workflow Hub pw tgt).
    rewrite (run_completed Hub w pw tgt e HR).
    apply hub_plan_repo_ops.
Qed.

Lemma capsule_run_repo_ops w pw tgt e :
  let R := satellite6_capsule_upgrade pw tgt w (fresh e) in
  List.filter is_repo_op (ops R.2) `prefix_of` capsule_repo_ops w tgt ∧
  (R.1 = Ok tt → List.filter is_repo_op (ops R.2) = capsule_repo_ops w tgt).
Proof.
  split.
  - rewrite <- (capsule_plan_repo_ops w tgt (mjoin (e !! "satellite_host"))
                  (mjoin (e !! "capsule_host"))).
    apply (run_filter Subordinate w pw tgt e).
  - intros HR.
    change (satellite6_capsule_upgrade pw tgt)
      with (workflow Subordinate pw tgt).
    rewrite (run_completed Subordinate w pw tgt e HR).
    apply capsule_plan_repo_ops.
Qed.

(** C5 (as stated, refuted): a completed capsule upgrade configures its
    repositories without disabling all repositories first and without
    enabling the base and software-collections repositories. *)
Lemma clean_slate_counterexample :
  let R := satellite6_capsule_upgrade None Ambient capsule_60_61
             (fresh named_hosts) in
  R.1 = Ok tt ∧ ∀ tgt major_ver, ¬ clean_slate_first tgt major_ver (ops R.2).
Proof.
  split; [vm_compute; reflexivity|].
  intros tgt major_ver [rest H]. vm_compute in H. discriminate H.
Qed.

(** C5 (amended): the satellite workflow disables all repositories and
    only then enables the base and software-collections repositories,
    whatever else is configured; the capsule workflow issues no other
    repository operation than enabling the capsule repository of the
    target version (without a custom URL) and then disabling the one of
    the source version. *)
Theorem clean_slate_policy w pw tgt e :
  let H := satellite6_upgrade pw tgt w (fresh e) in
  let C := satellite6_capsule_upgrade pw tgt w (fresh e) in
  (∃ last,
     List.filter is_repo_op (ops H.2) `prefix_of`
     [ disable_all tgt; enable_base tgt (distro_major w tgt);
       enable_rhscl tgt (distro_major w tgt); last ]) ∧
  (H.1 = Ok tt → clean_slate_first tgt (distro_major w tgt) (ops H.2)) ∧
  List.filter is_repo_op (ops C.2) `prefix_of`
    ((if is_none (environ w !! "CAPSULE_URL")
      then [Call tgt enable_repos
              [VStr (vendor_repo "satellite-capsule" (distro_major w tgt)
                       (environ w !! "TO_VERSION"))] []]
      else []) ++
     [ Call tgt disable_repos
         [VStr (vendor_repo "satellite-capsule" (distro_major w tgt)
                  (environ w !! "FROM_VERSION"))] [] ]).
Proof.
  intros H C. subst H C.
  destruct (hub_run_repo_ops w pw tgt e) as [Hpre Hok].
  destruct (capsule_run_repo_ops w pw tgt e) as [Cpre _].
  split_and!.
  - eexists. exact Hpre.
  - intros HR. unfold clean_slate_first. rewrite (Hok HR). by eexists.
  - exact Cpre.
Qed.

Lemma clean_slate_policy_witness :
  let H := satellite6_upgrade None Ambient to_62 (fresh ∅) in
  clean_slate_first Ambient "7" (ops H.2).
Proof.
  apply (clean_slate_policy to_62 None Ambient ∅).
  vm_compute; reflexivity.
Defined.

(** C6 (as stated, refuted): with a custom capsule URL supplied, a
    completed capsule upgrade has written no repository-definition file:
    its only repository operation disables the source repository. *)
Lemma custom_repository_counterexample :
  let R := satellite6_capsule_upgrade None Ambient capsule_custom_url
             (fresh named_hosts) in
  environ capsule_custom_url !! "CAPSULE_URL" =
    Some "http://compose.example.com/capsule" ∧
  R.1 = Ok tt ∧
  List.filter is_repo_op (ops R.2) =
    [Call Ambient disable_repos
       [VStr "rhel-7-server-satellite-capsule-6.1-rpms"] []].
Proof. split_and!; vm_compute; reflexivity. Qed.

(** C6 (amended): for the satellite, without [BASE_URL] the vendor
    repository of the target version is enabled and no file is written,
    and with [BASE_URL] the file [/etc/yum.repos.d/sat6.repo] (section
    header, name, baseurl, enabled=1, gpgcheck=0) is written and the vendor
    repository is not enabled.  For the capsule, without [CAPSULE_URL] the
    vendor repository of the target version is enabled, with [CAPSULE_URL]
    it is not, and in neither case does the workflow write a file. *)
Theorem repository_source w pw tgt e :
  let mv := distro_major w tgt in
  let H := List.filter is_repo_op (ops (satellite6_upgrade pw tgt w (fresh e)).2) in
  let H_ok := (satellite6_upgrade pw tgt w (fresh e)).1 = Ok tt in
  let C := List.filter is_repo_op
             (ops (satellite6_capsule_upgrade pw tgt w (fresh e)).2) in
  let C_ok := (satellite6_capsule_upgrade pw tgt w (fresh e)).1 = Ok tt in
  let source_off :=
    Call tgt disable_repos
      [VStr (vendor_repo "satellite-capsule" mv (environ w !! "FROM_VERSION"))]
      [] in
  (environ w !! "BASE_URL" = None →
   let plan := [ disable_all tgt; enable_base tgt mv; enable_rhscl tgt mv;
                 Call tgt enable_repos
                   [VStr (vendor_repo "satellite" mv
                            (environ w !! "TO_VERSION"))] [] ] in
   H `prefix_of` plan ∧ (H_ok → H = plan)) ∧
  (∀ url, environ w !! "BASE_URL" = Some url →
   let plan := [ disable_all tgt; enable_base tgt mv; enable_rhscl tgt mv;
                 Put tgt ("[sat6]" +:+ LF +:+ "name=satellite 6" +:+ LF +:+
                          "baseurl=" +:+ url +:+ LF +:+ "enabled=1" +:+ LF +:+
                          "gpgcheck=0" +:+ LF)
                   "/etc/yum.repos.d/sat6.repo" ] in
   H `prefix_of` plan ∧ (H_ok → H = plan)) ∧
  (environ w !! "CAPSULE_URL" = None →
   let plan := [ Call tgt enable_repos
                   [VStr (vendor_repo "satellite-capsule" mv
                            (environ w !! "TO_VERSION"))] [];
                 source_off ] in
   C `prefix_of` plan ∧ (C_ok → C = plan)) ∧
  (∀ url, environ w !! "CAPSULE_URL" = Some url →
   C `prefix_of` [source_off] ∧ (C_ok → C = [source_off])).
Proof.
  intros mv H H_ok C C_ok source_off. subst H H_ok C C_ok.
  pose proof (hub_run_repo_ops w pw tgt e) as HH.
  pose proof (capsule_run_repo_ops w pw tgt e) as HC.
  unfold hub_repo_ops in HH. unfold capsule_repo_ops in HC.
  split_and!.
  - intros E. by rewrite E in HH.
  - intros url E. by rewrite E in HH.
  - intros E. by rewrite E in HC.
  - intros url E. by rewrite E in HC.
Qed.

Lemma repository_source_witness :
  let R := satellite6_upgrade None Ambient custom_base_url (fresh ∅) in
  List.filter is_repo_op (ops R.2) =
  [ disable_all Ambient; enable_base Ambient "7"; enable_rhscl Ambient "7";
    Put Ambient
      ("[sat6]" +:+ LF +:+ "name=satellite 6" +:+ LF +:+
       "baseurl=http://compose.example.com/sat" +:+ LF +:+ "enabled=1" +:+ LF +:+
       "gpgcheck=0" +:+ LF)
      "/etc/yum.repos.d/sat6.repo" ].
Proof.
  pose proof (repository_source custom_base_url None Ambient ∅)
    as (_ & H & _).
  apply (H "http://compose.example.com/sat");
    vm_compute; reflexivity.
Defined.

(** ** The legacy installer migration of the capsule *)

Lemma app_assoc3 {X} (a b c t : list X) :
  a ++ b ++ c ++ t = (a ++ b ++ c) ++ t.
Proof. by rewrite <- !app_assoc. Qed.

Lemma capsule_plan_migrates w tgt sat_host cap_host :
  py_eq (environ w !! "FROM_VERSION") "6.0" = true →
  ∃ l1 l2,
    capsule_plan w tgt sat_host cap_host =
    l1 ++ [install_legacy tgt; copy_answers tgt] ++ l2.
Proof.
  intros E. unfold capsule_plan, capsule_phases. rewrite E.
  eexists _, _. apply app_assoc3.
Qed.

Lemma capsule_plan_skips w tgt sat_host cap_host :
  py_eq (environ w !! "FROM_VERSION") "6.0" = false →
  Forall (λ op, op ≠ install_legacy tgt ∧ op ≠ copy_answers tgt)
    (capsule_plan w tgt sat_host cap_host).
Proof.
  intros E. unfold capsule_plan, capsule_phases. rewrite E.
  each_phase; first [ by split; intros [=] | idtac ].
  destruct (py_eq (environ w !! "TO_VERSION") _); by split; intros [=].
Qed.

Lemma regroup {X} (a b m t : list X) d :
  a ++ b ++ (d :: m) ++ t = (a ++ b) ++ [d] ++ m ++ t.
Proof. by rewrite <- app_assoc. Qed.

Lemma capsule_plan_by_source w tgt sat_host cap_host :
  ∃ pre mid post,
    capsule_plan (with_source "6.0" w) tgt sat_host cap_host =
      pre ++
      [Call tgt disable_repos
         [VStr (vendor_repo "satellite-capsule" (distro_major w tgt)
                  (Some "6.0"))] []] ++
      mid ++ [install_legacy tgt; copy_answers tgt] ++ post ∧
    capsule_plan (with_source "6.1" w) tgt sat_host cap_host =
      pre ++
      [Call tgt disable_repos
         [VStr (vendor_repo "satellite-capsule" (distro_major w tgt)
                  (Some "6.1"))] []] ++
      mid ++ post.
Proof.
  unfold capsule_plan, capsule_phases, with_source. cbn [environ distro_major].
  rewrite !lookup_insert_eq.
  rewrite !(lookup_insert_ne (environ w) "FROM_VERSION") by done.
  change (py_eq (Some "6.0") "6.0") with true.
  change (py_eq (Some "6.1") "6.0") with false.
  cbv iota.
  eexists _, _, _. split.
  - apply regroup.
  - apply (regroup _ _ _ _ _).
Qed.

Lemma capsule_opening_by_source w tgt :
  ∃ pre mid,
    capsule_opening (with_source "6.0" w) tgt =
      pre ++
      [Call tgt disable_repos
         [VStr (vendor_repo "satellite-capsule" (distro_major w tgt)
                  (Some "6.0"))] []] ++
      mid ++ [install_legacy tgt; copy_answers tgt] ++ [] ∧
    capsule_opening (with_source "6.1" w) tgt =
      pre ++
      [Call tgt disable_repos
         [VStr (vendor_repo "satellite-capsule" (distro_major w tgt)
                  (Some "6.1"))] []] ++
      mid ++ [].
Proof.
  unfold capsule_opening, with_source. cbn [environ distro_major].
  rewrite !lookup_insert_eq.
  rewrite !(lookup_insert_ne (environ w) "FROM_VERSION") by done.
  change (py_eq (Some "6.0") "6.0") with true.
  change (py_eq (Some "6.1") "6.0") with false.
  cbv iota.
  eexists _, _. split.
  - apply regroup.
  - apply (regroup _ _ _ _ _).
Qed.

Lemma with_source_accepted w v :
  py_in (Some v) ["6.1"; "6.0"] = true →
  py_in (environ w !! "TO_VERSION") ["6.1"; "6.2"] = true →
  accepted Subordinate (with_source v w) = true.
Proof.
  intros Hf Hv. unfold accepted, with_source. cbn [environ].
  rewrite lookup_insert_eq, Hf.
  by rewrite lookup_insert_ne.
Qed.

(** C7: the capsule workflow contains the legacy installer migration (a
    tolerant install of [capsule-installer] followed by a tolerant copy of
    its saved answer file) when [FROM_VERSION] is 6.0 and not when it is
    6.1; apart from the name of the source repository being disabled, the
    two plans differ in nothing else. *)
Theorem legacy_migration_gate w pw tgt e :
  let R := satellite6_capsule_upgrade pw tgt w (fresh e) in
  let Q v :=
    satellite6_capsule_upgrade pw tgt (quiet (with_source v w)) (fresh e) in
  let source_off v :=
    Call tgt disable_repos
      [VStr (vendor_repo "satellite-capsule" (distro_major w tgt) (Some v))]
      [] in
  (environ w !! "FROM_VERSION" = Some "6.0" → R.1 = Ok tt →
   ∃ l1 l2, ops R.2 = l1 ++ [install_legacy tgt; copy_answers tgt] ++ l2) ∧
  (environ w !! "FROM_VERSION" = Some "6.1" →
   (install_legacy tgt ∉ ops R.2) ∧ (copy_answers tgt ∉ ops R.2)) ∧
  tolerant (install_legacy tgt) = true ∧
  tolerant (copy_answers tgt) = true ∧
  (py_in (environ w !! "TO_VERSION") ["6.1"; "6.2"] = true →
   ∃ pre mid post,
     ops (Q "6.0").2 =
       pre ++ [source_off "6.0"] ++ mid ++
       [install_legacy tgt; copy_answers tgt] ++ post ∧
     ops (Q "6.1").2 = pre ++ [source_off "6.1"] ++ mid ++ post).
Proof.
  intros R Q source_off. split_and!; try done.
  - intros E HR. subst R.
    change (satellite6_capsule_upgrade pw tgt)
      with (workflow Subordinate pw tgt).
    rewrite (run_completed Subordinate w pw tgt e HR). simpl.
    apply capsule_plan_migrates. by rewrite E.
  - intros E.
    pose proof (capsule_plan_skips w tgt (mjoin (e !! "satellite_host"))
                  (mjoin (e !! "capsule_host"))) as H.
    rewrite E in H. specialize (H eq_refl).
    apply (run_every Subordinate w pw tgt e) in H. fold R in H.
    rewrite Forall_forall in H.
    split; intros Hin; by destruct (H _ Hin).
  - intros Hv. subst Q. cbv beta.
    destruct (workflow_script Subordinate (with_source "6.0" w) pw tgt
                (fresh e) (with_source_accepted w "6.0" eq_refl Hv))
      as (q0 & Hq0 & Hp0).
    destruct (workflow_script Subordinate (with_source "6.1" w) pw tgt
                (fresh e) (with_source_accepted w "6.1" eq_refl Hv))
      as (q1 & Hq1 & Hp1).
    cbn [workflow] in Hq0, Hq1. rewrite Hq0, Hq1. cbn [snd].
    rewrite Hp0, Hp1. unfold script. cbn [plan fresh ops fenv app].
    destruct (stranded Subordinate (fresh e)).
    + destruct (capsule_opening_by_source w tgt) as (pre & mid & E0 & E1).
      by exists pre, mid, [].
    + destruct (capsule_plan_by_source w tgt (mjoin (e !! "satellite_host"))
                  (mjoin (e !! "capsule_host")))
        as (pre & mid & post & E0 & E1).
      by exists pre, mid, post.
Qed.

Lemma legacy_migration_gate_witness :
  let R := satellite6_capsule_upgrade None Ambient capsule_60_61
             (fresh named_hosts) in
  ∃ l1 l2,
    ops R.2 = l1 ++ [install_legacy Ambient; copy_answers Ambient] ++ l2.
Proof.
  apply (legacy_migration_gate capsule_60_61 None Ambient named_hosts);
    vm_compute; reflexivity.
Defined.

(** * product_upgrade: resolving the hosts *)

(** C9: with the satellite named explicitly and the capsule to be
    provisioned, [product_upgrade] restarts the satellite services and then
    stops on the local variable [version], which only the satellite
    provisioning branch assigns and checks: it is an unbound-local error,
    not the exit asking for the OS version, whatever [OS] is set to. *)
Theorem version_unbound_for_capsule w sat_image cap_image s :
  truthy (environ w !! "SATELLITE_HOSTNAME") = true →
  truthy (environ w !! "CAPSULE_HOSTNAME") = false →
  negb (truthy cap_image) && negb (truthy (environ w !! "RHEV_CAPSULE"))
    = false →
  let restart :=
    Run (OnHost (environ w !! "SATELLITE_HOSTNAME"))
      "katello-service restart" false in
  product_upgrade "capsule" sat_image cap_image w s =
  (Fail (if fails w (ops s) restart
         then Aborted restart else UnboundLocal "version"),
   {| ops := ops s ++ [restart];
      out := out s;
      fenv := <["satellite_host" := environ w !! "SATELLITE_HOSTNAME"]>
                (fenv s) |}).
Proof.
  intros Hs Hc Hi restart. destruct s as [o l e]. cbn [ops out fenv].
  cut (∃ new lines,
         stops (product_upgrade "capsule" sat_image cap_image) w o l e
           (if fails w o restart then Aborted restart
            else UnboundLocal "version")
           new lines (<["satellite_host" := environ w !! "SATELLITE_HOSTNAME"]> e) ∧
         new = [restart] ∧ lines = []).
  { intros (new & lines & H & -> & ->). unfold stops in H.
    by rewrite app_nil_r in H. }
  destruct (fails w o restart) eqn:Hf;
    (eexists _, _; split;
     [unfold product_upgrade; repeat stops_step | split; reflexivity]).
Qed.

Lemma version_unbound_for_capsule_witness :
  product_upgrade "capsule" None (Some "capsule-template") explicit_satellite
    initial =
  (Fail (UnboundLocal "version"),
   {| ops := [Run (OnHost (Some "sat.example.com"))
                "katello-service restart" false];
      out := [];
      fenv := {[ "satellite_host" := Some "sat.example.com" ]} |}).
Proof.
  exact (version_unbound_for_capsule explicit_satellite None
           (Some "capsule-template") initial eq_refl eq_refl eq_refl).
Defined.

(** Any run of a lawful task issues an initial segment of the operations
    of its unfailing run, and differs from it only by being aborted. *)
Lemma lawful_prefix {A} (m : M A) w s :
  lawful m →
  (m w s = m (quiet w) s ∨ ∃ op, (m w s).1 = Fail (Aborted op)) ∧
  ops (m w s).2 `prefix_of` ops (m (quiet w) s).2.
Proof.
  intros Hm. specialize (Hm w s).
  destruct (m w s) as [[a|[c|op|x|msg]] s'].
  - destruct Hm as (-> & _). split; [by left | done].
  - destruct Hm as (-> & _). split; [by left | done].
  - destruct Hm as (done & rest & E & Q & _). split; [right; by eexists|].
    exists rest. simpl. by rewrite E, Q, <- !app_assoc.
  - destruct Hm as (-> & _). split; [by left | done].
  - destruct Hm as (-> & _). split; [by left | done].
Qed.

(** * Invariants of a run *)

Section Hoare.
Context (w : World) (E : State → Prop).

Lemma hoare_bind {A B} P Q1 Q (m : M A) (f : A → M B) :
  hoare w P m Q1 E → (∀ a, hoare w Q1 (f a) Q E) →
  hoare w P (m ≫= f) Q E.
Proof.
  intros Hm Hf s HP. specialize (Hm s HP). unfold mbind, M_bind.
  destruct (m w s) as [[a|err] s1]; [by apply Hf | done].
Qed.

Lemma hoare_bind_getenv {B} P Q k (f : option string → M B) :
  hoare w P (f (environ w !! k)) Q E → hoare w P (getenv k ≫= f) Q E.
Proof. intros Hf s HP. by apply Hf. Qed.

Lemma hoare_false {A} Q (m : M A) : hoare w (λ _, False) m Q E.
Proof. by intros s []. Qed.

Lemma hoare_ret {A} P (a : A) : hoare w P (mret a) P E.
Proof. by intros s HP. Qed.

Lemma hoare_getenv P k : hoare w P (getenv k) P E.
Proof. by intros s HP. Qed.

Lemma hoare_time_ctime P : hoare w P time_ctime P E.
Proof. by intros s HP. Qed.

Lemma hoare_read_local {A} P x (v : Local A) :
  (∀ s, P s → E s) → hoare w P (read_local x v) P E.
Proof. intros HE s HP. destruct v; simpl; [by apply HE | done]. Qed.

Lemma hoare_sys_exit {A} P Q c :
  (∀ s, P s → E s) → hoare w P (@sys_exit A c) Q E.
Proof. intros HE s HP. by apply HE. Qed.

Lemma hoare_print P line :
  (∀ s, P s → P {| ops := ops s; out := out s ++ [line]; fenv := fenv s |}) →
  hoare w P (print line) P E.
Proof. intros H s HP. by apply H. Qed.

Lemma hoare_env_set P k v :
  (∀ s, P s →
        P {| ops := ops s; out := out s; fenv := <[k := v]> (fenv s) |}) →
  hoare w P (env_set k v) P E.
Proof. intros H s HP. by apply H. Qed.

Lemma hoare_exec P op :
  (∀ s, P s → P (with_op s op) ∧ E (with_op s op)) →
  hoare w P (exec op) P E.
Proof.
  intros H s HP. destruct (H s HP) as [HP' HE]. unfold exec.
  by destruct (fails w (ops s) op), (tolerant op).
Qed.

Lemma hoare_execute {A} P Q (task : Target → M A) host :
  hoare w P (task (OnHost host)) Q E → (∀ s, P s → E s) →
  hoare w P (execute task host) Q E.
Proof.
  intros Ht HE s HP. unfold execute.
  destruct host; [by apply Ht | by apply HE].
Qed.

End Hoare.

Lemma workflow_hoare_script role w pw tgt K X :
  (∀ s, K (fenv s) → Forall X (script role w pw tgt s)) →
  hoare w (inv K X) (workflow role pw tgt) (inv K X)
    (λ s, Forall X (ops s)).
Proof.
  intros HX s [HK Hops]. specialize (HX s HK).
  destruct (accepted role w) eqn:Hv.
  - destruct (workflow_unhindered role (quiet w) pw tgt s
                (quiet_unhindered w) Hv) as (lines & HQ).
    pose proof (lawful_against_plan _ w s _ _ (script role w pw tgt s)
                  (workflow_lawful role pw tgt) HQ) as H.
    specialize (H ltac:(by destruct role)).
    assert (Forall X (ops s ++ script role w pw tgt s)) as Hall.
    { apply Forall_app. by split. }
    destruct (workflow role pw tgt w s) as [[a|[c|op|x|msg]] s'].
    1,2,4,5: destruct H as [[= _ ->] _]; try split; done.
    destruct H as (done & rest & -> & E & _). rewrite E in HX.
    apply Forall_app. split; [exact Hops|].
    rewrite app_assoc in HX. by apply Forall_app in HX as [HX _].
  - by destruct (workflow_rejects role w pw tgt s Hv) as (line & ->).
Qed.

Lemma workflow_hoare role w pw tgt K X :
  (∀ s, K (fenv s) → Forall X (plan role w pw tgt s)) →
  hoare w (inv K X) (workflow role pw tgt) (inv K X)
    (λ s, Forall X (ops s)).
Proof.
  intros HX. apply workflow_hoare_script. intros s HK.
  destruct (script_prefix role w pw tgt s) as (rest & E).
  specialize (HX s HK). rewrite E in HX.
  by apply Forall_app in HX as [HX _].
Qed.

(** A stranded workflow never completes. *)
Lemma workflow_stranded role w pw tgt P :
  (∀ s, P s → stranded role s = true) →
  hoare w P (workflow role pw tgt) (λ _, False) (λ _, True).
Proof.
  intros HP s Hs. specialize (HP s Hs).
  pose proof (workflow_outcome role w pw tgt s) as H.
  destruct (accepted role w) eqn:Hv.
  - destruct (workflow_script role w pw tgt s Hv) as (q & Hq & Hp).
    pose proof (lawful_against_plan _ w s _ q _
                  (workflow_lawful role pw tgt) Hq Hp) as H'.
    unfold ending in H'. rewrite HP in H'.
    destruct (workflow role pw tgt w s) as [[a|err] s']; [|done].
    by destruct H' as [[= ] _].
  - by destruct (workflow_rejects role w pw tgt s Hv) as (line & ->).
Qed.

Lemma workflow_refuses role w pw tgt P :
  accepted role w = false →
  hoare w P (workflow role pw tgt) (λ _, False) (λ _, True).
Proof.
  intros Hv s _.
  by destruct (workflow_rejects role w pw tgt s Hv) as (line & ->).
Qed.

Lemma hoare_top {A} w P (m : M A) : hoare w P m (λ _, True) (λ _, True).
Proof. intros s _. by destruct (m w s) as [[a|err] s']. Qed.

Ltac hoare_workflow role :=
  first [ apply (workflow_refuses role); eassumption
        | apply (workflow_hoare role)
        | apply hoare_top ].

(** One step through a task.  After an exit nothing is left to show,
    whatever the postcondition was. *)
Ltac hoare_known_step :=
  lazymatch goal with
  | |- hoare _ (λ _, False) _ _ _ => apply hoare_false
  | |- hoare _ _ (getenv _ ≫= _) _ _ => apply hoare_bind_getenv
  | |- hoare _ _ (_ ≫= _) _ _ =>
      eapply hoare_bind;
      [|let a := fresh "a" in
        intros a;
        try lazymatch type of a with (_ * _)%type => destruct a end]
  | |- hoare _ _ (mret _) _ _ => apply hoare_ret
  | |- hoare _ _ (getenv _) _ _ => apply hoare_getenv
  | |- hoare _ _ time_ctime _ _ => apply hoare_time_ctime
  | |- hoare _ _ (read_local _ _) _ _ => apply hoare_read_local
  | |- hoare _ _ (sys_exit _) ?Q _ =>
      tryif is_evar Q
      then apply (hoare_sys_exit _ _ _ (λ _, False))
      else apply hoare_sys_exit
  | |- hoare _ _ (print _) _ _ => apply hoare_print
  | |- hoare _ _ (env_set _ _) _ _ => apply hoare_env_set
  | |- hoare _ _ (exec _) _ _ => apply hoare_exec
  | |- hoare _ _ (run _ _ _) _ _ => unfold run
  | |- hoare _ _ (put _ _ _) _ _ => unfold put
  | |- hoare _ _ (call _ _ _ _) _ _ => unfold call
  | |- hoare _ _ (execute _ _) _ _ => apply hoare_execute
  | |- hoare _ _ (execute_ambient _) _ _ => unfold execute_ambient
  | |- hoare _ _ (when true _) _ _ => unfold when
  | |- hoare _ _ (when false _) _ _ => apply hoare_ret
  | |- hoare _ _ (satellite6_upgrade _ _) _ _ => hoare_workflow Hub
  | |- hoare _ _ (satellite6_capsule_upgrade _ _) _ _ =>
      hoare_workflow Subordinate
  | |- hoare _ _ (when ?c _) _ _ =>
      first [ decide_cond c
            | unfold when; destruct c; [|apply hoare_ret] ]
  | |- hoare _ _ (if true then _ else _) _ _ => cbv iota
  | |- hoare _ _ (if false then _ else _) _ _ => cbv iota
  | |- hoare _ _ (if ?c then _ else _) _ _ =>
      first [ decide_cond c | destruct c ]
  end.

Ltac hoare_step :=
  cbv beta iota;
  lazymatch goal with
  | |- hoare _ ?P _ _ _ =>
      tryif is_evar P
      then (unify P (λ _ : State, False); apply hoare_false)
      else hoare_known_step
  end.

(** * Missing host specifications *)

Lemma satellite_unspecified w product sat_image cap_image s :
  existsb (String.eqb product) ["satellite"; "capsule"] = true →
  truthy (environ w !! "SATELLITE_HOSTNAME") = false →
  negb (truthy sat_image) && negb (truthy (environ w !! "RHEV_SATELLITE"))
    = true →
  product_upgrade product sat_image cap_image w s =
  (Fail (SysExit 1),
   {| ops := ops s; out := out s ++ [no_satellite_message];
      fenv := fenv s |}).
Proof.
  intros Hp Hs Hi. destruct s as [o l e]. cbn [ops out fenv].
  cut (∃ new lines,
         stops (product_upgrade product sat_image cap_image) w o l e
           (SysExit 1) new lines e ∧
         new = [] ∧ lines = [no_satellite_message]).
  { intros (new & lines & H & -> & ->). unfold stops in H.
    by rewrite app_nil_r in H. }
  eexists _, _; split;
    [unfold product_upgrade; repeat stops_step | split; reflexivity].
Qed.

Lemma hub_plan_provisions w pw tgt role :
  Forall (λ op, provisions role op = false) (hub_plan w pw tgt).
Proof.
  unfold hub_plan, hub_phases. each_phase; first [done | idtac].
  - by destruct (environ w !! "BASE_URL").
  - by destruct (py_eq _ _).
Qed.

(** With nothing given for the capsule, no run deletes or creates a capsule
    instance, and none completes. *)
Lemma capsule_unspecified_hoare w sat_image cap_image :
  truthy (environ w !! "CAPSULE_HOSTNAME") = false →
  negb (truthy cap_image) && negb (truthy (environ w !! "RHEV_CAPSULE"))
    = true →
  hoare w (inv (λ _, True) (λ op, provisions "capsule" op = false))
    (product_upgrade "capsule" sat_image cap_image)
    (λ _, False)
    (λ s, Forall (λ op, provisions "capsule" op = false) (ops s)).
Proof.
  intros Hc Hi.
  assert (∀ op s, provisions "capsule" op = false →
                  inv (λ _, True) (λ op, provisions "capsule" op = false) s →
                  inv (λ _, True) (λ op, provisions "capsule" op = false)
                    (with_op s op) ∧
                  Forall (λ op, provisions "capsule" op = false)
                    (ops (with_op s op))) as Hexec.
  { intros op s Hop [_ Hops].
    assert (Forall (λ op, provisions "capsule" op = false) (ops s ++ [op]))
      as H.
    { apply Forall_app. split; [done|]. by apply Forall_singleton. }
    by split; [split|]. }
  unfold product_upgrade.
  repeat hoare_step;
    first
      [ by intros s _; apply hub_plan_provisions
      | by intros s [? ?]
      | by intros s H; apply Hexec ].
Qed.

Lemma capsule_unspecified_unhindered w sat_image cap_image s :
  unhindered w →
  truthy (environ w !! "CAPSULE_HOSTNAME") = false →
  negb (truthy cap_image) && negb (truthy (environ w !! "RHEV_CAPSULE"))
    = true →
  hub_resolved w sat_image = true →
  ∃ lines e',
    product_upgrade "capsule" sat_image cap_image w s =
    (Fail (SysExit 1),
     {| ops := ops s ++ satellite_resolution w sat_image ++
               [Run (OnHost (satellite_address w)) "katello-service restart"
                  false];
        out := out s ++ lines;
        fenv := e' |}) ∧
    last lines = Some no_capsule_message.
Proof.
  intros Hw Hc Hi Hr. destruct s as [o l e]. cbn [ops out fenv].
  cut (∃ new lines e',
         stops (product_upgrade "capsule" sat_image cap_image) w o l e
           (SysExit 1) new lines e' ∧
         new = satellite_resolution w sat_image ++
               [Run (OnHost (satellite_address w)) "katello-service restart"
                  false] ∧
         last lines = Some no_capsule_message).
  { intros (new & lines & e' & H & -> & Hl). by exists lines, e'. }
  unfold hub_resolved in Hr. unfold satellite_resolution, satellite_address.
  destruct (truthy (environ w !! "SATELLITE_HOSTNAME")) eqn:Hs;
    simpl in Hr.
  - eexists _, _, _; split;
      [unfold product_upgrade; repeat stops_step
      | cbn [app]; split; reflexivity].
  - apply andb_prop in Hr as [Hr Hn]. apply andb_prop in Hr as [Hg Ho].
    apply negb_true_iff in Hn.
    assert (negb (truthy sat_image) &&
            negb (truthy (environ w !! "RHEV_SATELLITE")) = false) as Hg'.
    { by destruct (truthy sat_image),
           (truthy (environ w !! "RHEV_SATELLITE")). }
    eexists _, _, _; split;
      [unfold product_upgrade; repeat stops_step
      | cbn [app]; split; reflexivity].
Qed.

(** C8 (as stated, refuted): nothing is given for the capsule, and the run
    does not end with the request for a capsule host.  With an image alone
    for the satellite it stops when [execute] is given [None] for the host
    of [subscribe]; with no OS version it exits asking for one. *)
Lemma missing_host_counterexample :
  let R := product_upgrade "capsule" (Some "sat-template") None image_only
             initial in
  let R' := product_upgrade "capsule" (Some "sat-template") None
              image_without_os initial in
  truthy (environ image_only !! "CAPSULE_HOSTNAME") = false ∧
  truthy (environ image_only !! "RHEV_CAPSULE") = false ∧
  R.1 = Fail (AttributeError none_has_no_strip) ∧
  (no_capsule_message ∉ out R.2) ∧
  truthy (environ image_without_os !! "CAPSULE_HOSTNAME") = false ∧
  truthy (environ image_without_os !! "RHEV_CAPSULE") = false ∧
  R'.1 = Fail (SysExit 1) ∧
  out R'.2 = ["Please provide OS version as rhel7 or rhel6, And retry !"].
Proof.
  split_and!; try (vm_compute; reflexivity).
  vm_compute. intros H. inversion H as [|? ? ? H']. inversion H'.
Qed.

(** C8 (amended): when no hostname is configured for the satellite and
    neither an image nor a RHEV hostname is supplied for it,
    [product_upgrade] prints the message asking for one and exits with
    status 1 having issued nothing.  When this holds of the capsule, no
    capsule instance is ever deleted or created, and the message asking
    for a capsule host is reached once the satellite has been resolved and
    its services restarted: if the satellite is named, or provisioned with
    an OS version and a RHEV hostname, and none of these operations stops
    the run, the run exits with status 1 right after them, the message
    being the last line printed. *)
Theorem missing_host_specification w product sat_image cap_image :
  let R := product_upgrade product sat_image cap_image w initial in
  (existsb (String.eqb product) ["satellite"; "capsule"] = true →
   truthy (environ w !! "SATELLITE_HOSTNAME") = false →
   truthy sat_image = false →
   truthy (environ w !! "RHEV_SATELLITE") = false →
   R = (Fail (SysExit 1),
        {| ops := []; out := [no_satellite_message]; fenv := ∅ |})) ∧
  (product = "capsule" →
   truthy (environ w !! "CAPSULE_HOSTNAME") = false →
   truthy cap_image = false →
   truthy (environ w !! "RHEV_CAPSULE") = false →
   (∀ op, op ∈ ops R.2 → provisions "capsule" op = false) ∧
   R.1 ≠ Ok tt ∧
   (hub_resolved w sat_image = true →
    let before :=
      satellite_resolution w sat_image ++
      [Run (OnHost (satellite_address w)) "katello-service restart" false] in
    unhalted w [] before →
    R.1 = Fail (SysExit 1) ∧ ops R.2 = before ∧
    last (out R.2) = Some no_capsule_message)).
Proof.
  intros R. split.
  - intros Hp Hs Hi Hr. subst R.
    rewrite satellite_unspecified; [done..|]. by rewrite Hi, Hr.
  - intros -> Hc Hi Hr.
    assert (negb (truthy cap_image) &&
            negb (truthy (environ w !! "RHEV_CAPSULE")) = true) as Hn
      by by rewrite Hi, Hr.
    pose proof (capsule_unspecified_hoare w sat_image cap_image Hc Hn initial
                  ltac:(by split)) as H.
    fold R in H. split_and!.
    + intros op Hop. destruct R as [[a|err] s']; [done|].
      by apply (proj1 (Forall_forall _ _) H).
    + intros HR. destruct R as [[a|err] s']; [done | by simpl in HR].
    + intros Hh before U.
      destruct (capsule_unspecified_unhindered (quiet w) sat_image cap_image
                  initial (quiet_unhindered w) Hc Hn Hh)
        as (lines & e' & HQ & Hlast).
      pose proof (lawful_unhalted _ w initial _ _ before
                    (product_upgrade_lawful "capsule" sat_image cap_image)
                    HQ eq_refl U) as HR.
      fold R in HR. by rewrite HR.
Qed.

Lemma missing_host_specification_witness :
  product_upgrade "capsule" None None nothing_specified initial =
    (Fail (SysExit 1),
     {| ops := []; out := [no_satellite_message]; fenv := ∅ |}) ∧
  let R := product_upgrade "capsule" None None explicit_satellite initial in
  (∀ op, op ∈ ops R.2 → provisions "capsule" op = false) ∧
  R.1 ≠ Ok tt ∧
  R.1 = Fail (SysExit 1) ∧
  ops R.2 = [Run (OnHost (Some "sat.example.com")) "katello-service restart"
               false] ∧
  last (out R.2) = Some no_capsule_message.
Proof.
  split.
  - apply (missing_host_specification nothing_specified "capsule" None None);
      reflexivity.
  - destruct (proj2 (missing_host_specification explicit_satellite "capsule"
                       None None) eq_refl eq_refl eq_refl eq_refl)
      as (Hn & Hc & Hr).
    split; [exact Hn|]. split; [exact Hc|].
    apply Hr; [reflexivity|]. intros k op Hk. reflexivity.
Defined.

(** The capsule scenario in full: the satellite is named, nothing is given
    for the capsule. *)
Example capsule_unspecified_run :
  let R := product_upgrade "capsule" None None explicit_satellite initial in
  R.1 = Fail (SysExit 1) ∧
  ops R.2 = [Run (OnHost (Some "sat.example.com")) "katello-service restart"
               false] ∧
  out R.2 = [no_capsule_message].
Proof. split_and!; vm_compute; reflexivity. Qed.

(** * The ways a task can stop *)

Section Ends.
Context (w : World) (F : Failure → Prop).
Implicit Types K : gmap string (option string) → Prop.

Lemma ends_assoc {A B C} K Q (m : M A) (f : A → M B) (g : B → M C) :
  ends w K (m ≫= λ a, f a ≫= g) Q F → ends w K ((m ≫= f) ≫= g) Q F.
Proof.
  intros H s HK. specialize (H s HK). unfold mbind, M_bind in *.
  by destruct (m w s) as [[a|err] s1].
Qed.

(** A task that is the last of its block. *)
Lemma ends_last {A} K Q (m : M A) :
  ends w K (m ≫= mret) Q F → ends w K m Q F.
Proof.
  intros H s HK. specialize (H s HK). unfold mbind, M_bind in *.
  by destruct (m w s) as [[a|err] s1].
Qed.

Lemma ends_ret {A} K (Q : A → _ → Prop) a :
  (∀ e, K e → Q a e) → ends w K (mret a) Q F.
Proof. intros H s HK. by apply H. Qed.

Lemma ends_ret_bind {A B} K Q a (f : A → M B) :
  ends w K (f a) Q F → ends w K (mret a ≫= f) Q F.
Proof. intros H s HK. by apply H. Qed.

Lemma ends_getenv {B} K Q k (f : option string → M B) :
  ends w K (f (environ w !! k)) Q F → ends w K (getenv k ≫= f) Q F.
Proof. intros H s HK. by apply H. Qed.

Lemma ends_env_get {B} K Q k (f : option string → M B) :
  (∀ v, ends w (λ e, K e ∧ v = mjoin (e !! k)) (f v) Q F) →
  ends w K (env_get k ≫= f) Q F.
Proof. intros H s HK. by apply (H _ s). Qed.

Lemma ends_env_set {B} K Q k v (f : unit → M B) :
  ends w (λ e', ∃ e, K e ∧ e' = <[k := v]> e) (f tt) Q F →
  ends w K (env_set k v ≫= f) Q F.
Proof. intros H s HK. apply H. simpl. by exists (fenv s). Qed.

Lemma ends_print {B} K Q line (f : unit → M B) :
  ends w K (f tt) Q F → ends w K (print line ≫= f) Q F.
Proof. intros H s HK. by apply H. Qed.

Lemma ends_time_ctime {B} K Q (f : string → M B) :
  (∀ t, ends w K (f t) Q F) → ends w K (time_ctime ≫= f) Q F.
Proof. intros H s HK. by apply H. Qed.

Lemma ends_reported_major {B} K Q tgt (f : string → M B) :
  ends w K (f (distro_major w tgt)) Q F →
  ends w K (reported_major tgt ≫= f) Q F.
Proof. intros H s HK. by apply H. Qed.

Lemma ends_exec {B} K Q op (f : unit → M B) :
  (tolerant op = false → F (Aborted op)) →
  ends w K (f tt) Q F → ends w K (exec op ≫= f) Q F.
Proof.
  intros HF H s HK. unfold mbind, M_bind, exec.
  destruct (fails w (ops s) op), (tolerant op); simpl; auto;
    by apply (H {| ops := ops s ++ [op]; out := out s; fenv := fenv s |}).
Qed.

Lemma ends_sys_exit {A B} K Q c (f : A → M B) :
  F (SysExit c) → ends w K (sys_exit c ≫= f) Q F.
Proof. by intros HF s HK. Qed.

Lemma ends_read_assigned {A B} K Q x (a : A) (f : A → M B) :
  ends w K (f a) Q F → ends w K (read_local x (Assigned a) ≫= f) Q F.
Proof. intros H s HK. by apply H. Qed.

Lemma ends_read_unassigned {A B} K Q x (f : A → M B) :
  F (UnboundLocal x) → ends w K (read_local x Unassigned ≫= f) Q F.
Proof. by intros HF s HK. Qed.

Lemma ends_execute {A B} K Q (task : Target → M A) host (f : A → M B) :
  (host = None → ∀ e, K e → F (AttributeError none_has_no_strip)) →
  (is_Some host → ends w K (task (OnHost host) ≫= f) Q F) →
  ends w K (execute task host ≫= f) Q F.
Proof.
  intros HN HS s HK. unfold execute. destruct host as [h|].
  - by apply HS.
  - by apply (HN eq_refl (fenv s)).
Qed.

(** A block that leaves the dict as it is. *)
Lemma ends_block {B} K Q (m : M unit) (f : unit → M B) :
  ends w K m (λ _ e, K e) F → ends w K (f tt) Q F →
  ends w K (m ≫= f) Q F.
Proof.
  intros Hm Hf s HK. specialize (Hm s HK). unfold mbind, M_bind.
  destruct (m w s) as [[[]|err] s1]; [by apply Hf | done].
Qed.

Lemma ends_when {B} K Q c body (f : unit → M B) :
  (c = true → ends w K body (λ _ e, K e) F) →
  ends w K (f tt) Q F → ends w K (when c body ≫= f) Q F.
Proof.
  intros Hb Hf. destruct c; [|done].
  apply ends_block; [by apply Hb | done].
Qed.

End Ends.

(** One step through a task, in the order of its statements. *)
Ltac ends_step :=
  cbv beta iota;
  lazymatch goal with
  | |- ends _ _ ((_ ≫= _) ≫= _) _ _ => apply ends_assoc
  | |- ends _ _ (mret _ ≫= _) _ _ => apply ends_ret_bind
  | |- ends _ _ (getenv _ ≫= _) _ _ => apply ends_getenv
  | |- ends _ _ (env_get _ ≫= _) _ _ => apply ends_env_get; intros ?
  | |- ends _ _ (env_set _ _ ≫= _) _ _ => apply ends_env_set
  | |- ends _ _ (print _ ≫= _) _ _ => apply ends_print
  | |- ends _ _ (time_ctime ≫= _) _ _ => apply ends_time_ctime; intros ?
  | |- ends _ _ (reported_major _ ≫= _) _ _ => apply ends_reported_major
  | |- ends _ _ (exec _ ≫= _) _ _ => apply ends_exec; [intros ?|]
  | |- ends _ _ (run _ _ _ ≫= _) _ _ => unfold run
  | |- ends _ _ (put _ _ _ ≫= _) _ _ => unfold put
  | |- ends _ _ (call _ _ _ _ ≫= _) _ _ => unfold call
  | |- ends _ _ (distro_info_major _ ≫= _) _ _ => unfold distro_info_major
  | |- ends _ _ (sys_exit _ ≫= _) _ _ => apply ends_sys_exit
  | |- ends _ _ (read_local _ (Assigned _) ≫= _) _ _ =>
      apply ends_read_assigned
  | |- ends _ _ (read_local _ Unassigned ≫= _) _ _ =>
      apply ends_read_unassigned
  | |- ends _ _ (execute _ _ ≫= _) _ _ =>
      apply ends_execute; [intros ? ? ?|intros ?]
  | |- ends _ _ (execute_ambient _ ≫= _) _ _ => unfold execute_ambient
  | |- ends _ _ (satellite6_upgrade _ _ ≫= _) _ _ =>
      unfold satellite6_upgrade
  | |- ends _ _ (satellite6_capsule_upgrade _ _ ≫= _) _ _ =>
      unfold satellite6_capsule_upgrade
  | |- ends _ _ (when true _ ≫= _) _ _ => unfold when
  | |- ends _ _ (when false _ ≫= _) _ _ => unfold when
  | |- ends _ _ (when _ _ ≫= _) _ _ => apply ends_when; [intros ?|]
  | |- ends _ _ ((if ?c then _ else _) ≫= _) _ _ =>
      first [ apply ends_block; [destruct c eqn:?|]
            | destruct c eqn:? ]
  | |- ends _ _ ((match ?c with Some _ => _ | None => _ end) ≫= _) _ _ =>
      first [ apply ends_block; [destruct c eqn:?|]
            | destruct c eqn:? ]
  | |- ends _ _ (_ ≫= _) _ _ => fail "no rule for this statement"
  | |- ends _ _ (mret _) _ _ => apply ends_ret; intros ? ?
  | |- ends _ _ _ _ _ => apply ends_last
  end.


Lemma product_upgrade_fails_loudly w product sat_image cap_image :
  ends w (λ _, True) (product_upgrade product sat_image cap_image)
    (λ _ _, True) (λ e, status e ≠ 0%Z).
Proof.
  unfold product_upgrade. repeat ends_step; done.
Qed.

(** * Version checks *)

(** C1 (as stated, refuted): a run for the unsupported target version 7.0
    exits with status 1 only after the satellite instance has been deleted
    and created and the satellite services restarted. *)
Lemma version_gate_counterexample :
  let R := product_upgrade "satellite" (Some "sat-template") None
             provisioned_70 initial in
  accepted Hub provisioned_70 = false ∧
  R.1 = Fail (SysExit 1) ∧
  ops R.2 =
    [ Call Ambient delete_rhevm_instance
        [VStr "upgrade_satellite_auto_rhel7"] [];
      Call Ambient create_rhevm_instance
        [VStr "upgrade_satellite_auto_rhel7"; VStr "sat-template"] [];
      Call Ambient host_pings [VStr "sat.rhev.example.com"] [];
      Call (OnHost (Some "sat.rhev.example.com")) subscribe [] [];
      Run (OnHost (Some "sat.rhev.example.com")) "katello-service restart"
        false ].
Proof. split_and!; vm_compute; reflexivity. Qed.

Lemma product_upgrade_refuses w product sat_image cap_image :
  accepted Hub w = false ∨
  (product = "capsule" ∧ accepted Subordinate w = false) →
  hoare w (λ _, True) (product_upgrade product sat_image cap_image)
    (λ _, False) (λ _, True).
Proof.
  intros Hv. destruct (accepted Hub w) eqn:Hh.
  - destruct Hv as [|[-> Hc]]; [done|].
    unfold product_upgrade. repeat hoare_step; done.
  - clear Hv. unfold product_upgrade. repeat hoare_step; done.
Qed.

Lemma known_product product :
  existsb (String.eqb product) ["satellite"; "capsule"] = true →
  product = "satellite" ∨ product = "capsule".
Proof.
  simpl. destruct (String.eqb_spec product "satellite"); [by left|].
  destruct (String.eqb_spec product "capsule"); [by right | done].
Qed.

(** Compare the operations a stepped run has issued with a plan, under
    the conditions found in the context. *)
Ltac read_plan :=
  unfold preparation, satellite_resolution, capsule_resolution,
    satellite_address, capsule_address, recorded;
  repeat match goal with H : _ = _ |- _ => rewrite H end;
  cbn [app String.eqb Ascii.eqb Bool.eqb is_none negb take];
  rewrite ?app_nil_r; reflexivity.

(** The conditions under which the satellite is resolved. *)
Lemma hub_resolved_provisioned w sat_image :
  truthy (environ w !! "SATELLITE_HOSTNAME") = false →
  hub_resolved w sat_image = true →
  negb (truthy sat_image) &&
    negb (truthy (environ w !! "RHEV_SATELLITE")) = false ∧
  truthy (environ w !! "OS") = true ∧
  is_none (environ w !! "RHEV_SATELLITE") = false.
Proof.
  intros Hs Hr. unfold hub_resolved in Hr. rewrite Hs in Hr. simpl in Hr.
  apply andb_prop in Hr as [Hr Hn]. apply andb_prop in Hr as [Hg Ho].
  apply negb_true_iff in Hn. split_and!; try done.
  by destruct (truthy sat_image), (truthy (environ w !! "RHEV_SATELLITE")).
Qed.

Lemma product_upgrade_turned_away w product sat_image cap_image s :
  unhindered w →
  resolved w product sat_image cap_image = true →
  accepted Hub w = false →
  ∃ lines e',
    product_upgrade product sat_image cap_image w s =
    (Fail (SysExit 1),
     {| ops := ops s ++ preparation w product sat_image cap_image;
        out := out s ++ lines;
        fenv := e' |}) ∧
    last lines = Some wrong_target_message.
Proof.
  intros Hw Hres Hv. simpl in Hv. destruct s as [o l e].
  cbn [ops out fenv].
  cut (∃ new lines e',
         stops (product_upgrade product sat_image cap_image) w o l e
           (SysExit 1) new lines e' ∧
         new = preparation w product sat_image cap_image ∧
         last lines = Some wrong_target_message).
  { intros (new & lines & e' & H & -> & Hl). by exists lines, e'. }
  unfold resolved in Hres.
  apply andb_prop in Hres as [Hres Hcap].
  apply andb_prop in Hres as [Hp Hsat].
  destruct (known_product _ Hp) as [-> | ->]; simpl in Hcap; clear Hp.
  - clear Hcap.
    destruct (truthy (environ w !! "SATELLITE_HOSTNAME")) eqn:Hs.
    + eexists _, _, _; split;
        [unfold product_upgrade; repeat stops_step
        | split; [read_plan | reflexivity]].
    + destruct (hub_resolved_provisioned w sat_image Hs Hsat)
        as (Hg & Ho & Hn).
      eexists _, _, _; split;
        [unfold product_upgrade; repeat stops_step
        | split; [read_plan | reflexivity]].
  - destruct (is_none (environ w !! "CAPSULE_URL")) eqn:Hu;
    destruct (truthy (environ w !! "SATELLITE_HOSTNAME")) eqn:Hs;
    destruct (truthy (environ w !! "CAPSULE_HOSTNAME")) eqn:Hc;
      simpl in Hcap; rewrite ?andb_false_r in Hcap; try done;
      try (rewrite andb_true_r in Hcap;
           assert (negb (truthy cap_image) &&
                   negb (truthy (environ w !! "RHEV_CAPSULE")) = false)
             as Hg' by (by destruct (truthy cap_image),
                             (truthy (environ w !! "RHEV_CAPSULE"))));
      try (destruct (hub_resolved_provisioned w sat_image Hs Hsat)
             as (Hg & Ho & Hn));
      (eexists _, _, _; split;
       [unfold product_upgrade; repeat stops_step
       | split; [read_plan | reflexivity]]).
Qed.

(** C1 (amended): each workflow checks its versions before any operation
    of its own, and a [product_upgrade] run with an unsupported version
    always ends with a status other than 0; but the check is made when the
    workflow starts, not when [product_upgrade] does.  With an unsupported
    target version, hosts that resolve and no operation stopping the run,
    everything that precedes the upgrade of the satellite is issued before
    the exit: the provisioning of the satellite (if it is not named), the
    restart of its services and, for the capsule product, the provisioning
    of the capsule (if it is not named), the copy of the ssh key and the
    sync of the capsule repositories (if a capsule URL is given). *)
Theorem version_gate w :
  (∀ role pw tgt s,
     accepted role w = false →
     ∃ line,
       workflow role pw tgt w s =
       (Fail (SysExit 1),
        {| ops := ops s; out := out s ++ [line]; fenv := fenv s |})) ∧
  (∀ product sat_image cap_image s,
     accepted Hub w = false ∨
     (product = "capsule" ∧ accepted Subordinate w = false) →
     ∃ err, (product_upgrade product sat_image cap_image w s).1 = Fail err ∧
            status err ≠ 0%Z) ∧
  (∀ product sat_image cap_image s,
     resolved w product sat_image cap_image = true →
     accepted Hub w = false →
     let before := preparation w product sat_image cap_image in
     unhalted w (ops s) before →
     let R := product_upgrade product sat_image cap_image w s in
     R.1 = Fail (SysExit 1) ∧ ops R.2 = ops s ++ before ∧
     last (out R.2) =
       Some ("Wrong Satellite Version Provided to upgrade to. " +:+
             "Provide one of 6.1, 6.2")).
Proof.
  split_and!.
  - intros role pw tgt s Hv. by apply workflow_rejects.
  - intros product sat_image cap_image s Hv.
    pose proof (product_upgrade_refuses w product sat_image cap_image Hv s I)
      as H.
    pose proof (product_upgrade_fails_loudly w product sat_image cap_image
                  s I) as Hs.
    destruct (product_upgrade product sat_image cap_image w s)
      as [[a|err] s']; [done | by exists err].
  - intros product sat_image cap_image s Hres Hv before U R.
    destruct (product_upgrade_turned_away (quiet w) product sat_image
                cap_image s (quiet_unhindered w) Hres Hv)
      as (lines & e' & HQ & Hlast).
    pose proof (lawful_unhalted _ w s _ _ before
                  (product_upgrade_lawful product sat_image cap_image)
                  HQ eq_refl U) as HR.
    fold R in HR. rewrite HR. split_and!; try done. simpl.
    by rewrite last_app, Hlast.
Qed.

Lemma version_gate_witness :
  (∃ line,
     satellite6_upgrade None Ambient provisioned_70 initial =
     (Fail (SysExit 1), {| ops := []; out := [] ++ [line]; fenv := ∅ |})) ∧
  (∃ err,
     (product_upgrade "satellite" (Some "sat-template") None provisioned_70
        initial).1 = Fail err ∧ status err ≠ 0%Z) ∧
  let R := product_upgrade "capsule" (Some "sat-template")
             (Some "cap-template") provisioned_70 initial in
  R.1 = Fail (SysExit 1) ∧
  ops R.2 =
    [] ++ preparation provisioned_70 "capsule" (Some "sat-template")
            (Some "cap-template") ∧
  last (out R.2) =
    Some ("Wrong Satellite Version Provided to upgrade to. " +:+
          "Provide one of 6.1, 6.2").
Proof.
  split_and!.
  - apply (proj1 (version_gate provisioned_70) Hub None Ambient initial).
    reflexivity.
  - apply (proj1 (proj2 (version_gate provisioned_70))). left. reflexivity.
  - apply (proj2 (proj2 (version_gate provisioned_70)) "capsule"
             (Some "sat-template") (Some "cap-template") initial).
    + reflexivity.
    + reflexivity.
    + intros k op Hk. reflexivity.
Defined.

(** * Further properties of the tasks *)

(** ** Early exits of product_upgrade *)

(** X1: a product name other than [satellite] and [capsule] makes
    [product_upgrade] print the two names and exit with status 1 before it
    reads anything else: nothing is issued and the shared dict is left
    alone. *)
Theorem unknown_product_exits w product sat_image cap_image s :
  product ≠ "satellite" → product ≠ "capsule" →
  product_upgrade product sat_image cap_image w s =
  (Fail (SysExit 1),
   {| ops := ops s;
      out := out s ++ ["Product name should be one of satellite, capsule"];
      fenv := fenv s |}).
Proof.
  intros Hs Hc. destruct s as [o l e]. cbn [ops out fenv].
  assert (existsb (String.eqb product) ["satellite"; "capsule"] = false) as Hp.
  { simpl. apply String.eqb_neq in Hs, Hc. by rewrite Hs, Hc. }
  cut (∃ new lines,
         stops (product_upgrade product sat_image cap_image) w o l e
           (SysExit 1) new lines e ∧
         new = [] ∧
         lines = ["Product name should be one of satellite, capsule"]).
  { intros (new & lines & H & -> & ->). unfold stops in H.
    by rewrite app_nil_r in H. }
  eexists _, _; split;
    [unfold product_upgrade; repeat stops_step | split; reflexivity].
Qed.

Lemma unknown_product_exits_witness :
  product_upgrade "sat6" None None explicit_satellite initial =
  (Fail (SysExit 1),
   {| ops := [];
      out := ["Product name should be one of satellite, capsule"];
      fenv := ∅ |}).
Proof.
  apply (unknown_product_exits explicit_satellite "sat6" None None initial);
    discriminate.
Defined.

(** X2: when the satellite has to be provisioned (no [SATELLITE_HOSTNAME],
    but an image or [RHEV_SATELLITE]) and [OS] is unset or empty,
    [product_upgrade] asks for the OS version and exits with status 1
    before any instance is deleted or created. *)
Theorem missing_os_exits w product sat_image cap_image s :
  product = "satellite" ∨ product = "capsule" →
  truthy (environ w !! "SATELLITE_HOSTNAME") = false →
  truthy sat_image = true ∨ truthy (environ w !! "RHEV_SATELLITE") = true →
  truthy (environ w !! "OS") = false →
  product_upgrade product sat_image cap_image w s =
  (Fail (SysExit 1),
   {| ops := ops s;
      out := out s ++
             ["Please provide OS version as rhel7 or rhel6, And retry !"];
      fenv := fenv s |}).
Proof.
  intros Hp Hs Hi Ho. destruct s as [o l e]. cbn [ops out fenv].
  assert (negb (existsb (String.eqb product) ["satellite"; "capsule"])
          = false) as Hp'.
  { by destruct Hp as [-> | ->]. }
  assert (negb (truthy sat_image) &&
          negb (truthy (environ w !! "RHEV_SATELLITE")) = false) as Hi'.
  { destruct Hi as [-> | ->]; [done|]. by rewrite andb_false_r. }
  assert (negb (truthy (environ w !! "OS")) = true) as Ho' by by rewrite Ho.
  cut (∃ new lines,
         stops (product_upgrade product sat_image cap_image) w o l e
           (SysExit 1) new lines e ∧
         new = [] ∧
         lines = ["Please provide OS version as rhel7 or rhel6, And retry !"]).
  { intros (new & lines & H & -> & ->). unfold stops in H.
    by rewrite app_nil_r in H. }
  eexists _, _; split;
    [unfold product_upgrade; repeat stops_step | split; reflexivity].
Qed.

Lemma missing_os_exits_witness :
  product_upgrade "satellite" (Some "sat-template") None image_without_os
    initial =
  (Fail (SysExit 1),
   {| ops := [];
      out := ["Please provide OS version as rhel7 or rhel6, And retry !"];
      fenv := ∅ |}).
Proof.
  apply (missing_os_exits image_without_os "satellite" (Some "sat-template")
           None initial);
    [by left | reflexivity | by left | reflexivity].
Defined.

(** ** The admin password *)

(** X3: [satellite6_capsule_upgrade] works out an admin password and never
    uses it: whatever is passed for it, the run is the same. *)
Theorem capsule_ignores_admin_password pw pw' tgt w s :
  satellite6_capsule_upgrade pw tgt w s =
  satellite6_capsule_upgrade pw' tgt w s.
Proof.
  unfold satellite6_capsule_upgrade, mbind, M_bind, getenv, env_get, when.
  destruct (negb (py_in (environ w !! "FROM_VERSION") _)); [done|].
  destruct (negb (py_in (environ w !! "TO_VERSION") _)); [done|].
  by destruct pw, pw'.
Qed.

(** ** A run replays the plan *)

Lemma unhalted_cons w pre op l :
  unhalted w pre (op :: l) →
  halts w pre op = false ∧ unhalted w (pre ++ [op]) l.
Proof.
  intros H. split.
  - specialize (H 0 op eq_refl). simpl in H. by rewrite app_nil_r in H.
  - intros k x Hk. specialize (H (S k) x Hk). simpl in H.
    by rewrite <- app_assoc.
Qed.

Lemma replay_unhalted w pre l :
  unhalted w pre l → replay w pre l = (Ok tt, l).
Proof.
  revert pre. induction l as [|op l IH]; intros pre H; [done|].
  apply unhalted_cons in H as [H0 H]. simpl. rewrite H0.
  by rewrite (IH _ H).
Qed.

Lemma replay_halted w pre done op rest :
  unhalted w pre done → halts w (pre ++ done) op = true →
  replay w pre (done ++ op :: rest) = (Fail (Aborted op), done ++ [op]).
Proof.
  revert pre. induction done as [|x done IH]; intros pre H Hh; simpl.
  - rewrite app_nil_r in Hh. by rewrite Hh.
  - apply unhalted_cons in H as [H0 H]. rewrite H0.
    rewrite (IH (pre ++ [x]) H); [done|]. by rewrite <- app_assoc.
Qed.

Lemma replay_to_completed w l : replay_to w l (Ok tt) = replay w [] l.
Proof.
  unfold replay_to. by destruct (replay w [] l) as [[[]|err] t].
Qed.

(** Any run of a lawful task, started with nothing issued, replays what
    its unfailing run issues and, when nothing stops it, ends as that run
    does. *)
Lemma lawful_replay (m : M unit) w s r q plan :
  lawful m → ops s = [] →
  m (quiet w) s = (r, q) → ops q = plan →
  ((m w s).1, ops (m w s).2) = replay_to w plan r.
Proof.
  intros Hm Hs Hq <-.
  pose proof (lawful_against_plan m w s r q (ops q) Hm Hq) as H.
  rewrite Hs in H. specialize (H eq_refl). unfold replay_to.
  destruct (m w s) as [[a|[c|op|x|msg]] s']; simpl in *.
  1,2,4,5: destruct H as [[= <- <-] U]; by rewrite replay_unhalted.
  destruct H as (done & rest & -> & -> & U & Hh).
  by rewrite (replay_halted w [] done op rest).
Qed.

Lemma workflow_replay role w pw tgt e :
  accepted role w = true →
  let R := workflow role pw tgt w (fresh e) in
  (R.1, ops R.2) =
  replay_to w (script role w pw tgt (fresh e)) (ending role (fresh e)).
Proof.
  intros Hv R.
  destruct (workflow_script role w pw tgt (fresh e) Hv) as (q & Hq & Hp).
  by apply (lawful_replay _ w (fresh e) _ q _ (workflow_lawful role pw tgt)).
Qed.

(** X4: once its versions are accepted, a workflow does nothing but replay
    its plan against the failures of the remote layer: every operation is
    issued once, in the order of the plan, up to and including the first
    one that fails without [warn_only], which aborts the run; there is no
    retry and nothing is skipped.  A capsule upgrade started with no
    satellite host in the shared dict replays the part of its plan that
    precedes the certificate steps and, if nothing aborted it, then stops
    as [execute] is given [None] for a host. *)
Theorem run_replays_plan role w pw tgt e :
  accepted role w = true →
  let R := workflow role pw tgt w (fresh e) in
  (stranded role (fresh e) = false →
   (R.1, ops R.2) = replay w [] (plan role w pw tgt (fresh e))) ∧
  (stranded role (fresh e) = true →
   (R.1, ops R.2) =
   replay_to w (capsule_opening w tgt)
     (Fail (AttributeError none_has_no_strip))).
Proof.
  intros Hv R.
  pose proof (workflow_replay role w pw tgt e Hv) as H. fold R in H.
  unfold script, ending in H.
  split; intros Hs; rewrite Hs in H; [|done].
  by rewrite replay_to_completed in H.
Qed.

Lemma run_replays_plan_witness :
  (let R := workflow Hub None Ambient flaky_cache (fresh ∅) in
   (R.1, ops R.2) =
   replay flaky_cache [] (plan Hub flaky_cache None Ambient (fresh ∅))) ∧
  (let R := workflow Subordinate None Ambient capsule_60_61 (fresh ∅) in
   (R.1, ops R.2) =
   replay_to capsule_60_61 (capsule_opening capsule_60_61 Ambient)
     (Fail (AttributeError none_has_no_strip))).
Proof.
  split.
  - apply (run_replays_plan Hub flaky_cache None Ambient ∅); reflexivity.
  - apply (run_replays_plan Subordinate capsule_60_61 None Ambient ∅);
      reflexivity.
Defined.

(** ** Conditional phases *)

Lemma last_app_Some {X} (l1 l2 : list X) x :
  last l2 = Some x → last (l1 ++ l2) = Some x.
Proof. intros H. by rewrite last_app, H. Qed.

(** X5: the only [hammer] command of the satellite workflow is the
    tolerant ping at the end, run with the password given as argument
    (even an empty one), else with [ADMIN_PASSWORD] (even if empty), else
    with [changeme]. *)
Theorem admin_password_precedence w pw tgt e :
  let R := satellite6_upgrade pw tgt w (fresh e) in
  let password :=
    match pw, environ w !! "ADMIN_PASSWORD" with
    | Some p, _ => p
    | None, Some p => p
    | None, None => "changeme"
    end in
  let ping := Run tgt ("hammer -u admin -p " +:+ password +:+ " ping") true in
  (∀ op, op ∈ ops R.2 → is_api_ping op = true → op = ping) ∧
  (R.1 = Ok tt → last (ops R.2) = Some (Run tgt "katello-service status" true)
                 ∧ ping ∈ ops R.2).
Proof.
  intros R password ping.
  assert (password = password_of w pw) as Hpw.
  { unfold password, password_of. destruct pw; [done|].
    by destruct (environ w !! "ADMIN_PASSWORD"). }
  clearbody password. subst password. split.
  - assert (Forall (λ op, is_api_ping op = true → op = ping)
              (hub_plan w pw tgt)) as H.
    { unfold hub_plan, hub_phases.
      each_phase; first [by intros [=] | done | idtac].
      - by destruct (environ w !! "BASE_URL").
      - by destruct (py_eq _ _). }
    apply (run_every Hub w pw tgt e) in H. rewrite Forall_forall in H.
    exact H.
  - intros HR. subst R.
    change (satellite6_upgrade pw tgt) with (workflow Hub pw tgt).
    rewrite (run_completed Hub w pw tgt e HR). cbn [plan].
    unfold hub_plan, hub_phases. split.
    + do 8 apply last_app_Some. reflexivity.
    + find_phase.
Qed.

Lemma admin_password_precedence_witness :
  let R := satellite6_upgrade None Ambient empty_password (fresh ∅) in
  last (ops R.2) = Some (Run Ambient "katello-service status" true) ∧
  Run Ambient "hammer -u admin -p  ping" true ∈ ops R.2.
Proof.
  apply (admin_password_precedence empty_password None Ambient ∅).
  vm_compute; reflexivity.
Defined.

Lemma plan_reboots role w pw tgt s :
  List.filter is_reboot (plan role w pw tgt s) =
  if truthy (match role with
             | Hub => environ w !! "RHEV_SATELLITE"
             | Subordinate => environ w !! "RHEV_CAPSULE"
             end)
  then replicate (match role with Hub => 2 | Subordinate => 1 end)
         (Call tgt reboot [VInt 120] [])
  else [].
Proof.
  destruct role; simpl.
  - unfold hub_plan, hub_phases.
    by destruct (truthy _), (py_eq _ _), (environ w !! "BASE_URL").
  - unfold capsule_plan, capsule_phases.
    by destruct (truthy _), (is_none _),
         (py_eq (environ w !! "FROM_VERSION") _),
         (py_eq (environ w !! "TO_VERSION") _).
Qed.

(** X6: a workflow reboots its host only when the RHEV variable of its
    role ([RHEV_SATELLITE], [RHEV_CAPSULE]) is set and not empty; then a
    completed satellite upgrade has rebooted twice and a completed capsule
    upgrade once, each time with [reboot(120)]. *)
Theorem reboots_follow_rhev_flag role w pw tgt e :
  let R := workflow role pw tgt w (fresh e) in
  let flag :=
    match role with
    | Hub => environ w !! "RHEV_SATELLITE"
    | Subordinate => environ w !! "RHEV_CAPSULE"
    end in
  let expected :=
    if truthy flag
    then replicate (match role with Hub => 2 | Subordinate => 1 end)
           (Call tgt reboot [VInt 120] [])
    else [] in
  List.filter is_reboot (ops R.2) `prefix_of` expected ∧
  (R.1 = Ok tt → List.filter is_reboot (ops R.2) = expected).
Proof.
  intros R flag expected. subst R flag expected.
  rewrite <- (plan_reboots role w pw tgt (fresh e)). split.
  - apply run_filter.
  - intros HR. by rewrite (run_completed role w pw tgt e HR).
Qed.

Lemma reboots_follow_rhev_flag_witness :
  let R := workflow Subordinate None Ambient rhev_capsule (fresh named_hosts) in
  List.filter is_reboot (ops R.2) = [Call Ambient reboot [VInt 120] []].
Proof.
  apply (reboots_follow_rhev_flag Subordinate rhev_capsule None Ambient
           named_hosts).
  vm_compute; reflexivity.
Defined.

Lemma hub_plan_service_steps w pw tgt :
  List.filter is_service_step (hub_plan w pw tgt) =
  if py_eq (environ w !! "TO_VERSION") "6.1"
  then [ Run tgt "katello-service stop" false;
         Run tgt "service-wait mongod start" false;
         Run tgt "katello-service stop" false;
         Run tgt "service-wait mongod start" false ]
  else [ Run tgt "katello-service stop" false;
         Run tgt "katello-service stop" false ].
Proof.
  unfold hub_plan, hub_phases.
  by destruct (truthy _), (py_eq _ _), (environ w !! "BASE_URL").
Qed.

(** X7: the satellite workflow stops the katello services twice; for the
    target version 6.1 each stop is followed by a wait for mongod to start,
    for 6.2 mongod is never waited for. *)
Theorem mongod_wait_only_for_61 w pw tgt e :
  let R := satellite6_upgrade pw tgt w (fresh e) in
  let stop := Run tgt "katello-service stop" false in
  let wait := Run tgt "service-wait mongod start" false in
  let expected :=
    if py_eq (environ w !! "TO_VERSION") "6.1"
    then [stop; wait; stop; wait] else [stop; stop] in
  List.filter is_service_step (ops R.2) `prefix_of` expected ∧
  (R.1 = Ok tt → List.filter is_service_step (ops R.2) = expected).
Proof.
  intros R stop wait expected. subst R stop wait expected.
  rewrite <- (hub_plan_service_steps w pw tgt). split.
  - apply (run_filter Hub w pw tgt e).
  - intros HR.
    change (satellite6_upgrade pw tgt) with (workflow Hub pw tgt).
    by rewrite (run_completed Hub w pw tgt e HR).
Qed.

Lemma mongod_wait_only_for_61_witness :
  let R := satellite6_upgrade None Ambient to_61 (fresh ∅) in
  List.filter is_service_step (ops R.2) =
  [ Run Ambient "katello-service stop" false;
    Run Ambient "service-wait mongod start" false;
    Run Ambient "katello-service stop" false;
    Run Ambient "service-wait mongod start" false ].
Proof.
  apply (mongod_wait_only_for_61 to_61 None Ambient ∅).
  vm_compute; reflexivity.
Defined.

(** ** Where operations run *)

(** X8: every operation of the satellite workflow runs on the host the
    task was started for; so does every operation of the capsule workflow
    except the two certificate steps, which run on the host stored under
    [satellite_host]. *)
Theorem workflow_targets w pw tgt e :
  (∀ op, op ∈ ops (satellite6_upgrade pw tgt w (fresh e)).2 →
         target op = tgt) ∧
  (∀ op, op ∈ ops (satellite6_capsule_upgrade pw tgt w (fresh e)).2 →
         target op = if is_cert_op op
                     then OnHost (mjoin (e !! "satellite_host")) else tgt).
Proof.
  split.
  - assert (Forall (λ op, target op = tgt) (hub_plan w pw tgt)) as H.
    { unfold hub_plan, hub_phases. each_phase; first [done | idtac].
      - by destruct (environ w !! "BASE_URL").
      - by destruct (py_eq _ _). }
    apply (run_every Hub w pw tgt e) in H. by rewrite Forall_forall in H.
  - assert (Forall (λ op, target op =
                          if is_cert_op op
                          then OnHost (mjoin (e !! "satellite_host"))
                          else tgt)
              (plan Subordinate w pw tgt (fresh e))) as H.
    { simpl. unfold capsule_plan, capsule_phases.
      each_phase; first [done | idtac]. by destruct (py_eq _ _). }
    apply (run_every Subordinate w pw tgt e) in H.
    by rewrite Forall_forall in H.
Qed.

(** ** Equal source and target versions *)

(** X9: the version checks of the capsule workflow accept 6.1 both as
    source and as target; without a custom URL a completed run then
    enables the capsule repository of 6.1 and disables that same
    repository right after. *)
Theorem capsule_same_version w pw tgt e :
  environ w !! "FROM_VERSION" = Some "6.1" →
  environ w !! "TO_VERSION" = Some "6.1" →
  environ w !! "CAPSULE_URL" = None →
  let R := satellite6_capsule_upgrade pw tgt w (fresh e) in
  let repo :=
    "rhel-" +:+ distro_major w tgt +:+ "-server-satellite-capsule-6.1-rpms" in
  accepted Subordinate w = true ∧
  (R.1 = Ok tt →
   List.filter is_repo_op (ops R.2) =
   [ Call tgt enable_repos [VStr repo] [];
     Call tgt disable_repos [VStr repo] [] ]).
Proof.
  intros Hf Hv Hu R repo. split.
  - simpl. by rewrite Hf, Hv.
  - intros HR. subst R repo.
    destruct (capsule_run_repo_ops w pw tgt e) as [_ H].
    rewrite (H HR). unfold capsule_repo_ops. by rewrite Hf, Hv, Hu.
Qed.

Lemma capsule_same_version_witness :
  let R := satellite6_capsule_upgrade None Ambient capsule_61_61
             (fresh named_hosts) in
  R.1 = Ok tt ∧
  List.filter is_repo_op (ops R.2) =
  [ Call Ambient enable_repos
      [VStr "rhel-7-server-satellite-capsule-6.1-rpms"] [];
    Call Ambient disable_repos
      [VStr "rhel-7-server-satellite-capsule-6.1-rpms"] [] ].
Proof.
  assert ((satellite6_capsule_upgrade None Ambient capsule_61_61
             (fresh named_hosts)).1 = Ok tt) as HR
    by (vm_compute; reflexivity).
  split; [exact HR|].
  by apply (capsule_same_version capsule_61_61 None Ambient named_hosts
              eq_refl eq_refl eq_refl).
Defined.

(** ** The order of a whole product upgrade *)

Lemma issues_bind {A B} (m : M A) (f : A → M B) w o e a n1 e1 b n2 e2 :
  issues m w o e a n1 e1 →
  issues (f a) w (o ++ n1) e1 b n2 e2 →
  issues (m ≫= f) w o e b (n1 ++ n2) e2.
Proof.
  intros Hm Hf l. destruct (Hm l) as (l1 & H1).
  destruct (Hf (l ++ l1)) as (l2 & H2).
  exists (l1 ++ l2). by eapply yields_bind.
Qed.

Lemma issues_when_true c body w o e new e' :
  c = true → issues body w o e tt new e' →
  issues (when c body) w o e tt new e'.
Proof. by intros ->. Qed.

Lemma issues_workflow role w pw tgt o e :
  unhindered w → accepted role w = true →
  stranded role {| ops := o; out := []; fenv := e |} = false →
  issues (workflow role pw tgt) w o e tt
    (plan role w pw tgt {| ops := o; out := []; fenv := e |}) e.
Proof.
  intros Hw Hv Hs l.
  destruct (workflow_unhindered role w pw tgt
              {| ops := o; out := l; fenv := e |} Hw Hv) as (lines & H).
  exists lines. unfold yields. rewrite H. unfold ending, script.
  destruct role; [done|]. simpl in *. by rewrite Hs.
Qed.

Lemma strands_bind_l {A B} (m : M A) (f : A → M B) w o e err new e' :
  strands m w o e err new e' → strands (m ≫= f) w o e err new e'.
Proof.
  intros Hm l. destruct (Hm l) as (lines & H).
  exists lines. by apply stops_bind_l.
Qed.

Lemma strands_bind_r {A B} (m : M A) (f : A → M B) w o e a n1 e1 err n2 e2 :
  issues m w o e a n1 e1 →
  strands (f a) w (o ++ n1) e1 err n2 e2 →
  strands (m ≫= f) w o e err (n1 ++ n2) e2.
Proof.
  intros Hm Hf l. destruct (Hm l) as (l1 & H1).
  destruct (Hf (l ++ l1)) as (l2 & H2).
  exists (l1 ++ l2). by eapply stops_bind_r.
Qed.

Lemma strands_when c body w o e err new e' :
  c = true → strands body w o e err new e' →
  strands (when c body) w o e err new e'.
Proof. by intros ->. Qed.

Lemma strands_workflow role w pw tgt o e :
  unhindered w → accepted role w = true →
  stranded role {| ops := o; out := []; fenv := e |} = true →
  strands (workflow role pw tgt) w o e (AttributeError none_has_no_strip)
    (capsule_opening w tgt) e.
Proof.
  intros Hw Hv Hs l.
  destruct (workflow_unhindered role w pw tgt
              {| ops := o; out := l; fenv := e |} Hw Hv) as (lines & H).
  exists lines. unfold stops. rewrite H. unfold ending, script.
  destruct role; [done|]. simpl in *. by rewrite Hs.
Qed.

(** Whether the capsule workflow finds a satellite host in the dict. *)
Ltac read_dict :=
  unfold stranded; cbn [fenv];
  rewrite ?lookup_insert_eq, ?lookup_insert_ne, ?lookup_empty by done;
  first [ reflexivity | assumption ].

Ltac issues_step :=
  cbv beta iota;
  lazymatch goal with
  | |- issues (satellite6_upgrade _ _) _ _ _ _ _ _ =>
      apply (issues_workflow Hub); [assumption | assumption | reflexivity]
  | |- issues (satellite6_capsule_upgrade _ _) _ _ _ _ _ _ =>
      apply (issues_workflow Subordinate);
        [assumption | assumption | read_dict]
  | |- issues (_ ≫= _) _ _ _ _ _ _ => eapply issues_bind
  | |- issues (execute ?t ?h) _ _ _ _ _ _ =>
      rewrite (execute_on t h) by host_known
  | |- issues (when ?c _) _ _ _ _ _ _ =>
      first [ eapply issues_when_true; [yields_cond|]
            | let l := fresh "l" in
              intros l; eexists; solve [repeat yields_step] ]
  | |- issues _ _ _ _ _ _ _ =>
      let l := fresh "l" in
      intros l; eexists; solve [repeat yields_step]
  end.

Ltac strands_step :=
  cbv beta iota;
  lazymatch goal with
  | |- strands (satellite6_capsule_upgrade _ _) _ _ _ _ _ _ =>
      apply (strands_workflow Subordinate);
        [assumption | assumption | read_dict]
  | |- strands (_ ≫= _) _ _ _ _ _ _ =>
      first [ let l := fresh "l" in
              intros l; eexists; solve [repeat stops_step]
            | eapply strands_bind_r; [solve [repeat issues_step]|]
            | eapply strands_bind_l ]
  | |- strands (execute ?t ?h) _ _ _ _ _ _ =>
      first [ rewrite (execute_on t h) by host_known
            | let l := fresh "l" in
              intros l; eexists; solve [repeat stops_step] ]
  | |- strands (when ?c _) _ _ _ _ _ _ =>
      eapply strands_when; [yields_cond|]
  | |- strands (if ?c then _ else _) _ _ _ _ _ _ => decide_cond c
  | |- strands _ _ _ _ _ _ _ =>
      let l := fresh "l" in
      intros l; eexists; solve [repeat stops_step]
  end.

(** Compare what a stepped run has issued with the script of the request,
    and the way it ended with its ending. *)
Ltac read_script :=
  unfold product_script, product_plan;
  read_plan.

Ltac read_ending Hconf :=
  unfold product_ending, feasible; rewrite Hconf;
  repeat match goal with H : _ = _ |- _ => rewrite H end;
  reflexivity.

Ltac product_leaf_ok Hconf :=
  eexists _, _, _; split;
  [ left; split;
    [reflexivity | unfold product_upgrade; repeat issues_step]
  | split; [read_ending Hconf | read_script] ].

Ltac product_leaf_stranded Hconf :=
  eexists _, _, _; split;
  [ right; eexists; split;
    [reflexivity | unfold product_upgrade; repeat strands_step]
  | split; [read_ending Hconf | read_script] ].

Lemma product_upgrade_unhindered w product sat_image cap_image :
  unhindered w →
  configured w product sat_image cap_image = true →
  ∃ lines e',
    product_upgrade product sat_image cap_image w initial =
    (product_ending w product sat_image cap_image,
     {| ops := product_script w product sat_image cap_image;
        out := lines; fenv := e' |}).
Proof.
  intros Hw Hconf.
  cut (∃ r new e',
         ((r = Ok tt ∧
           issues (product_upgrade product sat_image cap_image) w [] ∅ tt
             new e') ∨
          (∃ err, r = Fail err ∧
             strands (product_upgrade product sat_image cap_image) w [] ∅
               err new e')) ∧
         r = product_ending w product sat_image cap_image ∧
         new = product_script w product sat_image cap_image).
  { intros (r & new & e' & H & -> & ->).
    destruct H as [[E H] | (err & E & H)]; destruct (H []) as (lines & Hl);
      exists lines, e'; rewrite E.
    - exact Hl.
    - exact Hl. }
  pose proof Hconf as Hc0. unfold configured in Hc0.
  apply andb_prop in Hc0 as [Hc0 Hcap].
  apply andb_prop in Hc0 as [Hc0 Hhub].
  apply andb_prop in Hc0 as [Hp Hsat].
  destruct (known_product _ Hp) as [-> | ->]; simpl in Hcap; clear Hp.
  - clear Hcap.
    destruct (truthy (environ w !! "SATELLITE_HOSTNAME")) eqn:Hs;
      simpl in Hsat.
    + product_leaf_ok Hconf.
    + apply andb_prop in Hsat as [Hi Ho]. apply negb_true_iff in Hi.
      destruct (is_none (environ w !! "RHEV_SATELLITE")) eqn:Hn.
      * product_leaf_stranded Hconf.
      * product_leaf_ok Hconf.
  - apply andb_prop in Hcap as [Hcap Hsub].
    destruct (is_none (environ w !! "CAPSULE_URL")) eqn:Hu;
    destruct (truthy (environ w !! "SATELLITE_HOSTNAME")) eqn:Hs;
      simpl in Hsat, Hcap; rewrite ?andb_false_r, ?orb_false_r in Hcap;
      try (pose proof (truthy_not_none _ Hs) as Hsn;
           pose proof (truthy_not_none _ Hcap) as Hcn;
           product_leaf_ok Hconf);
      apply andb_prop in Hsat as [Hi Ho]; apply negb_true_iff in Hi;
      rewrite andb_true_r in Hcap;
      (destruct (is_none (environ w !! "RHEV_SATELLITE")) eqn:Hn;
       [product_leaf_stranded Hconf|]);
      (destruct (truthy (environ w !! "CAPSULE_HOSTNAME")) eqn:Hc;
       simpl in Hcap;
       [pose proof (truthy_not_none _ Hc) as Hcn;
        product_leaf_stranded Hconf|]);
      apply negb_true_iff in Hcap;
      destruct (is_none (environ w !! "RHEV_CAPSULE")) eqn:Hnc;
      product_leaf_stranded Hconf.
Qed.

Lemma product_replay w product sat_image cap_image :
  configured w product sat_image cap_image = true →
  let R := product_upgrade product sat_image cap_image w initial in
  (R.1, ops R.2) =
  replay_to w (product_script w product sat_image cap_image)
    (product_ending w product sat_image cap_image).
Proof.
  intros Hconf R.
  destruct (product_upgrade_unhindered (quiet w) product sat_image cap_image
              (quiet_unhindered w) Hconf) as (lines & e' & Hq).
  by apply (lawful_replay _ w initial _ _ _
              (product_upgrade_lawful product sat_image cap_image) eq_refl Hq).
Qed.

Lemma feasible_script w product sat_image cap_image :
  feasible w product sat_image cap_image = true →
  product_script w product sat_image cap_image =
  product_plan w product sat_image cap_image.
Proof.
  unfold feasible, product_script. intros H.
  apply andb_prop in H as [H Hc]. apply andb_prop in H as [_ Hs].
  destruct (truthy (environ w !! "SATELLITE_HOSTNAME")); [done|].
  simpl in Hs, Hc. apply negb_true_iff in Hs. rewrite Hs.
  rewrite orb_false_r in Hc. apply negb_true_iff in Hc. by rewrite Hc.
Qed.

Lemma product_plan_preparation w product sat_image cap_image :
  product_plan w product sat_image cap_image =
  preparation w product sat_image cap_image ++
  hub_plan w None (OnHost (satellite_address w)) ++
  [ Call (OnHost (satellite_address w)) foreman_debug [VStr "satellite"] [] ] ++
  (if String.eqb product "capsule"
   then capsule_plan w (OnHost (capsule_address w))
          (recorded w "SATELLITE_HOSTNAME") (recorded w "CAPSULE_HOSTNAME") ++
        [ Call (OnHost (capsule_address w)) foreman_debug [VStr "capsule"]
            [] ]
   else []).
Proof. unfold product_plan, preparation. by rewrite <- !app_assoc. Qed.

Lemma product_script_prefix w product sat_image cap_image :
  product_script w product sat_image cap_image `prefix_of`
  product_plan w product sat_image cap_image.
Proof.
  unfold product_script.
  destruct (truthy (environ w !! "SATELLITE_HOSTNAME")) eqn:Hs; [done|].
  destruct (is_none (environ w !! "RHEV_SATELLITE")).
  { unfold product_plan. etransitivity; [apply prefix_take|].
    by apply prefix_app_r. }
  destruct (String.eqb product "capsule") eqn:Hp; [|done].
  rewrite product_plan_preparation, Hp.
  do 3 apply prefix_app. destruct (is_none (capsule_address w)).
  { apply prefix_nil. }
  destruct (capsule_plan_opening w (OnHost (capsule_address w))
              (recorded w "SATELLITE_HOSTNAME")
              (recorded w "CAPSULE_HOSTNAME")) as (rest & ->).
  rewrite <- app_assoc. by apply prefix_app_r.
Qed.

Lemma replay_prefix w pre l : (replay w pre l).2 `prefix_of` l.
Proof.
  revert pre. induction l as [|op l IH]; intros pre; simpl; [done|].
  destruct (halts w pre op); simpl.
  - apply prefix_cons, prefix_nil.
  - specialize (IH (pre ++ [op])).
    destruct (replay w (pre ++ [op]) l) as [r t]. simpl in *.
    by apply prefix_cons.
Qed.

Lemma replay_completed w pre l :
  (replay w pre l).1 = Ok tt → (replay w pre l).2 = l.
Proof.
  revert pre. induction l as [|op l IH]; intros pre; simpl; [done|].
  destruct (halts w pre op); simpl; [done|].
  specialize (IH (pre ++ [op])).
  destruct (replay w (pre ++ [op]) l) as [r t]. simpl in *.
  intros Hr. by rewrite (IH Hr).
Qed.

Lemma replay_to_ops w l r : (replay_to w l r).2 = (replay w [] l).2.
Proof. unfold replay_to. by destruct (replay w [] l) as [[[]|err] t]. Qed.

Lemma replay_to_completed_inv w l r :
  (replay_to w l r).1 = Ok tt → r = Ok tt ∧ (replay w [] l).2 = l.
Proof.
  unfold replay_to. pose proof (replay_completed w [] l) as H.
  destruct (replay w [] l) as [[[]|err] t]; simpl in *; [|done].
  intros ->. by split; [|apply H].
Qed.

Lemma product_run_within_plan w product sat_image cap_image :
  configured w product sat_image cap_image = true →
  let R := product_upgrade product sat_image cap_image w initial in
  ops R.2 = (replay w [] (product_script w product sat_image cap_image)).2 ∧
  ops R.2 `prefix_of` product_plan w product sat_image cap_image ∧
  (R.1 = Ok tt →
   feasible w product sat_image cap_image = true ∧
   ops R.2 = product_plan w product sat_image cap_image).
Proof.
  intros Hconf R.
  pose proof (product_replay w product sat_image cap_image Hconf) as H.
  fold R in H.
  pose proof (f_equal fst H) as H1. pose proof (f_equal snd H) as H2.
  simpl in H1, H2. rewrite replay_to_ops in H2. split_and!.
  - done.
  - rewrite H2. etransitivity; [apply replay_prefix|].
    apply product_script_prefix.
  - intros HR. rewrite HR in H1. symmetry in H1.
    apply replay_to_completed_inv in H1 as [He Hl].
    unfold product_ending in He.
    destruct (feasible w product sat_image cap_image) eqn:Hf; [|done].
    split; [done|]. by rewrite H2, Hl, feasible_script.
Qed.

(** X10: for a request that passes every check, [product_upgrade] replays
    one fixed sequence against the failures of the remote layer.  When the
    request is feasible it is the whole plan: the satellite is resolved
    and its services restarted; for the capsule product the capsule is
    then resolved, the ssh key copied and (with [CAPSULE_URL] set) the
    capsule repositories synced, all before the satellite is upgraded; the
    satellite's debug report follows its upgrade, and only then is the
    capsule upgraded and its debug report collected.  Otherwise it is the
    part of that plan that precedes the first [execute] given [None] for a
    host, at which a run that nothing aborted stops.  The first operation
    failing without [warn_only] ends the run. *)
Theorem product_upgrade_replays_plan w product sat_image cap_image :
  configured w product sat_image cap_image = true →
  let R := product_upgrade product sat_image cap_image w initial in
  (feasible w product sat_image cap_image = true →
   (R.1, ops R.2) =
   replay w [] (product_plan w product sat_image cap_image)) ∧
  (feasible w product sat_image cap_image = false →
   (R.1, ops R.2) =
   replay_to w (product_script w product sat_image cap_image)
     (Fail (AttributeError none_has_no_strip))).
Proof.
  intros Hconf R.
  pose proof (product_replay w product sat_image cap_image Hconf) as H.
  fold R in H. unfold product_ending in H.
  split; intros Hf; rewrite Hf in H; [|done].
  by rewrite replay_to_completed, feasible_script in H.
Qed.

Lemma product_upgrade_replays_plan_witness :
  (let R := product_upgrade "capsule" None None both_named initial in
   (R.1, ops R.2) =
   replay both_named [] (product_plan both_named "capsule" None None)) ∧
  (let R := product_upgrade "capsule" (Some "sat-template")
              (Some "cap-template") both_provisioned initial in
   (R.1, ops R.2) =
   replay_to both_provisioned
     (product_script both_provisioned "capsule" (Some "sat-template")
        (Some "cap-template"))
     (Fail (AttributeError none_has_no_strip))).
Proof.
  split.
  - apply (product_upgrade_replays_plan both_named "capsule" None None);
      reflexivity.
  - apply (product_upgrade_replays_plan both_provisioned "capsule"
             (Some "sat-template") (Some "cap-template")); reflexivity.
Defined.

(** * The hosts of the certificate steps *)

Lemma hub_plan_no_certs w pw tgt :
  Forall (λ op, is_cert_op op = false) (hub_plan w pw tgt).
Proof.
  unfold hub_plan, hub_phases. each_phase; first [done | idtac].
  - by destruct (environ w !! "BASE_URL").
  - by destruct (py_eq _ _).
Qed.

Lemma capsule_opening_no_certs w tgt :
  Forall (λ op, is_cert_op op = false) (capsule_opening w tgt).
Proof.
  unfold capsule_opening. each_phase; first [done | idtac].
  all: by destruct (py_eq _ _).
Qed.

Lemma capsule_plan_certs w tgt sat_host cap_host :
  Forall (λ op, is_cert_op op = true →
                op = issue_certs sat_host cap_host ∨
                op = copy_certs sat_host cap_host)
    (capsule_plan w tgt sat_host cap_host).
Proof.
  unfold capsule_plan, capsule_phases.
  each_phase; first [by intros [=] | by left | by right | idtac].
  destruct (py_eq _ _); by intros [=].
Qed.

Lemma hoare_env_get w E P k : hoare w P (env_get k) P E.
Proof. by intros s HP. Qed.

Lemma hoare_reported_major w E P tgt : hoare w P (reported_major tgt) P E.
Proof. by intros s HP. Qed.

(** Stepping through the bodies of the workflows as well.  After an exit
    nothing is left to show, whatever the postcondition was. *)
Ltac hoare_body_step :=
  cbv beta iota;
  lazymatch goal with
  | |- hoare _ ?P _ _ _ =>
      tryif is_evar P
      then (unify P (λ _ : State, False); apply hoare_false)
      else
        lazymatch goal with
        | |- hoare _ (λ _, False) _ _ _ => apply hoare_false
        | |- hoare _ _ (env_get _) _ _ => apply hoare_env_get
        | |- hoare _ _ (reported_major _) _ _ => apply hoare_reported_major
        | |- hoare _ _ (distro_info_major _) _ _ => unfold distro_info_major
        | |- hoare _ _ (satellite6_upgrade _ _) _ _ =>
            unfold satellite6_upgrade
        | |- hoare _ _ (satellite6_capsule_upgrade _ _) _ _ =>
            unfold satellite6_capsule_upgrade
        | |- hoare _ _ (match ?c with Some _ => _ | None => _ end) _ _ =>
            destruct c
        | |- _ => hoare_step
        end
  end.

(** The workflows leave the shared dict as it is. *)
Lemma workflow_keeps_dict role w pw tgt e :
  hoare w (λ s, fenv s = e) (workflow role pw tgt)
    (λ s, fenv s = e) (λ s, fenv s = e).
Proof.
  destruct role, pw; unfold workflow; repeat hoare_body_step;
    first [ by intros ? H; split | by intros ? H ].
Qed.

Lemma workflow_inv role w pw tgt K X :
  (∀ s, K (fenv s) → Forall X (script role w pw tgt s)) →
  hoare w (inv K X) (workflow role pw tgt) (inv K X) (inv K X).
Proof.
  intros HX s HI.
  pose proof (workflow_hoare_script role w pw tgt K X HX s HI) as H1.
  pose proof (workflow_keeps_dict role w pw tgt (fenv s) s eq_refl) as H2.
  destruct HI as [HK Hops].
  destruct (workflow role pw tgt w s) as [[a|err] s']; [done|].
  split; [by rewrite H2 | done].
Qed.

(** One step through [product_upgrade] under an invariant. *)
Ltac hoare_inv_step :=
  cbv beta iota;
  lazymatch goal with
  | |- hoare _ ?P _ _ _ =>
      tryif is_evar P
      then (unify P (λ _ : State, False); apply hoare_false)
      else
        lazymatch goal with
        | |- hoare _ (λ _, False) _ _ _ => apply hoare_false
        | |- hoare _ _ (satellite6_upgrade _ _) _ _ =>
            apply (workflow_inv Hub)
        | |- hoare _ _ (satellite6_capsule_upgrade _ _) _ _ =>
            apply (workflow_inv Subordinate)
        | |- _ => hoare_known_step
        end
  end.

(** Whatever happens to a [product_upgrade] run for the capsule, the
    shared dict satisfies [K] and the operations issued are within [X],
    provided the certificate steps built from a dict that satisfies [K]
    and has a satellite host are in [X], and no key that is set breaks
    [K]. *)
Lemma product_upgrade_keys w sat_image cap_image
    (K : gmap string (option string) → Prop) (X : Op → Prop) :
  (∀ op, is_cert_op op = false → X op) →
  (∀ e, K e → is_Some (mjoin (e !! "satellite_host")) →
     X (issue_certs (mjoin (e !! "satellite_host"))
          (mjoin (e !! "capsule_host"))) ∧
     X (copy_certs (mjoin (e !! "satellite_host"))
          (mjoin (e !! "capsule_host")))) →
  (truthy (environ w !! "SATELLITE_HOSTNAME") = true →
   ∀ e v, K e → K (<["satellite_host" := v]> e)) →
  (truthy (environ w !! "CAPSULE_HOSTNAME") = true →
   ∀ e v, K e → K (<["capsule_host" := v]> e)) →
  hoare w (inv K X) (product_upgrade "capsule" sat_image cap_image)
    (inv K X) (inv K X).
Proof.
  intros Hother Hcert Hsat Hcap.
  assert (∀ role pw tgt s, K (fenv s) → Forall X (script role w pw tgt s))
    as Hscript.
  { intros [] pw tgt s HK; unfold script.
    - simpl. eapply Forall_impl; [apply hub_plan_no_certs | done].
    - destruct (stranded Subordinate s) eqn:Hs.
      + eapply Forall_impl; [apply capsule_opening_no_certs | done].
      + simpl. eapply Forall_impl; [apply capsule_plan_certs|].
        intros op Hop. destruct (is_cert_op op) eqn:Ec; [|by apply Hother].
        destruct (Hcert _ HK (stranded_is_Some s Hs)) as [Hi Hc].
        by destruct (Hop Ec) as [-> | ->]. }
  assert (∀ op s, is_cert_op op = false → inv K X s →
                  inv K X (with_op s op) ∧ inv K X (with_op s op))
    as Hexec.
  { intros op s Hop [HK Hops].
    assert (Forall X (ops s ++ [op])) as H.
    { apply Forall_app. split; [done|]. apply Forall_singleton.
      by apply Hother. }
    by split; split. }
  unfold product_upgrade.
  destruct (truthy (environ w !! "SATELLITE_HOSTNAME")) eqn:Hs;
  destruct (truthy (environ w !! "CAPSULE_HOSTNAME")) eqn:Hc;
    repeat hoare_inv_step;
    first
      [ by apply Hscript
      | by intros s H
      | by intros s H; apply Hexec
      | intros s [? ?]; split; [apply Hsat | ]; done
      | intros s [? ?]; split; [apply Hcap | ]; done ].
Qed.

(** No run for the capsule in which a host is not named completes. *)
Lemma provisioned_never_completes w product sat_image cap_image :
  String.eqb product "capsule" = true →
  truthy (environ w !! "SATELLITE_HOSTNAME") = false ∨
  truthy (environ w !! "CAPSULE_HOSTNAME") = false →
  ends w (λ e, e !! "satellite_host" = None)
    (product_upgrade product sat_image cap_image)
    (λ _ _, False) (λ _, True).
Proof.
  intros Hp Hn. unfold product_upgrade.
  repeat ends_step; try done; try congruence.
  all: repeat match goal with
         | H : _ ∧ _ |- _ => destruct H
         | H : ∃ _, _ |- _ => destruct H
         end; subst; simplify_map_eq.
  all: rewrite ?lookup_insert_ne in * by done.
  all: try by match goal with
              | H : ?e !! "satellite_host" = None,
                H' : is_Some (mjoin (?e !! "satellite_host")) |- _ =>
                  rewrite H in H'; destruct H'
              end.
  by destruct Hn as [Hn|Hn]; rewrite Hn in *.
Qed.

(** With the satellite named and the capsule not, the run gets as far as
    restarting the satellite's services: it then exits for want of a
    capsule, or needs the OS version, which only the provisioning of the
    satellite assigns. *)
Lemma capsule_unprovisionable w sat_image cap_image s :
  unhindered w →
  truthy (environ w !! "SATELLITE_HOSTNAME") = true →
  truthy (environ w !! "CAPSULE_HOSTNAME") = false →
  ∃ lines e',
    product_upgrade "capsule" sat_image cap_image w s =
    (Fail (if negb (truthy cap_image) &&
              negb (truthy (environ w !! "RHEV_CAPSULE"))
           then SysExit 1 else UnboundLocal "version"),
     {| ops := ops s ++
               [Run (OnHost (environ w !! "SATELLITE_HOSTNAME"))
                  "katello-service restart" false];
        out := out s ++ lines;
        fenv := e' |}).
Proof.
  intros Hw Hs Hc. destruct s as [o l e]. cbn [ops out fenv].
  pose proof (truthy_not_none _ Hs) as Hsn.
  destruct (negb (truthy cap_image) &&
            negb (truthy (environ w !! "RHEV_CAPSULE"))) eqn:Hi.
  - cut (∃ new lines e',
           stops (product_upgrade "capsule" sat_image cap_image) w o l e
             (SysExit 1) new lines e' ∧
           new = [Run (OnHost (environ w !! "SATELLITE_HOSTNAME"))
                    "katello-service restart" false]).
    { intros (new & lines & e' & H & ->). by exists lines, e'. }
    eexists _, _, _; split;
      [unfold product_upgrade; repeat stops_step | reflexivity].
  - cut (∃ new lines e',
           stops (product_upgrade "capsule" sat_image cap_image) w o l e
             (UnboundLocal "version") new lines e' ∧
           new = [Run (OnHost (environ w !! "SATELLITE_HOSTNAME"))
                    "katello-service restart" false]).
    { intros (new & lines & e' & H & ->). by exists lines, e'. }
    eexists _, _, _; split;
      [unfold product_upgrade; repeat stops_step | reflexivity].
Qed.


(** C10 (as stated, refuted): with both hosts provisioned and nothing
    failing, the run never builds a certificate command: it stops with an
    [AttributeError] when [execute] is given the unset [satellite_host]
    for the host of the certificate generation, after the 32 operations
    that precede it. *)
Lemma unnamed_provisioned_hosts_counterexample :
  let R := product_upgrade "capsule" (Some "sat-template")
             (Some "cap-template") both_provisioned initial in
  truthy (environ both_provisioned !! "SATELLITE_HOSTNAME") = false ∧
  truthy (environ both_provisioned !! "CAPSULE_HOSTNAME") = false ∧
  fenv R.2 !! "satellite_host" = None ∧
  fenv R.2 !! "capsule_host" = None ∧
  R.1 = Fail (AttributeError none_has_no_strip) ∧
  List.filter is_cert_op (ops R.2) = [] ∧
  length (ops R.2) = 32.
Proof. split_and!; vm_compute; reflexivity. Qed.

(** C10 (amended): the capsule workflow takes the satellite and capsule
    hosts of its certificate steps from the keys [satellite_host] and
    [capsule_host] of the shared dict: these are the only certificate
    steps it issues, a run that completes has issued both, and with
    [satellite_host] unset it issues neither and never completes.
    [product_upgrade] sets a key only when the host of that role is named
    explicitly, so the key of a provisioned role is unset however the run
    ends.  But no run for the capsule in which a host is not named ever
    issues a certificate step, and none completes.  When the satellite is
    provisioned, the request passes every check and no operation halts
    the run, it stops with an [AttributeError] where [execute] is given
    [None] for a host: with both RHEV hostnames known, that is the
    certificate generation, after the opening steps of the capsule
    workflow. *)
Theorem unnamed_provisioned_hosts w sat_image cap_image :
  let R := product_upgrade "capsule" sat_image cap_image w initial in
  (∀ pw tgt e,
     let W := satellite6_capsule_upgrade pw tgt w (fresh e) in
     let sat := mjoin (e !! "satellite_host") in
     let cap := mjoin (e !! "capsule_host") in
     (∀ op, op ∈ ops W.2 → is_cert_op op = true →
            op = issue_certs sat cap ∨ op = copy_certs sat cap) ∧
     (W.1 = Ok tt →
      is_Some sat ∧
      issue_certs sat cap ∈ ops W.2 ∧ copy_certs sat cap ∈ ops W.2) ∧
     (sat = None →
      W.1 ≠ Ok tt ∧ ∀ op, op ∈ ops W.2 → is_cert_op op = false)) ∧
  (truthy (environ w !! "SATELLITE_HOSTNAME") = false →
   fenv R.2 !! "satellite_host" = None) ∧
  (truthy (environ w !! "CAPSULE_HOSTNAME") = false →
   fenv R.2 !! "capsule_host" = None) ∧
  (truthy (environ w !! "SATELLITE_HOSTNAME") = false ∨
   truthy (environ w !! "CAPSULE_HOSTNAME") = false →
   R.1 ≠ Ok tt ∧ ∀ op, op ∈ ops R.2 → is_cert_op op = false) ∧
  (configured w "capsule" sat_image cap_image = true →
   truthy (environ w !! "SATELLITE_HOSTNAME") = false →
   unhalted w [] (product_script w "capsule" sat_image cap_image) →
   R.1 = Fail (AttributeError none_has_no_strip) ∧
   ops R.2 = product_script w "capsule" sat_image cap_image ∧
   (is_none (environ w !! "RHEV_SATELLITE") = false →
    is_none (capsule_address w) = false →
    ops R.2 =
    preparation w "capsule" sat_image cap_image ++
    hub_plan w None (OnHost (satellite_address w)) ++
    [ Call (OnHost (satellite_address w)) foreman_debug [VStr "satellite"]
        [] ] ++
    capsule_opening w (OnHost (capsule_address w)))).
Proof.
  intros R. split_and!.
  - intros pw tgt e W sat cap. split_and!.
    + intros op Hop Hc.
      pose proof (run_every Subordinate w pw tgt e _
                    (capsule_plan_certs w tgt sat cap)) as H.
      rewrite Forall_forall in H. by apply H.
    + intros HW.
      pose proof (run_completed Subordinate w pw tgt e HW) as Hops.
      pose proof (workflow_stranded Subordinate w pw tgt
                    (λ s, s = fresh e)) as Hst.
      destruct (stranded Subordinate (fresh e)) eqn:Es.
      { specialize (Hst ltac:(by intros s ->) (fresh e) eq_refl).
        unfold workflow in Hst. fold W in Hst.
        destruct W as [[a|err] s']; [done | by simplify_eq/=]. }
      split; [by apply (stranded_is_Some (fresh e))|].
      unfold workflow in Hops. fold W in Hops. rewrite Hops.
      destruct (capsule_plan_opening w tgt sat cap) as (rest & E).
      change (plan Subordinate w pw tgt (fresh e))
        with (capsule_plan w tgt sat cap).
      rewrite E. split; apply elem_of_app; right.
      * apply elem_of_cons. by left.
      * apply elem_of_cons. right. apply elem_of_cons. by left.
    + intros Hn.
      assert (stranded Subordinate (fresh e) = true) as Es.
      { unfold stranded. cbn [fenv fresh].
        change (mjoin (e !! "satellite_host")) with sat. by rewrite Hn. }
      split.
      * pose proof (workflow_stranded Subordinate w pw tgt
                      (λ s, s = fresh e) ltac:(by intros s ->)
                      (fresh e) eq_refl) as Hst.
        unfold workflow in Hst. fold W in Hst.
        by destruct W as [[a|err] s'].
      * destruct (run_within_script Subordinate w pw tgt e)
          as [(rest & Hpre) _].
        unfold script in Hpre. rewrite Es in Hpre.
        pose proof (capsule_opening_no_certs w tgt) as Hall.
        rewrite Hpre in Hall. apply Forall_app in Hall as [Hall _].
        rewrite Forall_forall in Hall. exact Hall.
  - intros Hs.
    pose proof (product_upgrade_keys w sat_image cap_image
                  (λ e, e !! "satellite_host" = None) (λ _, True)) as H.
    specialize (H ltac:(done) ltac:(done) ltac:(by rewrite Hs)).
    specialize (H ltac:(by intros _ e v He; cbv beta;
                           rewrite lookup_insert_ne)).
    specialize (H initial). fold R in H.
    destruct R as [[[]|err] s']; apply H; split; done.
  - intros Hc.
    pose proof (product_upgrade_keys w sat_image cap_image
                  (λ e, e !! "capsule_host" = None) (λ _, True)) as H.
    specialize (H ltac:(done) ltac:(done)).
    specialize (H ltac:(by intros _ e v He; cbv beta;
                           rewrite lookup_insert_ne)).
    specialize (H ltac:(by rewrite Hc)).
    specialize (H initial). fold R in H.
    destruct R as [[[]|err] s']; apply H; split; done.
  - intros Hn. split.
    + pose proof (provisioned_never_completes w "capsule" sat_image cap_image
                    eq_refl Hn initial eq_refl) as H.
      fold R in H. by destruct R as [[[]|err] s'].
    + destruct (truthy (environ w !! "SATELLITE_HOSTNAME")) eqn:Hs.
      * destruct Hn as [|Hc]; [done|].
        destruct (capsule_unprovisionable (quiet w) sat_image cap_image
                    initial (quiet_unhindered w) Hs Hc) as (lines & e' & Hq).
        destruct (lawful_within_plan _ w initial _ _ _
                    (product_upgrade_lawful "capsule" sat_image cap_image)
                    Hq eq_refl) as (new & rest & Hops & Hpl & _).
        fold R in Hops. rewrite Hops. cbn [ops initial app].
        intros op Hop.
        assert (op ∈ new ++ rest) as Hin by (apply elem_of_app; by left).
        rewrite <- Hpl in Hin. apply list_elem_of_singleton in Hin.
        by subst op.
      * pose proof (product_upgrade_keys w sat_image cap_image
                      (λ e, e !! "satellite_host" = None)
                      (λ op, is_cert_op op = false)) as H.
        specialize (H ltac:(done)).
        specialize (H ltac:(by intros e He; cbv beta; rewrite He;
                               intros [? [=]])).
        specialize (H ltac:(by rewrite Hs)).
        specialize (H ltac:(by intros _ e v He; cbv beta;
                               rewrite lookup_insert_ne)).
        specialize (H initial ltac:(by split)). fold R in H.
        assert (Forall (λ op, is_cert_op op = false) (ops R.2)) as Hall.
        { by destruct R as [[[]|err] s']; apply H. }
        rewrite Forall_forall in Hall. exact Hall.
  - intros Hconf Hs Hu.
    pose proof (product_replay w "capsule" sat_image cap_image Hconf) as H.
    fold R in H. unfold replay_to in H. rewrite (replay_unhalted _ _ _ Hu) in H.
    assert (feasible w "capsule" sat_image cap_image = false) as Hf.
    { unfold feasible. rewrite Hs. simpl. by rewrite andb_false_r. }
    unfold product_ending in H. rewrite Hf in H.
    injection H as H1 H2. split_and!; [done | done |].
    intros Hr Hc. rewrite H2. unfold product_script. by rewrite Hs, Hr, Hc.
Qed.

Lemma unnamed_provisioned_hosts_witness :
  let R := product_upgrade "capsule" (Some "sat-template")
             (Some "cap-template") both_provisioned initial in
  (R.1 ≠ Ok tt ∧ ∀ op, op ∈ ops R.2 → is_cert_op op = false) ∧
  R.1 = Fail (AttributeError none_has_no_strip) ∧
  ops R.2 = product_script both_provisioned "capsule" (Some "sat-template")
              (Some "cap-template") ∧
  (is_none (environ both_provisioned !! "RHEV_SATELLITE") = false →
   is_none (capsule_address both_provisioned) = false →
   ops R.2 =
   preparation both_provisioned "capsule" (Some "sat-template")
     (Some "cap-template") ++
   hub_plan both_provisioned None
     (OnHost (satellite_address both_provisioned)) ++
   [ Call (OnHost (satellite_address both_provisioned)) foreman_debug
       [VStr "satellite"] [] ] ++
   capsule_opening both_provisioned
     (OnHost (capsule_address both_provisioned))).
Proof.
  pose proof (unnamed_provisioned_hosts both_provisioned
                (Some "sat-template") (Some "cap-template"))
    as (_ & _ & _ & Hnever & Hstop).
  split.
  - apply Hnever. left. reflexivity.
  - apply Hstop.
    + reflexivity.
    + reflexivity.
    + intros k op Hk. reflexivity.
Defined.

Lemma hub_plan_targets w pw tgt :
  Forall (λ op, target op = tgt) (hub_plan w pw tgt).
Proof.
  unfold hub_plan, hub_phases. each_phase; first [done | idtac].
  - by destruct (environ w !! "BASE_URL").
  - by destruct (py_eq _ _).
Qed.

(** X11: when both hosts are named explicitly, the hostnames stored in the
    shared dict by [product_upgrade] are the ones the capsule workflow
    reads back: every certificate step of the run is issued on the named
    satellite for the named capsule, and a completed run contains both
    steps. *)
Theorem named_hosts_reach_certificates w sat_image cap_image sat cap :
  configured w "capsule" sat_image cap_image = true →
  environ w !! "SATELLITE_HOSTNAME" = Some sat → sat ≠ "" →
  environ w !! "CAPSULE_HOSTNAME" = Some cap → cap ≠ "" →
  let R := product_upgrade "capsule" sat_image cap_image w initial in
  (∀ op, op ∈ ops R.2 → is_cert_op op = true →
         op = issue_certs (Some sat) (Some cap) ∨
         op = copy_certs (Some sat) (Some cap)) ∧
  (R.1 = Ok tt →
   issue_certs (Some sat) (Some cap) ∈ ops R.2 ∧
   copy_certs (Some sat) (Some cap) ∈ ops R.2).
Proof.
  intros Hconf Hs Hsat Hc Hcap R.
  destruct (product_run_within_plan w "capsule" sat_image cap_image Hconf)
    as (_ & Hpre & Hok).
  fold R in Hpre, Hok.
  assert (truthy (Some sat) = true) as Ts by by destruct sat.
  assert (truthy (Some cap) = true) as Tc by by destruct cap.
  assert (product_plan w "capsule" sat_image cap_image =
          [ Run (OnHost (Some sat)) "katello-service restart" false;
            Call Ambient copy_ssh_key [VStr sat; VStr cap] [] ] ++
          (if is_none (environ w !! "CAPSULE_URL") then []
           else [Call (OnHost (Some sat))
                   sync_capsule_tools_repos_to_upgrade [] []]) ++
          hub_plan w None (OnHost (Some sat)) ++
          [ Call (OnHost (Some sat)) foreman_debug [VStr "satellite"] [] ] ++
          capsule_plan w (OnHost (Some cap)) (Some sat) (Some cap) ++
          [ Call (OnHost (Some cap)) foreman_debug [VStr "capsule"] [] ])
    as Hplan.
  { unfold product_plan, satellite_resolution, capsule_resolution,
      satellite_address, capsule_address, recorded.
    by rewrite Hs, Hc, Ts, Tc. }
  rewrite Hplan in Hpre, Hok. clear Hplan. split.
  - assert (Forall (λ op, is_cert_op op = true →
                          op = issue_certs (Some sat) (Some cap) ∨
                          op = copy_certs (Some sat) (Some cap))
              (ops R.2)) as H.
    { destruct Hpre as (rest & Hrest).
      eapply (Forall_app _ (ops R.2) rest). rewrite <- Hrest.
      pose proof (hub_plan_no_certs w None (OnHost (Some sat))) as Hh.
      pose proof (capsule_plan_certs w (OnHost (Some cap)) (Some sat)
                    (Some cap)) as Hcp.
      revert Hh Hcp.
      generalize (hub_plan w None (OnHost (Some sat))).
      generalize (capsule_plan w (OnHost (Some cap)) (Some sat) (Some cap)).
      intros cp hp Hh Hcp.
      each_phase; first [by intros [=] | idtac].
      - eapply Forall_impl; [exact Hh|].
        intros op Hop. by rewrite Hop.
      - exact Hcp. }
    by rewrite Forall_forall in H.
  - intros HR. rewrite (proj2 (Hok HR)). unfold capsule_plan, capsule_phases.
    split; find_phase.
Qed.

Lemma named_hosts_reach_certificates_witness :
  let R := product_upgrade "capsule" None None both_named initial in
  R.1 = Ok tt ∧
  issue_certs (Some "sat.example.com") (Some "cap.example.com") ∈ ops R.2 ∧
  copy_certs (Some "sat.example.com") (Some "cap.example.com") ∈ ops R.2.
Proof.
  assert ((product_upgrade "capsule" None None both_named initial).1 = Ok tt)
    as HR by (vm_compute; reflexivity).
  split; [exact HR|].
  by apply (named_hosts_reach_certificates both_named None None
              "sat.example.com" "cap.example.com" eq_refl eq_refl
              ltac:(discriminate) eq_refl ltac:(discriminate)).
Defined.



(** ** The satellite product *)

Lemma hub_plan_leaves_capsule w pw tgt :
  Forall (λ op, concerns_capsule op = false) (hub_plan w pw tgt).
Proof.
  unfold hub_plan, hub_phases. each_phase; first [done | idtac].
  - by destruct (environ w !! "BASE_URL").
  - by destruct (py_eq _ _).
Qed.

Lemma satellite_product_hoare w sat_image cap_image :
  hoare w (inv (λ _, True) (λ op, concerns_capsule op = false))
    (product_upgrade "satellite" sat_image cap_image)
    (inv (λ _, True) (λ op, concerns_capsule op = false))
    (λ s, Forall (λ op, concerns_capsule op = false) (ops s)).
Proof.
  assert (∀ op s, concerns_capsule op = false →
                  inv (λ _, True) (λ op, concerns_capsule op = false) s →
                  inv (λ _, True) (λ op, concerns_capsule op = false)
                    (with_op s op) ∧
                  Forall (λ op, concerns_capsule op = false)
                    (ops (with_op s op))) as Hexec.
  { intros op s Hop [_ Hops].
    assert (Forall (λ op, concerns_capsule op = false) (ops s ++ [op])) as H.
    { apply Forall_app. split; [done|]. by apply Forall_singleton. }
    by split; [split|]. }
  unfold product_upgrade.
  repeat hoare_step;
    first
      [ by intros s _; apply hub_plan_leaves_capsule
      | by intros s [? ?]
      | by intros s H; apply Hexec ].
Qed.

(** X13: for the product [satellite], [product_upgrade] leaves the capsule
    alone whatever the environment says about it: the capsule image has
    no effect on the run, and no operation provisions a capsule instance,
    copies the ssh key, syncs capsule repositories, generates capsule
    certificates or collects the capsule's debug report. *)
Theorem satellite_product_leaves_capsule w sat_image cap_image cap_image' :
  let R := product_upgrade "satellite" sat_image cap_image w initial in
  R = product_upgrade "satellite" sat_image cap_image' w initial ∧
  ∀ op, op ∈ ops R.2 → concerns_capsule op = false.
Proof.
  intros R. split.
  - subst R. unfold product_upgrade. reflexivity.
  - pose proof (satellite_product_hoare w sat_image cap_image initial
                  ltac:(by split)) as H.
    fold R in H. intros op Hop.
    destruct R as [[a|err] s']; simpl in *.
    + destruct H as [_ H]. by apply (proj1 (Forall_forall _ _) H).
    + by apply (proj1 (Forall_forall _ _) H).
Qed.

(** ** The debug report *)

Lemma replay_before w pre l k x i op :
  (replay w pre l).2 !! k = Some x → i < k → l !! i = Some op →
  halts w (pre ++ take i l) op = false.
Proof.
  revert pre k i. induction l as [|o l IH]; intros pre k i Hk Hi Hop;
    [done|].
  simpl in Hk. destruct (halts w pre o) eqn:Hh.
  - destruct k as [|k]; [lia|]. simpl in Hk. done.
  - destruct (replay w (pre ++ [o]) l) as [r t] eqn:Hr. simpl in Hk.
    destruct k as [|k]; [lia|]. simpl in Hk.
    destruct i as [|i]; simpl in *.
    + injection Hop as <-. by rewrite app_nil_r.
    + replace (pre ++ o :: take i l) with ((pre ++ [o]) ++ take i l)
        by (by rewrite <- app_assoc).
      apply (IH (pre ++ [o]) k i); [by rewrite Hr | lia | done].
Qed.

Lemma only_position {A} (a : A) (P Q : list A) k :
  Forall (λ x, x ≠ a) P → Forall (λ x, x ≠ a) Q →
  (P ++ a :: Q) !! k = Some a → k = length P.
Proof.
  intros HP HQ Hk.
  destruct (decide (k < length P)) as [Hlt|Hge].
  - rewrite lookup_app_l in Hk by done.
    by destruct (proj1 (Forall_lookup _ _) HP k a Hk).
  - rewrite lookup_app_r in Hk by lia.
    destruct (k - length P) as [|j] eqn:Hj; [lia|]. simpl in Hk.
    by destruct (proj1 (Forall_lookup _ _) HQ j a Hk).
Qed.

Lemma hub_plan_no_report w pw tgt :
  Forall (λ op, is_debug_report op = false) (hub_plan w pw tgt).
Proof.
  unfold hub_plan, hub_phases. each_phase; first [done | idtac].
  - by destruct (environ w !! "BASE_URL").
  - by destruct (py_eq _ _).
Qed.

Lemma capsule_plan_no_report w tgt sat cap :
  Forall (λ op, is_debug_report op = false) (capsule_plan w tgt sat cap).
Proof.
  unfold capsule_plan, capsule_phases. each_phase; first [done | idtac].
  all: by destruct (py_eq _ _).
Qed.

Lemma no_report_differs (l : list Op) tgt args kw :
  Forall (λ op, is_debug_report op = false) l →
  Forall (λ op, op ≠ Call tgt foreman_debug args kw) l.
Proof. intros H. eapply Forall_impl; [exact H|]. by intros op Hop ->. Qed.

(** X14: the debug report of the satellite is collected only after a
    complete satellite upgrade.  When a run of [product_upgrade] contains
    the satellite's [foreman_debug] call, the operations issued just
    before it are the whole plan of the satellite workflow, and none of
    them stopped the task. *)
Theorem debug_report_after_upgrade w product sat_image cap_image k :
  configured w product sat_image cap_image = true →
  let R := product_upgrade product sat_image cap_image w initial in
  let sat := OnHost (satellite_address w) in
  ops R.2 !! k = Some (Call sat foreman_debug [VStr "satellite"] []) →
  ∃ pre,
    take k (ops R.2) = pre ++ hub_plan w None sat ∧
    unhalted w pre (hub_plan w None sat).
Proof.
  intros Hconf R sat Hk.
  pose proof (product_replay w product sat_image cap_image Hconf) as Hrep.
  fold R in Hrep. pose proof (f_equal snd Hrep) as Hops. simpl in Hops.
  set (pre := satellite_resolution w sat_image ++
              [Run sat "katello-service restart" false] ++
              (if String.eqb product "capsule"
               then capsule_resolution w cap_image else [])).
  set (post := if String.eqb product "capsule"
               then capsule_plan w (OnHost (capsule_address w))
                      (recorded w "SATELLITE_HOSTNAME")
                      (recorded w "CAPSULE_HOSTNAME") ++
                    [Call (OnHost (capsule_address w)) foreman_debug
                       [VStr "capsule"] []]
               else []).
  assert (product_plan w product sat_image cap_image =
          (pre ++ hub_plan w None sat) ++
          Call sat foreman_debug [VStr "satellite"] [] :: post) as Hplan.
  { unfold product_plan, pre, post, sat. by rewrite <- !app_assoc. }
  assert (Forall (λ op, op ≠ Call sat foreman_debug [VStr "satellite"] [])
            (pre ++ hub_plan w None sat)) as HP.
  { apply no_report_differs. unfold pre, satellite_resolution,
      capsule_resolution.
    generalize (hub_plan_no_report w None sat).
    generalize (hub_plan w None sat). intros hp Hhp.
    each_phase; done. }
  assert (Forall (λ op, op ≠ Call sat foreman_debug [VStr "satellite"] [])
            post) as HQ.
  { unfold post.
    generalize (no_report_differs _ sat [VStr "satellite"] []
                  (capsule_plan_no_report w (OnHost (capsule_address w))
                     (recorded w "SATELLITE_HOSTNAME")
                     (recorded w "CAPSULE_HOSTNAME"))).
    generalize (capsule_plan w (OnHost (capsule_address w))
                  (recorded w "SATELLITE_HOSTNAME")
                  (recorded w "CAPSULE_HOSTNAME")). intros cp Hcp.
    each_phase; done. }
  set (script := product_script w product sat_image cap_image) in *.
  rewrite replay_to_ops in Hops.
  destruct (product_script_prefix w product sat_image cap_image)
    as [later Hlater].
  fold script in Hlater.
  pose proof (replay_prefix w [] script) as Hpre.
  rewrite <- Hops in Hpre. destruct Hpre as [rest Hrest].
  assert (k < length (ops R.2)) as Hlen by by eapply lookup_lt_Some.
  assert (length (ops R.2) ≤ length script)%nat as Hle.
  { rewrite Hrest, length_app. lia. }
  assert (k = length (pre ++ hub_plan w None sat)) as Hpos.
  { eapply only_position; [exact HP | exact HQ |].
    rewrite <- Hplan, Hlater. rewrite lookup_app_l by lia.
    rewrite Hrest. by rewrite lookup_app_l by lia. }
  exists pre. split.
  - transitivity (take k (product_plan w product sat_image cap_image)).
    + rewrite Hlater. rewrite take_app_le by lia.
      rewrite Hrest. by rewrite take_app_le by lia.
    + rewrite Hplan, Hpos. by rewrite take_app_length.
  - intros j op Hj.
    assert (j < length (hub_plan w None sat)) as Hjl
      by by eapply lookup_lt_Some.
    rewrite length_app in Hpos.
    pose proof (replay_before w [] script
                  k (Call sat foreman_debug [VStr "satellite"] [])
                  (length pre + j) op) as H.
    rewrite <- Hops in H. specialize (H Hk). simpl in H.
    assert (take (length pre + j) script =
            take (length pre + j)
              (product_plan w product sat_image cap_image)) as Htake.
    { rewrite Hlater. by rewrite take_app_le by lia. }
    assert (script !! (length pre + j) =
            product_plan w product sat_image cap_image !! (length pre + j))
      as Hlook.
    { rewrite Hlater. by rewrite lookup_app_l by lia. }
    rewrite Htake, Hlook, Hplan in H.
    rewrite <- app_assoc in H.
    rewrite take_app_ge in H by lia.
    replace (length pre + j - length pre) with j in H by lia.
    rewrite take_app_le in H by lia.
    apply H.
    + lia.
    + rewrite lookup_app_r by lia.
      replace (length pre + j - length pre) with j by lia.
      by rewrite lookup_app_l.
Qed.

Lemma debug_report_after_upgrade_witness :
  configured both_provisioned "satellite" (Some "img") None = true ∧
  ∃ pre,
    take 22 (ops (product_upgrade "satellite" (Some "img") None
                    both_provisioned initial).2) =
    pre ++ hub_plan both_provisioned None
             (OnHost (satellite_address both_provisioned)) ∧
    unhalted both_provisioned pre
      (hub_plan both_provisioned None
         (OnHost (satellite_address both_provisioned))).
Proof.
  split; [reflexivity|].
  apply (debug_report_after_upgrade both_provisioned "satellite"
           (Some "img") None 22); reflexivity.
Defined.

(** ** A complaint that is never printed *)

Ltac silent_side :=
  first
    [ by intros ? H; split
    | by intros ? H
    | intros ? H; unfold silent_on in *; simpl;
      apply not_elem_of_app; split; [exact H|];
      rewrite list_elem_of_singleton; discriminate ].

Lemma product_upgrade_silent w product sat_image cap_image :
  hoare w (silent_on capsule_target_complaint)
    (product_upgrade product sat_image cap_image)
    (silent_on capsule_target_complaint)
    (silent_on capsule_target_complaint).
Proof.
  destruct (accepted Hub w) eqn:Hh; simpl in Hh;
    unfold product_upgrade;
    repeat hoare_body_step; try silent_side.
Qed.

(** X15: the capsule workflow's complaint about the target version can
    never be seen from [product_upgrade]: the satellite workflow always
    runs first and checks the same [TO_VERSION], so whatever the product,
    the environment and the failures of the remote layer, the line is not
    printed. *)
Theorem capsule_target_check_unreachable w product sat_image cap_image :
  let R := product_upgrade product sat_image cap_image w initial in
  capsule_target_complaint ∉ out R.2.
Proof.
  intros R.
  pose proof (product_upgrade_silent w product sat_image cap_image initial)
    as H.
  fold R in H. destruct R as [[a|err] s']; apply H; apply not_elem_of_nil.
Qed.

(** ** The ways to stop *)

Lemma product_upgrade_ends w product sat_image cap_image :
  ends w (λ _, True) (product_upgrade product sat_image cap_image)
    (λ _ _, True) (λ e, expected_stop w product e = true).
Proof.
  unfold product_upgrade. repeat ends_step; try done.
  all: try by (cbn [expected_stop];
               match goal with H : tolerant _ = false |- _ => rewrite H end).
  all: cbn [expected_stop]; rewrite ?String.eqb_refl;
    repeat match goal with
           | H : _ ∧ _ |- _ => destruct H
           | H : ∃ _, _ |- _ => destruct H
           | H : True |- _ => clear H
           | H : is_Some _ |- _ => clear H
           | t : string |- _ => clear t
           | H : negb _ = false |- _ => apply negb_false_iff in H
           | H : negb _ = true |- _ => apply negb_true_iff in H
           end; subst.
  all: try (repeat match goal with H : _ = _ |- _ => rewrite H end;
            reflexivity).
  all: try by (rewrite ?lookup_insert_ne in * by done;
               match goal with
               | H : truthy ?x = true, H' : ?x = None |- _ => rewrite H' in H
               | H : truthy ?x = false, H0 : (_ =? _) = true |- _ =>
                   rewrite H, H0, ?orb_true_r
               end).
  all: match goal with
       | H : None = mjoin _, T : truthy _ = true |- _ =>
           rewrite lookup_insert_ne in H by done;
           first [rewrite lookup_insert_eq in H | rewrite lookup_insert in H];
           simpl in H; by rewrite <- H in T
       end.
Qed.

(** X16: the only ways [product_upgrade] can stop early.  It exits with
    status 1; or is aborted by an operation that is not tolerant; or reads
    the local [version] before assignment, and that only for a capsule
    upgrade with a named satellite and no named capsule; or raises the
    [AttributeError] of an [execute] given [None] for a host, and that
    only when the satellite is not named and either [RHEV_SATELLITE] is
    unset or the product is the capsule.  In particular [cap_host] is
    never read unassigned and no other exit status is used. *)
Theorem product_upgrade_stops w product sat_image cap_image s e :
  (product_upgrade product sat_image cap_image w s).1 = Fail e →
  expected_stop w product e = true.
Proof.
  intros H.
  pose proof (product_upgrade_ends w product sat_image cap_image s I) as He.
  destruct (product_upgrade product sat_image cap_image w s) as [[a|err] s'];
    simpl in H; [done|].
  by injection H as <-.
Qed.

Lemma product_upgrade_stops_witness :
  ((product_upgrade "capsule" None (Some "img") explicit_satellite
      initial).1 = Fail (UnboundLocal "version") ∧
   expected_stop explicit_satellite "capsule" (UnboundLocal "version") =
     true) ∧
  ((product_upgrade "capsule" (Some "sat-template") (Some "cap-template")
      both_provisioned initial).1 =
     Fail (AttributeError none_has_no_strip) ∧
   expected_stop both_provisioned "capsule"
     (AttributeError none_has_no_strip) = true).
Proof.
  split.
  - split; [reflexivity|].
    apply (product_upgrade_stops explicit_satellite "capsule" None
             (Some "img") initial).
    reflexivity.
  - split; [vm_compute; reflexivity|].
    apply (product_upgrade_stops both_provisioned "capsule"
             (Some "sat-template") (Some "cap-template") initial).
    vm_compute. reflexivity.
Defined.

(** X17: run on its own, a workflow stops early in three ways only.  It
    exits with status 1, exactly when its versions are not accepted.  With
    accepted versions it is aborted by an operation that is not tolerant,
    or (the capsule workflow, started with no [satellite_host] in the
    shared dict) it raises the [AttributeError] of an [execute] given
    [None] for a host.  It never reads a local variable before
    assignment. *)
Theorem workflow_stops role w pw tgt s e :
  (workflow role pw tgt w s).1 = Fail e → workflow_stop role w s e = true.
Proof.
  intros H. destruct (accepted role w) eqn:Hv.
  - destruct (workflow_script role w pw tgt s Hv) as (q & Hq & Hp).
    pose proof (lawful_against_plan _ w s _ q _
                  (workflow_lawful role pw tgt) Hq Hp) as HL.
    unfold ending in HL.
    destruct (workflow role pw tgt w s) as [[a|[c|op|x|msg]] s'];
      simpl in H; [done|..]; injection H as <-; cbn [workflow_stop];
      rewrite ?Hv.
    + destruct HL as [HL _]. by destruct (stranded role s).
    + destruct HL as (done & rest & _ & _ & _ & Hh).
      unfold halts in Hh. apply andb_prop in Hh as [_ ->]. done.
    + destruct HL as [HL _]. by destruct (stranded role s).
    + destruct HL as [HL _].
      destruct (stranded role s); [|done].
      injection HL as -> _. by rewrite String.eqb_refl.
  - destruct (workflow_rejects role w pw tgt s Hv) as (line & Hr).
    rewrite Hr in H. injection H as <-. cbn [workflow_stop]. by rewrite Hv.
Qed.

Lemma workflow_stops_witness :
  ((workflow Hub None Ambient provisioned_70 (fresh ∅)).1 =
     Fail (SysExit 1) ∧
   workflow_stop Hub provisioned_70 (fresh ∅) (SysExit 1) = true) ∧
  ((workflow Subordinate None Ambient capsule_60_61 (fresh ∅)).1 =
     Fail (AttributeError none_has_no_strip) ∧
   workflow_stop Subordinate capsule_60_61 (fresh ∅)
     (AttributeError none_has_no_strip) = true).
Proof.
  split.
  - split; [reflexivity|].
    apply (workflow_stops Hub provisioned_70 None Ambient (fresh ∅)).
    reflexivity.
  - split; [vm_compute; reflexivity|].
    apply (workflow_stops Subordinate capsule_60_61 None Ambient (fresh ∅)).
    vm_compute. reflexivity.
Defined.
